(** * Credit Commander: usage governor, report store and render pipeline

    A shallow embedding of the server routes (usage counter, /api/generate,
    report store) and of the browser-side renderer and checksum, with the
    properties stated about them. *)

From Stdlib Require Import ZArith List String Ascii Bool Lia Permutation Sorted.
From Stdlib Require Import DecimalString.
From Stdlib Require Import QArith Qround Qminmax.
Import ListNotations.

Local Open Scope Z_scope.

(* ================================================================== *)
(** ** JavaScript strings: sequences of UTF-16 code units *)
(* ================================================================== *)

Definition jsstring := list Z.

Definition is_code_unit (c : Z) : Prop := 0 <= c < 65536.

(** A literal of the source, given as an 8-bit string. *)
Definition js (s : string) : jsstring :=
  map (fun a => Z.of_N (N_of_ascii a)) (list_ascii_of_string s).

(** The templates of the source are full of double quotes; they are
    written here with an apostrophe in their place (no template of the
    source contains an apostrophe) and [tpl] puts the quotes back. *)
Definition tpl (s : string) : jsstring :=
  map (fun c => if c =? 39 then 34 else c) (js s).

Definition jsstring_eqb (a b : jsstring) : bool :=
  if list_eq_dec Z.eq_dec a b then true else false.

(* ================================================================== *)
(** ** 32-bit integer operators of JavaScript *)
(* ================================================================== *)

(** ToInt32 and ToUint32 on an integer-valued number. *)
Definition toInt32 (z : Z) : Z := (z + 2 ^ 31) mod 2 ^ 32 - 2 ^ 31.
Definition toUint32 (z : Z) : Z := z mod 2 ^ 32.

(** [a << n], [a ^ b] and [a >>> 0]. *)
Definition js_shl (a n : Z) : Z := toInt32 (Z.shiftl (toInt32 a) (n mod 32)).
Definition js_xor (a b : Z) : Z := Z.lxor (toInt32 a) (toInt32 b).
Definition js_ushr0 (a : Z) : Z := toUint32 a.

(* ================================================================== *)
(** ** checksum (djb2 with xor), api/generate.ts:971 *)
(* ================================================================== *)

(** One turn of the loop: [hash = ((hash << 5) + hash) ^ str.charCodeAt(i)]. *)
Definition checksum_step (hash c : Z) : Z := js_xor (js_shl hash 5 + hash) c.

Definition checksum_hash (str : jsstring) : Z := fold_left checksum_step str 5381.

(** [Number.prototype.toString(16)] on a non-negative integer. *)
Definition hexDigit (d : Z) : Z := if d <? 10 then 48 + d else 87 + d.

Fixpoint toHexAux (fuel : nat) (n : Z) (acc : jsstring) : jsstring :=
  match fuel with
  | O => acc
  | S f =>
      let acc' := hexDigit (n mod 16) :: acc in
      if n / 16 =? 0 then acc' else toHexAux f (n / 16) acc'
  end.

Definition toString16 (n : Z) : jsstring :=
  toHexAux (S (Z.to_nat (Z.log2 n))) n [].

(** [s.slice(-k)]: the last [k] code units (all of [s] when it is shorter). *)
Definition sliceLast (k : nat) (s : jsstring) : jsstring :=
  skipn (List.length s - k) s.

(** [('00000000' + (hash >>> 0).toString(16)).slice(-8)]. *)
Definition checksum (str : jsstring) : jsstring :=
  sliceLast 8 (js "00000000" ++ toString16 (js_ushr0 (checksum_hash str))).

(** Replacing the code unit at position [i]. *)
Fixpoint replaceAt (i : nat) (c : Z) (s : jsstring) : jsstring :=
  match s, i with
  | [], _ => []
  | _ :: t, O => c :: t
  | x :: t, S j => x :: replaceAt j c t
  end.

Definition int32 (z : Z) : Prop := - 2 ^ 31 <= z < 2 ^ 31.

(** Reading a string of hexadecimal digits back (used to state that the
    digest determines the 32-bit hash). *)
Definition hexDigitValue (c : Z) : Z := if c <? 58 then c - 48 else c - 87.

Definition hexValue (s : jsstring) : Z :=
  fold_left (fun v c => 16 * v + hexDigitValue c) s 0.

(* ================================================================== *)
(** ** String methods of the source *)
(* ================================================================== *)

(** WhiteSpace and LineTerminator code units ([\s], [String.prototype.trim]). *)
Definition isWhiteSpace (c : Z) : bool :=
  ((9 <=? c) && (c <=? 13)) || (c =? 32) || (c =? 160) || (c =? 5760)
  || ((8192 <=? c) && (c <=? 8202)) || (c =? 8232) || (c =? 8233)
  || (c =? 8239) || (c =? 8287) || (c =? 12288) || (c =? 65279).

Fixpoint dropWhile {A} (p : A -> bool) (l : list A) : list A :=
  match l with
  | [] => []
  | x :: t => if p x then dropWhile p t else l
  end.

Fixpoint takeWhile {A} (p : A -> bool) (l : list A) : list A :=
  match l with
  | [] => []
  | x :: t => if p x then x :: takeWhile p t else []
  end.

(** [s.trim()]. *)
Definition trim (s : jsstring) : jsstring :=
  rev (dropWhile isWhiteSpace (rev (dropWhile isWhiteSpace s))).

(** [s.split(',')[0]]. *)
Definition splitCommaFirst (s : jsstring) : jsstring :=
  takeWhile (fun c => negb (c =? 44)) s.

(** [s.replace(/\s+/g, '-')]: every maximal run of white space becomes
    one hyphen. *)
Fixpoint replaceWsRuns (s : jsstring) : jsstring :=
  match s with
  | [] => []
  | c :: t =>
      if isWhiteSpace c then
        match t with
        | c' :: _ => if isWhiteSpace c' then replaceWsRuns t else 45 :: replaceWsRuns t
        | [] => [45]
        end
      else c :: replaceWsRuns t
  end.

Fixpoint isPrefixOf (p s : jsstring) : bool :=
  match p, s with
  | [], _ => true
  | _ :: _, [] => false
  | a :: p', b :: s' => (a =? b) && isPrefixOf p' s'
  end.

(** [s.includes(p)]. *)
Fixpoint includes (s p : jsstring) : bool :=
  isPrefixOf p s || match s with [] => false | _ :: t => includes t p end.

(** [a.join(sep)] on an array of strings. *)
Fixpoint joinWith (sep : jsstring) (l : list jsstring) : jsstring :=
  match l with
  | [] => []
  | [x] => x
  | x :: t => x ++ sep ++ joinWith sep t
  end.

(** The decimal form of an integer-valued number. *)
Definition decimal (n : Z) : jsstring := js (NilZero.string_of_int (Z.to_int n)).

(* ================================================================== *)
(** ** JSON values as the handlers and the renderer see them *)
(* ================================================================== *)

(** Numbers are the integer-valued ones; [String(n)] is then the decimal
    form that the engine prints (below 10^21 in absolute value). *)
#[warnings="-register-all"]
Inductive jsval : Type :=
| JUndefined
| JNull
| JBool (b : bool)
| JNum (n : Z)
| JStr (s : jsstring)
| JArr (items : list jsval)
| JObj (fields : list (jsstring * jsval)).

(** ToBoolean. *)
Definition truthy (v : jsval) : bool :=
  match v with
  | JUndefined | JNull => false
  | JBool b => b
  | JNum n => negb (n =? 0)
  | JStr s => match s with [] => false | _ => true end
  | JArr _ | JObj _ => true
  end.

(** [a || b] on values. *)
Definition jsOr (a b : jsval) : jsval := if truthy a then a else b.

Definition isArray (v : jsval) : bool :=
  match v with JArr _ => true | _ => false end.

Definition isNullish (v : jsval) : bool :=
  match v with JUndefined | JNull => true | _ => false end.

(** [String(v)], also the conversion of a template literal. *)
Fixpoint toStr (v : jsval) : jsstring :=
  match v with
  | JUndefined => js "undefined"
  | JNull => js "null"
  | JBool true => js "true"
  | JBool false => js "false"
  | JNum n => decimal n
  | JStr s => s
  | JArr items =>
      joinWith (js ",")
        ((fix elems (l : list jsval) : list jsstring :=
            match l with
            | [] => []
            | x :: t => (if isNullish x then [] else toStr x) :: elems t
            end) items)
  | JObj _ => js "[object Object]"
  end.

(** Whether an object has a property of its own with this name. *)
Definition hasOwn (name : string) (v : jsval) : bool :=
  match v with
  | JObj fields => existsb (fun kv => jsstring_eqb (fst kv) (js name)) fields
  | _ => false
  end.

(** Whether [String(v)] (and a template literal, and the conversion of
    [v] for [+], [>] and [<]) returns.  The conversion of an object calls
    its [toString]; a JSON value holds no function, so an object with a
    property [toString] of its own has no [toString] to call, its
    inherited [valueOf] gives no primitive, and the conversion throws a
    TypeError.  An array converts its elements other than [null] and
    [undefined].  Where this holds the string is [toStr v]. *)
Fixpoint stringable (v : jsval) : bool :=
  match v with
  | JArr items => forallb stringable items
  | JObj _ => negb (hasOwn "toString" v)
  | _ => true
  end.

(** No object inside the value has a property [toString] of its own:
    every conversion of the value and of its parts returns. *)
Fixpoint plain (v : jsval) : bool :=
  match v with
  | JArr items => forallb plain items
  | JObj fields =>
      negb (hasOwn "toString" v) && forallb (fun kv => plain (snd kv)) fields
  | _ => true
  end.

Fixpoint lookupField (name : jsstring) (fields : list (jsstring * jsval)) : jsval :=
  match fields with
  | [] => JUndefined
  | (k, v) :: t => if jsstring_eqb k name then v else lookupField name t
  end.

(** [v.name]: [None] is the TypeError of reading a property of [null] or
    [undefined].  A string or an array has its [length]; no other name
    read by the source is a built-in property of a JSON value. *)
Definition getProp (v : jsval) (name : string) : option jsval :=
  match v with
  | JUndefined | JNull => None
  | JObj fields => Some (lookupField (js name) fields)
  | JStr s =>
      Some (if jsstring_eqb (js name) (js "length")
            then JNum (Z.of_nat (List.length s)) else JUndefined)
  | JArr l =>
      Some (if jsstring_eqb (js name) (js "length")
            then JNum (Z.of_nat (List.length l)) else JUndefined)
  | _ => Some JUndefined
  end.

(** [v.name] where [v] is known not to be [null] or [undefined]. *)
Definition prop (v : jsval) (name : string) : jsval :=
  match getProp v name with Some x => x | None => JUndefined end.

(* ================================================================== *)
(** ** Request identity (server routes) *)
(* ================================================================== *)

(** A header of an incoming request: absent, one value, or several. *)
Inductive header : Type :=
| HAbsent
| HOne (s : jsstring)
| HMany (l : list jsstring).

Record request : Type := {
  xForwardedFor : header;
  xRealIp : header;
  remoteAddress : option jsstring;
  xClientId : option jsstring;
  reqMethod : jsstring;
  reqParamId : jsstring;
  reqQueryToolkit : option jsstring;
  reqBody : jsval
}.

Definition unknownIp : jsstring := js "unknown".

Definition headerTruthy (h : header) : bool :=
  match h with
  | HAbsent => false
  | HOne [] => false
  | _ => true
  end.

(** getClientIp, part_000:35 and api/generate.ts:21. *)
Definition getClientIp (req : request) : jsstring :=
  if headerTruthy (xForwardedFor req) then
    match xForwardedFor req with
    | HOne s => trim (splitCommaFirst s)
    | HMany (s :: _) => trim s
    | _ => unknownIp
    end
  else if headerTruthy (xRealIp req) then
    match xRealIp req with
    | HOne s => trim s
    | _ => unknownIp
    end
  else
    match remoteAddress req with
    | Some (c :: s) => trim (c :: s)
    | _ => unknownIp
    end.

(** getAnonymousUserId, part_000:15; [None] is the thrown
    'X-Client-Id header is required'. *)
Definition getAnonymousUserId (req : request) : option jsstring :=
  match xClientId req with
  | Some (c :: s) => Some (js "anon_" ++ c :: s)
  | _ => None
  end.

(* ================================================================== *)
(** ** The backing store seen from a handler: state, exceptions, outages *)
(* ================================================================== *)

Inductive outcome (A : Type) : Type :=
| Ok (a : A)
| Throws (error : jsval).
Arguments Ok {A} a.
Arguments Throws {A} error.

(** A computation against a store of type [S]: it returns or throws, and
    the store survives an exception. *)
Definition Store (S A : Type) : Type := S -> outcome A * S.

Definition ret {S A} (a : A) : Store S A := fun s => (Ok a, s).

Definition throw {S A} (error : jsval) : Store S A := fun s => (Throws error, s).

Definition bind {S A B} (m : Store S A) (k : A -> Store S B) : Store S B :=
  fun s => match m s with
           | (Ok a, s') => k a s'
           | (Throws e, s') => (Throws e, s')
           end.

(** [try { body } catch (error) { handler }]. *)
Definition tryCatch {S A} (body : Store S A) (handler : jsval -> Store S A) : Store S A :=
  fun s => match body s with
           | (Ok a, s') => (Ok a, s')
           | (Throws e, s') => handler e s'
           end.

(** The errors thrown in this model: by the store driver, and by reading
    a property of [null] or [undefined] (the message that the engine
    gives a TypeError is left out). *)
Definition storeError : jsval := JObj [(js "message", JStr (js "store error"))].
Definition typeError : jsval := JObj [(js "name", JStr (js "TypeError"))].

Declare Scope store_scope.
Delimit Scope store_scope with store.
Notation "x <- m ;; k" := (bind m (fun x => k))
  (at level 61, m at next level, right associativity) : store_scope.

(* ================================================================== *)
(** ** UsageGovernor: the usage_tracking table and its two operations *)
(* ================================================================== *)

(** The schema file is not part of the sources.  The table is taken with a
    key type [Key] (ip and tool in the Express routes, ip alone in the
    serverless handler) and with [unique_key] telling whether the key
    column(s) carry a unique constraint.  [outage n] tells whether the
    [n]-th query sent to the store finds it unreachable.  The
    [lastUpdated] column, written by the update and never read, is left
    out. *)
Section UsageGovernor.

Variable Key : Type.
Variable key_eqb : Key -> Key -> bool.
Variable unique_key : bool.
Variable outage : nat -> bool.

Record usage_row : Type := { row_key : Key; reportCount : Z }.

Record usage_db : Type := { table : list usage_row; queries : nat }.

Definition UDB := Store usage_db.

Definition matchesKey (k : Key) (r : usage_row) : bool := key_eqb (row_key r) k.

Definition belowLimit (r : usage_row) : bool := reportCount r <? 30.

Definition bump (r : usage_row) : usage_row :=
  {| row_key := row_key r; reportCount := reportCount r + 1 |}.

(** [UPDATE usage_tracking SET report_count = report_count + 1
    WHERE <key> AND report_count < 30 RETURNING *]: one statement. *)
Definition sqlUpdate (k : Key) (t : list usage_row) : list usage_row * list usage_row :=
  (map bump (filter (fun r => matchesKey k r && belowLimit r) t),
   map (fun r => if matchesKey k r && belowLimit r then bump r else r) t).

(** [SELECT * FROM usage_tracking WHERE <key> LIMIT 1]: the first row of
    the key in the order of the list.  The statement has no ORDER BY:
    where several rows have the key, the store may give any of them. *)
Definition sqlSelect (k : Key) (t : list usage_row) : list usage_row :=
  firstn 1 (filter (matchesKey k) t).

(** [INSERT INTO usage_tracking (<key>, report_count) VALUES (k, 1)
    RETURNING *]; a duplicate key throws under a unique constraint. *)
Definition sqlInsert (k : Key) (t : list usage_row)
  : outcome (list usage_row * list usage_row) :=
  if unique_key && existsb (matchesKey k) t then Throws storeError
  else let r := {| row_key := k; reportCount := 1 |} in Ok ([r], t ++ [r]).

(** Sending one statement to the store. *)
Definition query {A} (stmt : list usage_row -> outcome (A * list usage_row)) : UDB A :=
  fun db =>
    let n := queries db in
    if outage n then (Throws storeError, {| table := table db; queries := S n |})
    else match stmt (table db) with
         | Ok (a, t') => (Ok a, {| table := t'; queries := S n |})
         | Throws e => (Throws e, {| table := table db; queries := S n |})
         end.

Definition dbUpdate (k : Key) : UDB (list usage_row) :=
  query (fun t => Ok (sqlUpdate k t)).
Definition dbSelect (k : Key) : UDB (list usage_row) :=
  query (fun t => Ok (sqlSelect k t, t)).
Definition dbInsert (k : Key) : UDB (list usage_row) :=
  query (sqlInsert k).

Record check_result : Type := { allowed : bool; check_count : Z }.

(** [limitReached] is [false] where the source leaves the field out. *)
Record increment_result : Type :=
  { success : bool; incr_count : Z; limitReached : bool }.

Local Open Scope store_scope.

(** checkUsageLimit, part_000:54 and api/generate.ts:31. *)
Definition checkUsageLimit (ipAddress : jsstring) (k : Key) : UDB check_result :=
  tryCatch
    (if jsstring_eqb ipAddress unknownIp then
       ret {| allowed := false; check_count := 30 |}
     else
       existing <- dbSelect k ;;
       let currentCount :=
         match existing with r :: _ => reportCount r | [] => 0 end in
       if currentCount >=? 30 then
         ret {| allowed := false; check_count := currentCount |}
       else
         ret {| allowed := true; check_count := currentCount |})
    (fun error => ret {| allowed := true; check_count := 0 |}).

(** incrementUsage, part_000:91 and api/generate.ts:67. *)
Definition incrementUsage (ipAddress : jsstring) (k : Key) : UDB increment_result :=
  tryCatch
    (if jsstring_eqb ipAddress unknownIp then
       ret {| success := false; incr_count := 30; limitReached := true |}
     else
       updated <- dbUpdate k ;;
       match updated with
       | r :: _ =>
           ret {| success := true; incr_count := reportCount r; limitReached := false |}
       | [] =>
           existing <- dbSelect k ;;
           match existing with
           | r :: _ =>
               ret {| success := false; incr_count := reportCount r; limitReached := true |}
           | [] =>
               inserted <- dbInsert k ;;
               match inserted with
               | r :: _ =>
                   ret {| success := true; incr_count := reportCount r;
                          limitReached := false |}
               | [] => throw typeError
               end
           end
       end)
    (fun error => ret {| success := false; incr_count := 0; limitReached := true |}).

(** *** Concurrent requests

    A call of incrementUsage suspends at each [await]; between two of
    its statements the statements of other calls may run.  A call in
    flight is the statement it will send next, or its result. *)
Inductive call : Type :=
| AtUpdate
| AtSelect
| AtInsert
| Returned (r : increment_result).

Definition failClosed : increment_result :=
  {| success := false; incr_count := 0; limitReached := true |}.

(** One statement of one call (the body of the [try] after the ip test). *)
Definition stepCall (k : Key) (c : call) (db : usage_db) : call * usage_db :=
  match c with
  | AtUpdate =>
      match dbUpdate k db with
      | (Ok (r :: _), db') =>
          (Returned {| success := true; incr_count := reportCount r;
                       limitReached := false |}, db')
      | (Ok [], db') => (AtSelect, db')
      | (Throws _, db') => (Returned failClosed, db')
      end
  | AtSelect =>
      match dbSelect k db with
      | (Ok (r :: _), db') =>
          (Returned {| success := false; incr_count := reportCount r;
                       limitReached := true |}, db')
      | (Ok [], db') => (AtInsert, db')
      | (Throws _, db') => (Returned failClosed, db')
      end
  | AtInsert =>
      match dbInsert k db with
      | (Ok (r :: _), db') =>
          (Returned {| success := true; incr_count := reportCount r;
                       limitReached := false |}, db')
      | (Ok [], db') => (Returned failClosed, db')
      | (Throws _, db') => (Returned failClosed, db')
      end
  | Returned r => (Returned r, db)
  end.

(** One call running alone for [n] statements. *)
Fixpoint stepsCall (k : Key) (n : nat) (c : call) (db : usage_db) : call * usage_db :=
  match n with
  | O => (c, db)
  | S m => let (c', db') := stepCall k c db in stepsCall k m c' db'
  end.

(** The calls in flight, all for the same key, and the store. *)
Definition config : Type := (list call * usage_db)%type.

Fixpoint stepNth (k : Key) (i : nat) (cs : list call) (db : usage_db) {struct cs}
  : config :=
  match cs, i with
  | [], _ => ([], db)
  | c :: rest, O => let (c', db') := stepCall k c db in (c' :: rest, db')
  | c :: rest, S j => let (rest', db') := stepNth k j rest db in (c :: rest', db')
  end.

(** A schedule names, statement after statement, the call that runs. *)
Fixpoint runSchedule (k : Key) (sched : list nat) (cf : config) : config :=
  match sched with
  | [] => cf
  | i :: rest => runSchedule k rest (stepNth k i (fst cf) (snd cf))
  end.

(** [n] calls one after the other, each run to its end. *)
Fixpoint runSequential (ip : jsstring) (k : Key) (n : nat) (db : usage_db)
  : list (outcome increment_result) * usage_db :=
  match n with
  | O => ([], db)
  | S m =>
      let (r, db') := incrementUsage ip k db in
      let (rs, db'') := runSequential ip k m db' in
      (r :: rs, db'')
  end.

Definition isReturned (c : call) : bool :=
  match c with Returned _ => true | _ => false end.

Definition callSucceeded (c : call) : bool :=
  match c with Returned r => success r | _ => false end.

Definition callLimitReached (c : call) : bool :=
  match c with Returned r => limitReached r | _ => false end.

(** The count that the store holds for a key, as [checkUsageLimit]
    reads it. *)
Definition storedCount (k : Key) (t : list usage_row) : Z :=
  match sqlSelect k t with r :: _ => reportCount r | [] => 0 end.

Definition countsInRange (t : list usage_row) : Prop :=
  Forall (fun r => 0 <= reportCount r <= 30) t.

End UsageGovernor.

Arguments row_key {Key} _.
Arguments reportCount {Key} _.
Arguments table {Key} _.
Arguments queries {Key} _.

Arguments matchesKey {Key} key_eqb k r.
Arguments belowLimit {Key} r.
Arguments bump {Key} r.
Arguments sqlUpdate {Key} key_eqb k t.
Arguments sqlSelect {Key} key_eqb k t.
Arguments sqlInsert {Key} key_eqb unique_key k t.
Arguments query {Key} outage {A} stmt _.
Arguments dbUpdate {Key} key_eqb outage k _.
Arguments dbSelect {Key} key_eqb outage k _.
Arguments dbInsert {Key} key_eqb unique_key outage k _.
Arguments checkUsageLimit {Key} key_eqb outage ipAddress k _.
Arguments incrementUsage {Key} key_eqb unique_key outage ipAddress k _.
Arguments stepCall {Key} key_eqb unique_key outage k c db.
Arguments stepsCall {Key} key_eqb unique_key outage k n c db.
Arguments stepNth {Key} key_eqb unique_key outage k i cs db.
Arguments runSchedule {Key} key_eqb unique_key outage k sched cf.
Arguments runSequential {Key} key_eqb unique_key outage ip k n db.
Arguments storedCount {Key} key_eqb k t.
Arguments countsInRange {Key} t.

(** The key of the Express routes: ip address and tool. *)
Definition ip_tool : Type := (jsstring * jsstring)%type.

Definition ip_tool_eqb (a b : ip_tool) : bool :=
  jsstring_eqb (fst a) (fst b) && jsstring_eqb (snd a) (snd b).

(** The results of [n] calls made one after the other, starting with a
    stored count of [c]. *)
Fixpoint expectedResults (c : Z) (n : nat) : list increment_result :=
  match n with
  | O => []
  | S m =>
      if c <? 30 then
        {| success := true; incr_count := c + 1; limitReached := false |}
          :: expectedResults (c + 1) m
      else
        {| success := false; incr_count := c; limitReached := true |}
          :: expectedResults c m
  end.

(** The rows of a key hold the count [c]: no row when [c] is 0, one row
    otherwise. *)
Definition holdsCount {Key} (key_eqb : Key -> Key -> bool) (k : Key) (c : Z)
  (t : list (usage_row Key)) : Prop :=
  (c = 0 /\ filter (matchesKey key_eqb k) t = []) \/
  (1 <= c <= 30 /\ exists r, filter (matchesKey key_eqb k) t = [r] /\ reportCount r = c).

(** A query sent while running [m] from [db] found the store unreachable. *)
Definition storeThrew {Key A} (outage : nat -> bool) (m : UDB Key A) (db : usage_db Key) : Prop :=
  exists j, (queries db <= j < queries (snd (m db)))%nat /\ outage j = true.

Definition failOpen : check_result := {| allowed := true; check_count := 0 |}.

(** Two requests of one client for one tool, none made before, whose
    statements alternate. *)
Definition raceKey : ip_tool := (js "203.0.113.7", js "creditcommander").

Definition raceSchedule : list nat := [0; 1; 0; 1; 0; 1]%nat.

Definition raceStart : config ip_tool :=
  ([AtUpdate; AtUpdate], {| table := []; queries := 0 |}).

(* ================================================================== *)
(** ** GenerationOrchestrator: POST /api/generate *)
(* ================================================================== *)

(** [String.prototype.toLowerCase] on the code units below 128. *)
Definition asciiLower (s : jsstring) : jsstring :=
  map (fun c => if (65 <=? c) && (c <=? 90) then c + 32 else c) s.

Definition isAscii (s : jsstring) : Prop := Forall (fun c => 0 <= c < 128) s.

(** What the external generator does with one call: it throws an error
    object, or its answer parses to a JSON value.  While the call is
    awaited other requests may write to the store: [meanwhile]. *)
Inductive gen_outcome : Type :=
| GenThrows (errorFields : list (jsstring * jsval))
| GenReturns (aiResponse : jsval).

Record response : Type := { status : Z; body : jsval }.

Definition strictEqStr (v : jsval) (s : jsstring) : bool :=
  match v with JStr x => jsstring_eqb x s | _ => false end.

Definition strictEqNum (v : jsval) (n : Z) : bool :=
  match v with JNum x => x =? n | _ => false end.

Definition isUndefined (v : jsval) : bool :=
  match v with JUndefined => true | _ => false end.

Definition isString (v : jsval) : bool :=
  match v with JStr _ => true | _ => false end.

(** The names of the fields of a JSON object, in order. *)
Definition keysOf (v : jsval) : list jsstring :=
  match v with JObj fields => map fst fields | _ => [] end.

Definition awaitGenerator {Key} (gen : gen_outcome)
  (meanwhile : list (usage_row Key) -> list (usage_row Key)) : UDB Key jsval :=
  fun db =>
    (match gen with
     | GenThrows fields => Throws (JObj fields)
     | GenReturns ai => Ok ai
     end,
     {| table := meanwhile (table db); queries := queries db |}).

Section Handlers.

(** [toLowerCase] is the engine's; [production] is
    [process.env.NODE_ENV === 'production'] and [openaiKeySet] tells
    whether OPENAI_API_KEY is set. *)
Variable toLowerCase : jsstring -> jsstring.
Variable unique_key : bool.
Variable outage : nat -> bool.
Variable production : bool.
Variable openaiKeySet : bool.

Local Open Scope store_scope.

Definition creditcommander : jsstring := js "creditcommander".
Definition complipilot : jsstring := js "complipilot".

(** normalizeTool, part_000:45, for a tool value that [String] converts
    ([stringable]); for any other the call throws. *)
Definition normalizeTool (tool : jsval) : jsstring :=
  let normalized := trim (toLowerCase (toStr (jsOr tool (JStr creditcommander)))) in
  if jsstring_eqb normalized complipilot then complipilot else creditcommander.

(** *** The Express route, part_000:340 *)

Definition expressQuotaBody (toolName : jsstring) (count : Z) (tool : jsstring) : jsval :=
  JObj [ (js "error", JStr (js "You have reached your 30-report limit for the "
                            ++ toolName
                            ++ js " soft launch. Please upgrade to continue."));
         (js "limitReached", JBool true);
         (js "count", JNum count);
         (js "limit", JNum 30);
         (js "tool", JStr tool) ].

Definition errorBody (message : string) : jsval :=
  JObj [ (js "error", JStr (js message)) ].

Definition expressInvalid (fd : jsval) : bool :=
  negb (truthy (prop fd "businessName")) || negb (truthy (prop fd "ein"))
  || negb (truthy (prop fd "entityType")) || negb (truthy (prop fd "state"))
  || negb (truthy (prop fd "startDate"))
  || isUndefined (prop fd "utilization") || isUndefined (prop fd "tradeLines")
  || negb (truthy (prop fd "annualRevenue"))
  || isUndefined (prop fd "latePayments") || isUndefined (prop fd "ownerFico")
  || isUndefined (prop fd "creditHistory")
  || negb (truthy (prop fd "fundingGoal")) || negb (truthy (prop fd "targetLimit"))
  || negb (truthy (prop fd "timeframe")).

Definition expressRoadmap (ai fd : jsval) : jsval :=
  JObj [ (js "profileSummary",
          jsOr (prop ai "profileSummary")
            (JStr (js "Credit roadmap for " ++ toStr (prop fd "businessName") ++ js ".")));
         (js "quickWins",
          jsOr (prop ai "quickWins")
            (JStr (js "Focus on reducing utilization and adding trade lines.")));
         (js "tradeLinesPlan",
          jsOr (prop ai "tradeLinesPlan")
            (JStr (js "Build trade lines with starter vendors.")));
         (js "vendorRecommendations", jsOr (prop ai "vendorRecommendations") (JArr []));
         (js "cardStrategy",
          jsOr (prop ai "cardStrategy")
            (JStr (js "Apply for business cards based on your profile.")));
         (js "cardRecommendations", jsOr (prop ai "cardRecommendations") (JArr []));
         (js "bankingSignals",
          jsOr (prop ai "bankingSignals")
            (JStr (js "Optimize banking relationships and data signals.")));
         (js "actionPlan",
          jsOr (prop ai "actionPlan")
            (JStr (js "Complete credit roadmap within " ++ toStr (prop fd "timeframe")
                   ++ js ".")));
         (js "riskFlags",
          jsOr (prop ai "riskFlags")
            (JStr (js "Address any late payments and derogatories."))) ].

(** The [catch] of the route. *)
Definition expressOnError (error : jsval) : response :=
  if strictEqStr (prop error "code") (js "insufficient_quota") then
    {| status := 503;
       body := errorBody "Service temporarily unavailable. Please try again later." |}
  else if strictEqNum (prop error "status") 429 then
    {| status := 429;
       body := errorBody "Too many requests. Please wait a moment and try again." |}
  else if strictEqNum (prop error "status") 401 then
    {| status := 401;
       body := errorBody "Authentication failed. Please check API configuration." |}
  else
    {| status := 500;
       body := errorBody "An unexpected error occurred. Please try again." |}.

(** [toolName] of the route. *)
Definition expressToolName (tool : jsstring) : jsstring :=
  if jsstring_eqb tool creditcommander then js "Credit Commander" else js "CompliPilot".

(** The route, for a request whose tool value and form fields [String]
    converts ([stringable]): normalizeTool at line 342 and the templates
    at lines 398-472 then return. *)
Definition expressGenerate (req : request) (gen : gen_outcome)
  (meanwhile : list (usage_row ip_tool) -> list (usage_row ip_tool))
  : UDB ip_tool response :=
  if isNullish (reqBody req) then throw typeError else
  let tool := normalizeTool (prop (reqBody req) "tool") in
  let toolName := expressToolName tool in
  let ip := getClientIp req in
  usageCheck <- checkUsageLimit ip_tool_eqb outage ip (ip, tool) ;;
  if negb (allowed usageCheck) then
    ret {| status := 429;
           body := expressQuotaBody toolName (check_count usageCheck) tool |}
  else
    let formData := prop (reqBody req) "formData" in
    tryCatch
      (if negb (truthy formData) then
         ret {| status := 400; body := errorBody "Form data is required." |}
       else if expressInvalid formData then
         ret {| status := 400; body := errorBody "All required fields must be completed." |}
       else
         aiResponse <- awaitGenerator gen meanwhile ;;
         if isNullish aiResponse then throw typeError
         else
           let response := expressRoadmap aiResponse formData in
           incrementResult <- incrementUsage ip_tool_eqb unique_key outage ip (ip, tool) ;;
           if negb (success incrementResult) && limitReached incrementResult then
             ret {| status := 429;
                    body := expressQuotaBody toolName (incr_count incrementResult) tool |}
           else
             ret {| status := 200; body := response |})
      (fun error => ret (expressOnError error)).

(** The request passes the quota check and the validation, so that the
    generator is called. *)
Definition expressCallsGenerator (req : request) (db : usage_db ip_tool) : bool :=
  let tool := normalizeTool (prop (reqBody req) "tool") in
  let ip := getClientIp req in
  match fst (checkUsageLimit ip_tool_eqb outage ip (ip, tool) db) with
  | Ok usageCheck =>
      negb (isNullish (reqBody req))
      && allowed usageCheck && truthy (prop (reqBody req) "formData")
      && negb (expressInvalid (prop (reqBody req) "formData"))
  | Throws _ => false
  end.

(** *** The serverless handler, api/generate.ts:162; its table is keyed
    by the ip address alone *)

Definition vercelQuotaBody (count : Z) : jsval :=
  JObj [ (js "error", JStr (js "You have reached your 30-report limit for Credit Commander. Please contact support to continue."));
         (js "limitReached", JBool true);
         (js "count", JNum count);
         (js "limit", JNum 30) ].

Definition vercelInvalid (fd : jsval) : bool :=
  negb (truthy (prop fd "businessName")) || negb (truthy (prop fd "entityType"))
  || negb (truthy (prop fd "state")).

Definition vercelRoadmap (ai : jsval) : jsval :=
  JObj [ (js "profileSummary",
          jsOr (prop ai "profileSummary") (JStr (js "Profile summary not generated.")));
         (js "quickWins",
          jsOr (prop ai "quickWins") (JStr (js "Quick wins not generated.")));
         (js "tradeLinesPlan",
          jsOr (prop ai "tradeLinesPlan") (JStr (js "Trade lines plan not generated.")));
         (js "cardStrategy",
          jsOr (prop ai "cardStrategy") (JStr (js "Card strategy not generated.")));
         (js "bankingSignals",
          jsOr (prop ai "bankingSignals") (JStr (js "Banking signals not generated.")));
         (js "actionPlan",
          if isString (prop ai "actionPlan") then prop ai "actionPlan"
          else JStr (js "30/60/90-day action plan not generated."));
         (js "riskFlags",
          jsOr (prop ai "riskFlags") (JStr (js "Risk flags not generated."))) ].

Definition vercelInnerError (error : jsval) : response :=
  {| status := 500;
     body := JObj ((js "error", JStr (js "Failed to generate credit roadmap. Please try again."))
                   :: if production then []
                      else match prop error "message" with
                           | JUndefined => []
                           | m => [(js "details", m)]
                           end) |}.

Definition vercelOuterError (error : jsval) : response :=
  {| status := 500;
     body := JObj ((js "error", JStr (js "Something went wrong. Please try again later."))
                   :: if production then []
                      else match prop error "message" with
                           | JUndefined => []
                           | m => [(js "debug", m)]
                           end) |}.

(** The handler, for a request whose form fields [String] converts
    ([stringable]): the template of the prompt at lines 240-310 then
    returns. *)
Definition vercelGenerate (req : request) (gen : gen_outcome)
  (meanwhile : list (usage_row jsstring) -> list (usage_row jsstring))
  : UDB jsstring response :=
  if jsstring_eqb (reqMethod req) (js "OPTIONS") then
    ret {| status := 200; body := JUndefined |}
  else if negb (jsstring_eqb (reqMethod req) (js "POST")) then
    ret {| status := 405; body := errorBody "Method not allowed" |}
  else
    let ip := getClientIp req in
    usageCheck <- checkUsageLimit jsstring_eqb outage ip ip ;;
    if negb (allowed usageCheck) then
      ret {| status := 429; body := vercelQuotaBody (check_count usageCheck) |}
    else
      tryCatch
        (if isNullish (reqBody req) then throw typeError
         else
           let formData := prop (reqBody req) "formData" in
           if negb (truthy formData) then
             ret {| status := 400; body := errorBody "formData is required" |}
           else if vercelInvalid formData then
             ret {| status := 400;
                    body := errorBody "Business name, entity type, and state are required to generate your credit roadmap." |}
           else if negb openaiKeySet then
             throw (JObj [(js "message", JStr (js "OPENAI_API_KEY is required"))])
           else
             tryCatch
               (aiResponse <- awaitGenerator gen meanwhile ;;
                if isNullish aiResponse then throw typeError
                else
                  let response := vercelRoadmap aiResponse in
                  incrementResult <- incrementUsage jsstring_eqb unique_key outage ip ip ;;
                  if negb (success incrementResult) && limitReached incrementResult then
                    ret {| status := 429;
                           body := vercelQuotaBody (incr_count incrementResult) |}
                  else
                    ret {| status := 200; body := response |})
               (fun error => ret (vercelInnerError error)))
        (fun error => ret (vercelOuterError error)).

Definition vercelCallsGenerator (req : request) (db : usage_db jsstring) : bool :=
  let ip := getClientIp req in
  jsstring_eqb (reqMethod req) (js "POST")
  && match fst (checkUsageLimit jsstring_eqb outage ip ip db) with
     | Ok usageCheck =>
         allowed usageCheck && negb (isNullish (reqBody req))
         && truthy (prop (reqBody req) "formData")
         && negb (vercelInvalid (prop (reqBody req) "formData"))
         && openaiKeySet
     | Throws _ => false
     end.

End Handlers.

(** A request and a store for the examples: one client, 29 reports so
    far, and another request of the same client that takes report 30
    while this one awaits the generator. *)
Definition sampleFormData : jsval :=
  JObj [ (js "businessName", JStr (js "Acme LLC")); (js "ein", JStr (js "12-3456789"));
         (js "entityType", JStr (js "LLC")); (js "state", JStr (js "TX"));
         (js "startDate", JStr (js "2020-01-01")); (js "utilization", JNum 45);
         (js "tradeLines", JNum 2); (js "annualRevenue", JStr (js "250000"));
         (js "latePayments", JNum 0); (js "ownerFico", JNum 700);
         (js "creditHistory", JNum 5); (js "fundingGoal", JStr (js "Equipment"));
         (js "targetLimit", JStr (js "50000")); (js "timeframe", JStr (js "90 days")) ].

Definition sampleRequest : request :=
  {| xForwardedFor := HOne (js "203.0.113.7");
     xRealIp := HAbsent;
     remoteAddress := None;
     xClientId := Some (js "client-b");
     reqMethod := js "POST";
     reqParamId := js "r1";
     reqQueryToolkit := Some (js "creditcommander");
     reqBody := JObj [ (js "tool", JStr (js "creditcommander"));
                       (js "formData", sampleFormData) ] |}.

Definition sampleAnswer : jsval :=
  JObj [ (js "profileSummary", JStr (js "Solid profile.")) ].

Definition expressDb29 : usage_db ip_tool :=
  {| table := [{| row_key := raceKey; reportCount := 29 |}]; queries := 0 |}.

Definition vercelDb29 : usage_db jsstring :=
  {| table := [{| row_key := js "203.0.113.7"; reportCount := 29 |}]; queries := 0 |}.

Definition otherRequestWins {Key} (t : list (usage_row Key)) : list (usage_row Key) :=
  map bump t.

(* ================================================================== *)
(** ** RenderPipeline: the unified renderer, api/generate.ts:982-1170 *)
(* ================================================================== *)

(** A stable sort by an integer key, ascending: what
    [Array.prototype.sort] does with the comparator [keyA - keyB]. *)
Fixpoint insertByKey {A} (key : A -> Z) (x : A) (l : list A) : list A :=
  match l with
  | [] => [x]
  | y :: t => if key x <=? key y then x :: y :: t else y :: insertByKey key x t
  end.

Fixpoint sortByKey {A} (key : A -> Z) (l : list A) : list A :=
  match l with
  | [] => []
  | x :: t => insertByKey key x (sortByKey key t)
  end.

(** [a.map(f)] where [f] may throw. *)
Fixpoint traverse {A B} (f : A -> option B) (l : list A) : option (list B) :=
  match l with
  | [] => Some []
  | x :: t =>
      match f x, traverse f t with
      | Some y, Some ys => Some (y :: ys)
      | _, _ => None
      end
  end.

(** The serialization of a text node by the DOM
    ([div.textContent = s; div.innerHTML]). *)
Definition domTextToHtml (s : jsstring) : jsstring :=
  flat_map (fun c =>
              if c =? 38 then js "&amp;"
              else if c =? 60 then js "&lt;"
              else if c =? 62 then js "&gt;"
              else if c =? 160 then js "&nbsp;"
              else [c]) s.

Section RenderPipeline.

(** Supplied by the browser: [String.prototype.toLowerCase], the
    serialization of a text node, and whether [s > 0] holds of a
    string [s] (its conversion to a number). *)
Variable toLowerCase : jsstring -> jsstring.
Variable textToHtml : jsstring -> jsstring.
Variable stringGtZero : jsstring -> bool.

(** [x > 0] on a value. *)
Definition gtZero (v : jsval) : bool :=
  match v with
  | JNum n => 0 <? n
  | JBool b => b
  | JStr s => stringGtZero s
  | JArr l => stringGtZero (toStr (JArr l))
  | _ => false
  end.

(** escapeHtml, line 987, for a value that [String] converts
    ([stringable]). *)
Definition escapeHtml (str : jsval) : jsstring :=
  if negb (truthy str) then [] else textToHtml (toStr str).

Definition pendingInput : jsstring :=
  tpl "<em style='color: rgb(var(--text-muted-rgb));'>[Pending Input]</em>".

(** safePlaceholder, line 994. *)
Definition safePlaceholder (val : jsval) : jsstring :=
  if negb (truthy val)
     || (isArray val && strictEqNum (prop val "length") 0)
  then pendingInput
  else escapeHtml val.

(** getApprovalClass, line 1163; [None] is the TypeError of calling
    [toLowerCase] on a value that has none. *)
Definition getApprovalClass (odds : jsval) : option jsstring :=
  if negb (truthy odds) then Some (js "default")
  else match odds with
       | JStr s =>
           let lower := toLowerCase s in
           if includes lower (js "high") then Some (js "success")
           else if includes lower (js "medium") then Some (js "warning")
           else if includes lower (js "low") then Some (js "danger")
           else Some (js "default")
       | _ => None
       end.

(** [x.approvalOdds?.toLowerCase() || 'unknown']. *)
Definition approvalTestId (odds : jsval) : option jsstring :=
  match odds with
  | JUndefined | JNull => Some (js "unknown")
  | JStr s => Some (match toLowerCase s with [] => js "unknown" | l => l end)
  | _ => None
  end.

(** The "Reports to" line of a vendor card. *)
Definition renderBureaus (rb : jsval) : option jsstring :=
  if truthy rb && gtZero (prop rb "length") then
    match rb with
    | JArr l =>
        Some (tpl "
                    <div style='font-size: 12px; color: var(--text-secondary);'>
                        <strong>Reports to:</strong> "
            ++ joinWith (js ", ") (map escapeHtml l)
            ++ tpl "
                    </div>
                ")
    | _ => None
    end
  else Some [].

(** One vendor card: the body of the [map] at line 1088. *)
Definition renderVendorCard (v : jsval) : option jsstring :=
  if isNullish v then None else
  match getApprovalClass (prop v "approvalOdds"),
        approvalTestId (prop v "approvalOdds"),
        renderBureaus (prop v "reportsBureaus") with
  | Some approvalClass, Some approvalId, Some bureaus =>
      Some (tpl "
            <div class='recommendation-card' style='background: rgba(77,182,231,0.08); border: 1px solid rgba(77,182,231,0.2); border-radius: 8px; padding: 16px; margin-bottom: 12px;' data-testid='vendor-card-"
        ++ toLowerCase (replaceWsRuns (escapeHtml (jsOr (prop v "name") (JStr (js "unknown")))))
        ++ tpl "'>
                <div style='display: flex; justify-content: space-between; align-items: flex-start; margin-bottom: 10px;'>
                    <h4 style='margin: 0; color: #4DB6E7; font-size: 16px; font-weight: 600;'>"
        ++ escapeHtml (jsOr (prop v "name") (JStr (js "Unknown Vendor")))
        ++ tpl "</h4>
                    <span class='cc-badge cc-badge--"
        ++ approvalClass
        ++ tpl "' data-testid='badge-approval-"
        ++ approvalId
        ++ tpl "'>
                        "
        ++ escapeHtml (jsOr (prop v "approvalOdds") (JStr (js "N/A")))
        ++ tpl " Approval
                    </span>
                </div>
                <div style='margin-bottom: 8px;'>
                    <span class='cc-badge cc-badge--info' data-testid='badge-tier'>"
        ++ escapeHtml (jsOr (prop v "tier") (JStr (js "N/A")))
        ++ tpl "</span>
                    <span class='cc-badge cc-badge--default' data-testid='badge-min-fico'>Min FICO: "
        ++ toStr (jsOr (prop v "minFico") (JStr (js "N/A")))
        ++ tpl "</span>
                </div>
                <p style='margin: 8px 0; color: var(--text-color); font-size: 14px;'>"
        ++ escapeHtml (jsOr (prop v "reason") (JStr []))
        ++ tpl "</p>
                "
        ++ bureaus
        ++ tpl "
            </div>
        ")
  | _, _, _ => None
  end.

Definition vendorBlock (vendorCards : jsstring) : jsstring :=
  tpl "
            <div class='cc-card' style='padding: 18px; margin-bottom: 20px;'>
                <h3 class='cc-section-title' style='border-left: 2px solid rgba(255,213,74,.35); padding-left: 14px; margin: 0 0 14px 0;'>Recommended Vendors</h3>
                <div data-testid='vendor-recommendations'>
                    "
  ++ vendorCards
  ++ tpl "
                </div>
            </div>
        ".

(** renderVendorRecommendations, line 1081. *)
Definition renderVendorRecommendations (vendors : jsval) : option jsstring :=
  match vendors with
  | JArr (v :: vs) =>
      match traverse renderVendorCard (v :: vs) with
      | Some vendorCards => Some (vendorBlock (List.concat vendorCards))
      | None => None
      end
  | _ => Some []
  end.

(** [typeof c.applyOrder === 'number' ? c.applyOrder : 99]. *)
Definition orderKey (c : jsval) : Z :=
  match prop c "applyOrder" with JNum n => n | _ => 99 end.

Definition applyOrderBadge (c : jsval) : jsstring :=
  if truthy (prop c "applyOrder") then
    tpl "<span class='cc-badge cc-badge--primary' data-testid='badge-apply-order'>Apply Order: #"
       ++ toStr (prop c "applyOrder")
       ++ tpl "</span>"
  else [].

Definition expectedLimitBadge (c : jsval) : jsstring :=
  if truthy (prop c "expectedLimit") then
    tpl "<span class='cc-badge cc-badge--info' data-testid='badge-expected-limit'>"
       ++ escapeHtml (prop c "expectedLimit")
       ++ tpl "</span>"
  else [].

(** One card: the body of the [map] at line 1133. *)
Definition renderCardCard (c : jsval) : option jsstring :=
  if isNullish c then None else
  match getApprovalClass (prop c "approvalOdds"),
        approvalTestId (prop c "approvalOdds") with
  | Some approvalClass, Some approvalId =>
      let applyOrderBadge := applyOrderBadge c in
      let expectedLimitBadge := expectedLimitBadge c in
      Some (tpl "
            <div class='recommendation-card' style='background: rgba(255,213,74,0.08); border: 1px solid rgba(255,213,74,0.2); border-radius: 8px; padding: 16px; margin-bottom: 12px;' data-testid='card-card-"
        ++ toLowerCase (replaceWsRuns (escapeHtml (jsOr (prop c "name") (JStr (js "unknown")))))
        ++ tpl "'>
                <div style='display: flex; justify-content: space-between; align-items: flex-start; margin-bottom: 10px;'>
                    <div>
                        <h4 class='card-name-title' style='margin: 0 0 4px 0; color: #FFD54A; font-size: 16px; font-weight: 600;'>"
        ++ escapeHtml (jsOr (prop c "name") (JStr (js "Unknown Card")))
        ++ tpl "</h4>
                        <div style='font-size: 13px; color: var(--text-secondary);'>"
        ++ escapeHtml (jsOr (prop c "issuer") (JStr []))
        ++ tpl "</div>
                    </div>
                    <span class='cc-badge cc-badge--"
        ++ approvalClass
        ++ tpl "' data-testid='badge-approval-"
        ++ approvalId
        ++ tpl "'>
                        "
        ++ escapeHtml (jsOr (prop c "approvalOdds") (JStr (js "N/A")))
        ++ tpl " Approval
                    </span>
                </div>
                <div style='margin-bottom: 8px;'>
                    "
        ++ applyOrderBadge
        ++ tpl "
                    <span class='cc-badge cc-badge--default' data-testid='badge-min-fico'>Min FICO: "
        ++ toStr (jsOr (prop c "minFico") (JStr (js "N/A")))
        ++ tpl "</span>
                    "
        ++ expectedLimitBadge
        ++ tpl "
                </div>
                <p style='margin: 8px 0; color: var(--text-color); font-size: 14px;'>"
        ++ escapeHtml (jsOr (prop c "reason") (JStr []))
        ++ tpl "</p>
            </div>
        ")
  | _, _ => None
  end.

Definition cardBlock (cardCards : jsstring) : jsstring :=
  tpl "
            <div class='cc-card' style='padding: 18px; margin-bottom: 20px;'>
                <h3 class='cc-section-title' style='border-left: 2px solid rgba(255,213,74,.35); padding-left: 14px; margin: 0 0 14px 0;'>Recommended Business Cards</h3>
                <div data-testid='card-recommendations'>
                    "
  ++ cardCards
  ++ tpl "
                </div>
            </div>
        ".

(** renderCardRecommendations, line 1119.  An element that is [null]
    makes the comparator or the [map] throw. *)
Definition renderCardRecommendations (cards : jsval) : option jsstring :=
  match cards with
  | JArr (c :: cs) =>
      if existsb isNullish (c :: cs) then None
      else
        let sortedCards := sortByKey orderKey (c :: cs) in
        match traverse renderCardCard sortedCards with
        | Some cardCards => Some (cardBlock (List.concat cardCards))
        | None => None
        end
  | _ => Some []
  end.

Definition headerBlock (payload : jsval) : jsstring :=
  tpl "
            <div class='doc-meta'>
                <div><strong>Business:</strong> "
  ++ safePlaceholder (prop payload "businessName")
  ++ tpl "</div>
                <div><strong>Entity Type:</strong> "
  ++ safePlaceholder (prop payload "entityType")
  ++ tpl "</div>
                <div><strong>Current Utilization:</strong> "
  ++ safePlaceholder (prop payload "utilization")
  ++ tpl "%</div>
                <div><strong>Target Credit Limit:</strong> "
  ++ safePlaceholder (prop payload "targetLimit")
  ++ tpl "</div>
                <div><strong>Tone:</strong> "
  ++ safePlaceholder (jsOr (prop payload "tone") (JStr (js "Professional")))
  ++ tpl "</div>
            </div>
            <hr/>
        ".

(** A field of the destructuring at line 1006, with its default. *)
Definition fieldOr (generated : jsval) (name : string) (default : jsval) : jsval :=
  match prop (jsOr generated (JObj [])) name with
  | JUndefined => default
  | v => v
  end.

(** renderStructuredHTML, line 1005. *)
Definition renderStructuredHTML (payload generated : jsval) : option jsstring :=
  let profileSummary := fieldOr generated "profileSummary" (JStr []) in
  let quickWins := fieldOr generated "quickWins" (JStr []) in
  let tradeLinesPlan := fieldOr generated "tradeLinesPlan" (JStr []) in
  let vendorRecommendations := fieldOr generated "vendorRecommendations" (JArr []) in
  let cardStrategy := fieldOr generated "cardStrategy" (JStr []) in
  let cardRecommendations := fieldOr generated "cardRecommendations" (JArr []) in
  let bankingSignals := fieldOr generated "bankingSignals" (JStr []) in
  let actionPlan := fieldOr generated "actionPlan" (JStr []) in
  let riskFlags := fieldOr generated "riskFlags" (JStr []) in
  if isNullish payload then None else
  match renderVendorRecommendations vendorRecommendations,
        renderCardRecommendations cardRecommendations with
  | Some vendorsHtml, Some cardsHtml =>
      Some (tpl "
            "
        ++ headerBlock payload
        ++ tpl "

            <div class='cc-card' style='padding: 18px; margin-bottom: 20px;'>
                <h2 class='cc-section-title' style='border-left: 2px solid rgba(255,213,74,.35); padding-left: 14px; margin: 0 0 14px 0;'>Profile Summary</h2>
                <div class='section-content'>"
        ++ safePlaceholder profileSummary
        ++ tpl "</div>
            </div>

            <div class='cc-card' style='padding: 18px; margin-bottom: 20px;'>
                <h3 class='cc-section-title' style='border-left: 2px solid rgba(255,213,74,.35); padding-left: 14px; margin: 0 0 14px 0;'>Banking & Data Signals</h3>
                <div class='section-content'>"
        ++ safePlaceholder bankingSignals
        ++ tpl "</div>
            </div>

            <div class='cc-card' style='padding: 18px; margin-bottom: 20px;'>
                <h3 class='cc-section-title' style='border-left: 2px solid rgba(255,213,74,.35); padding-left: 14px; margin: 0 0 14px 0;'>Quick Wins (0-30 Days)</h3>
                <div class='section-content'>"
        ++ safePlaceholder quickWins
        ++ tpl "</div>
            </div>

            <div class='cc-card' style='padding: 18px; margin-bottom: 20px;'>
                <h3 class='cc-section-title' style='border-left: 2px solid rgba(255,213,74,.35); padding-left: 14px; margin: 0 0 14px 0;'>Tiered Trade Lines Plan</h3>
                <div class='section-content'>"
        ++ safePlaceholder tradeLinesPlan
        ++ tpl "</div>
            </div>

            "
        ++ vendorsHtml
        ++ tpl "

            <div class='cc-card' style='padding: 18px; margin-bottom: 20px;'>
                <h3 class='cc-section-title' style='border-left: 2px solid rgba(255,213,74,.35); padding-left: 14px; margin: 0 0 14px 0;'>Card Strategy</h3>
                <div class='section-content'>"
        ++ safePlaceholder cardStrategy
        ++ tpl "</div>
            </div>

            "
        ++ cardsHtml
        ++ tpl "

            <div class='cc-card' style='padding: 18px; margin-bottom: 20px;'>
                <h3 class='cc-section-title' style='border-left: 2px solid rgba(255,213,74,.35); padding-left: 14px; margin: 0 0 14px 0;'>30/60/90-Day Action Plan</h3>
                <div class='section-content'>"
        ++ safePlaceholder actionPlan
        ++ tpl "</div>
            </div>

            <div class='cc-card' style='padding: 18px; margin-bottom: 20px;'>
                <h3 class='cc-section-title' style='border-left: 2px solid rgba(255,213,74,.35); padding-left: 14px; margin: 0 0 14px 0;'>Risk Flags & Compliance</h3>
                <div class='section-content'>"
        ++ safePlaceholder riskFlags
        ++ tpl "</div>
            </div>
        ")
  | _, _ => None
  end.

(** *** Live generation and the wrapper of the PDF export *)

(** [this.currentResult] (without [structured.text]). *)
Record current_result : Type := {
  cr_id : jsstring;
  cr_version : jsstring;
  cr_payload : jsval;
  cr_roadmap : jsval;
  cr_html : jsstring;
  cr_createdAt : jsstring;
  cr_checksum : jsstring
}.

(** Live generation, line 1563: [now] is [Date.now()] and [isoNow] is
    [new Date().toISOString()]. *)
Definition generateResult (now : Z) (isoNow : jsstring) (payload generated : jsval)
  : option current_result :=
  match renderStructuredHTML payload generated with
  | Some html =>
      Some {| cr_id := js "r_" ++ decimal now;
              cr_version := js "20241111";
              cr_payload := payload;
              cr_roadmap := generated;
              cr_html := html;
              cr_createdAt := isoNow;
              cr_checksum := checksum html |}
  | None => None
  end.

(** wrapForPdf, line 2032; [stamp] is
    [new Date(r.createdAt).toLocaleString()]. *)
Definition wrapForPdf (stamp innerHTML : jsstring) : jsstring :=
  tpl "
            <div class='pdf-wrapper'>
                <div class='pdf-header'>
                    <div class='brand'>Credit Commander</div>
                    <div class='tiny'>Generated: "
  ++ stamp
  ++ tpl "</div>
                </div>
                "
  ++ innerHTML
  ++ tpl "
                <div class='footer'>
                    Credit Commander "
  ++ [8226]
  ++ tpl " For educational purposes only. Consult a licensed credit professional before taking action.
                </div>
            </div>
        ".

End RenderPipeline.

(* ================================================================== *)
(** ** ReportStore: the compliance_reports table and its routes *)
(* ================================================================== *)

(** The table is a list of rows and the store is taken reachable: a
    statement that fails makes each of these routes answer 500 from its
    [catch], whoever asks. *)

Record report : Type := {
  rep_id : jsstring;
  rep_userId : jsstring;
  rep_ownerId : jsstring;
  rep_toolkitCode : jsstring;
  rep_name : jsstring;
  rep_entityName : jsval;
  rep_entityType : jsval;
  rep_jurisdiction : jsval;
  rep_filingType : jsval;
  rep_deadline : jsval;
  rep_htmlContent : jsstring;
  rep_checksum : jsstring;
  rep_metadata : jsval;
  rep_createdAt : Z
}.

Definition reportJson (r : report) : jsval :=
  JObj [ (js "id", JStr (rep_id r)); (js "name", JStr (rep_name r));
         (js "entityName", rep_entityName r); (js "entityType", rep_entityType r);
         (js "jurisdiction", rep_jurisdiction r); (js "filingType", rep_filingType r);
         (js "deadline", rep_deadline r); (js "htmlContent", JStr (rep_htmlContent r));
         (js "checksum", JStr (rep_checksum r)); (js "metadata", rep_metadata r);
         (js "toolkitCode", JStr (rep_toolkitCode r)); (js "ownerId", JStr (rep_ownerId r));
         (js "userId", JStr (rep_userId r)); (js "createdAt", JNum (rep_createdAt r)) ].

(** The columns selected by the list route. *)
Definition reportSummary (r : report) : jsval :=
  JObj [ (js "id", JStr (rep_id r)); (js "name", JStr (rep_name r));
         (js "entityName", rep_entityName r); (js "entityType", rep_entityType r);
         (js "jurisdiction", rep_jurisdiction r); (js "filingType", rep_filingType r);
         (js "deadline", rep_deadline r); (js "checksum", JStr (rep_checksum r));
         (js "createdAt", JNum (rep_createdAt r)) ].

Definition clientIdRequired : response :=
  {| status := 400; body := errorBody "X-Client-Id header is required" |}.

(** [WHERE id = :id AND user_id = :userId]. *)
Definition ownedWithId (id userId : jsstring) (r : report) : bool :=
  jsstring_eqb (rep_id r) id && jsstring_eqb (rep_userId r) userId.

(** GET /api/reports/:id, part_000:767. *)
Definition getReport (st : list report) (req : request) : response :=
  match getAnonymousUserId req with
  | None => clientIdRequired
  | Some userId =>
      match filter (ownedWithId (reqParamId req) userId) st with
      | [] => {| status := 404; body := errorBody "Report not found." |}
      | report :: _ => {| status := 200; body := reportJson report |}
      end
  end.

(** DELETE /api/reports/:id, part_000:815. *)
Definition deleteReport (st : list report) (req : request) : response * list report :=
  match getAnonymousUserId req with
  | None => (clientIdRequired, st)
  | Some userId =>
      let result := filter (ownedWithId (reqParamId req) userId) st in
      let st' := filter (fun r => negb (ownedWithId (reqParamId req) userId r)) st in
      match result with
      | [] => ({| status := 404; body := errorBody "Report not found or access denied." |}, st')
      | _ :: _ => ({| status := 200; body := JObj [(js "success", JBool true)] |}, st')
      end
  end.

(** The toolkit filter of the list route, with its legacy alias. *)
Definition toolkitFilter (toolkit : jsstring) (r : report) : bool :=
  if jsstring_eqb toolkit (js "creditcommander") then
    jsstring_eqb (rep_toolkitCode r) (js "creditcommander")
    || jsstring_eqb (rep_toolkitCode r) (js "grantgenie")
  else jsstring_eqb (rep_toolkitCode r) toolkit.

(** GET /api/reports/list, part_000:700; newest first. *)
Definition listReports (st : list report) (req : request) : response :=
  match getAnonymousUserId req with
  | None => clientIdRequired
  | Some userId =>
      match reqQueryToolkit req with
      | Some (c :: s) =>
          let toolkit := c :: s in
          let reports :=
            sortByKey (fun r => - rep_createdAt r)
              (filter (fun r => toolkitFilter toolkit r && jsstring_eqb (rep_userId r) userId) st) in
          {| status := 200; body := JArr (map reportSummary reports) |}
      | _ => {| status := 400; body := errorBody "toolkit query parameter is required" |}
      end
  end.

(** POST /api/reports/save, part_000:653.  The request schema and the
    sanitizer are libraries: [parseInsert] is
    [insertComplianceReportSchema.parse] (the error when it throws) and
    [sanitize] is [sanitizeHtml].  The row gets the id [newId] and the
    time [now] from the table's defaults; an id already in the table is
    refused by its primary key. *)
Definition saveReport (parseInsert : jsval -> report + jsval)
  (sanitize : jsstring -> jsstring) (production : bool)
  (newId : jsstring) (now : Z) (st : list report) (req : request)
  : response * list report :=
  match getAnonymousUserId req with
  | None => (clientIdRequired, st)
  | Some userId =>
      let failed (error : jsval) :=
        {| status := 400;
           body := JObj ((js "error",
                          JStr (js (if production
                                    then "Failed to save report. Please try again."
                                    else "Failed to save report. Please check your input.")))
                         :: if production then []
                            else match prop error "message" with
                                 | JUndefined => []
                                 | m => [(js "details", m)]
                                 end) |} in
      match parseInsert (reqBody req) with
      | inr error => (failed error, st)
      | inl reportData =>
          if existsb (fun r => jsstring_eqb (rep_id r) newId) st then (failed storeError, st)
          else
            let savedReport :=
              {| rep_id := newId;
                 rep_userId := userId;
                 rep_ownerId := [];
                 rep_toolkitCode := rep_toolkitCode reportData;
                 rep_name := rep_name reportData;
                 rep_entityName := rep_entityName reportData;
                 rep_entityType := rep_entityType reportData;
                 rep_jurisdiction := rep_jurisdiction reportData;
                 rep_filingType := rep_filingType reportData;
                 rep_deadline := rep_deadline reportData;
                 rep_htmlContent := sanitize (rep_htmlContent reportData);
                 rep_checksum := rep_checksum reportData;
                 rep_metadata := rep_metadata reportData;
                 rep_createdAt := now |} in
            ({| status := 200; body := reportJson savedReport |}, st ++ [savedReport])
      end
  end.

Definition withParamId (req : request) (id : jsstring) : request :=
  {| xForwardedFor := xForwardedFor req;
     xRealIp := xRealIp req;
     remoteAddress := remoteAddress req;
     xClientId := xClientId req;
     reqMethod := reqMethod req;
     reqParamId := id;
     reqQueryToolkit := reqQueryToolkit req;
     reqBody := reqBody req |}.

(** The ids of the reports in the body of a list response. *)
Definition listedIds (resp : response) : list jsval :=
  match body resp with
  | JArr l => map (fun o => prop o "id") l
  | _ => []
  end.

(** The table as its primary key keeps it: no two rows with one id. *)
Definition uniqueIds (st : list report) : Prop := NoDup (map rep_id st).

(** *** The layout of a rendered report *)









(** Two vendors and two cards for the examples. *)
Definition vendorUline : jsval :=
  JObj [ (js "name", JStr (js "Uline")); (js "tier", JStr (js "Starter"));
         (js "approvalOdds", JStr (js "High")) ].

Definition vendorQuill : jsval :=
  JObj [ (js "name", JStr (js "Quill")); (js "tier", JStr (js "Net-30"));
         (js "approvalOdds", JStr (js "Medium")) ].

Definition cardAmex : jsval :=
  JObj [ (js "name", JStr (js "Amex Blue")); (js "applyOrder", JNum 1);
         (js "approvalOdds", JStr (js "High")) ].

Definition cardChase : jsval :=
  JObj [ (js "name", JStr (js "Chase Ink")); (js "applyOrder", JNum 2);
         (js "approvalOdds", JStr (js "Medium")) ].

(** Two cards with the same place in the order of application. *)
Definition cardSpark : jsval :=
  JObj [ (js "name", JStr (js "Capital One Spark")); (js "applyOrder", JNum 3);
         (js "approvalOdds", JStr (js "Low")) ].

Definition cardBrex : jsval :=
  JObj [ (js "name", JStr (js "Brex")); (js "applyOrder", JNum 3);
         (js "approvalOdds", JStr (js "Medium")) ].

(** The elements of a list whose key is [z], in the order of the list. *)
Definition withKey {A} (key : A -> Z) (z : Z) (l : list A) : list A :=
  filter (fun x => key x =? z) l.

Definition optStringEqb (a b : option jsstring) : bool :=
  match a, b with
  | Some x, Some y => jsstring_eqb x y
  | None, None => true
  | _, _ => false
  end.

(* ================================================================== *)
(** ** Further definitions: counters, identity headers, exports *)
(* ================================================================== *)

(* ================================================================== *)
(** ** Counting what the calls in flight report *)
(* ================================================================== *)

(** The number of calls that have returned with success. *)
Definition successes (cs : list call) : Z :=
  Z.of_nat (List.length (filter callSucceeded cs)).

(** At most one row of the table has the key. *)
Definition oneRowPerKey {Key} (key_eqb : Key -> Key -> bool) (k : Key)
  (t : list (usage_row Key)) : Prop :=
  (List.length (filter (matchesKey key_eqb k) t) <= 1)%nat.

(** With a unique key: the rows of the key are at most one, and the
    stored count is the count at the start plus the successes so far. *)
Definition counted {Key} (key_eqb : Key -> Key -> bool) (k : Key) (c0 : Z)
  (cf : config Key) : Prop :=
  oneRowPerKey key_eqb k (table (snd cf))
  /\ storedCount key_eqb k (table (snd cf)) = c0 + successes (fst cf).

(** The rows of the table that are not rows of key [k], in order. *)
Definition otherRows {Key} (key_eqb : Key -> Key -> bool) (k : Key)
  (t : list (usage_row Key)) : list (usage_row Key) :=
  filter (fun r => negb (matchesKey key_eqb k r)) t.

(** *** The identity headers sent by the browser *)

(** getAuthHeaders, api/generate.ts:458.  [auth] is what
    [this.auth.getAuthHeaders()] returns when [window.supabaseAuth] is
    there, [None] in guest mode; [ownerId] is [this.ownerId]. *)
Definition getAuthHeaders (auth : option (list (jsstring * jsstring))) (ownerId : jsstring)
  : list (jsstring * jsstring) :=
  match auth with
  | Some headers => headers
  | None =>
      match ownerId with
      | [] => []
      | _ => [(js "X-Owner-Id", ownerId)]
      end
  end.

(** [req.headers[name]] on the server for the headers that a request was
    sent with: header names arrive in lower case. *)
Definition receivedHeader (name : jsstring) (sent : list (jsstring * jsstring))
  : option jsstring :=
  match filter (fun h => jsstring_eqb (asciiLower (fst h)) name) sent with
  | [] => None
  | h :: _ => Some (snd h)
  end.

(** A row that the list route selects for [userId] and [toolkit]. *)
Definition listedFor (userId toolkit : jsstring) (r : report) : Prop :=
  rep_userId r = userId
  /\ (rep_toolkitCode r = toolkit
      \/ (toolkit = js "creditcommander" /\ rep_toolkitCode r = js "grantgenie")).

(** Rows of the report table for the examples. *)
Definition sampleReport (id user toolkit : string) (createdAt : Z) : report :=
  {| rep_id := js id; rep_userId := js user; rep_ownerId := [];
     rep_toolkitCode := js toolkit; rep_name := js "Acme LLC - LLC";
     rep_entityName := JStr (js "Acme LLC"); rep_entityType := JStr (js "LLC");
     rep_jurisdiction := JStr (js "TX"); rep_filingType := JStr (js "90 days");
     rep_deadline := JStr []; rep_htmlContent := js "<p>Roadmap</p>";
     rep_checksum := js "0002b5c4"; rep_metadata := JStr (js "{}");
     rep_createdAt := createdAt |}.

Definition sampleStore : list report :=
  [ sampleReport "r1" "anon_client-b" "creditcommander" 1;
    sampleReport "r2" "anon_client-a" "creditcommander" 2;
    sampleReport "r3" "anon_client-b" "grantgenie" 3;
    sampleReport "r4" "anon_client-b" "complipilot" 4 ].

(** A digit of lower-case hexadecimal: [0-9a-f]. *)
Definition isLowerHexDigit (c : Z) : Prop := 48 <= c <= 57 \/ 97 <= c <= 102.

(** *** Recommendations that the renderer can take

    What an element of a recommendation list must look like for its card
    to be rendered: not [null], an [approvalOdds] that is absent or a
    string and, for a vendor, a [reportsBureaus] that is an array unless
    it is falsy or has no positive [length]. *)
Definition oddsRenderable (x : jsval) : bool :=
  match prop x "approvalOdds" with
  | JUndefined | JNull | JStr _ => true
  | _ => false
  end.

Definition bureausRenderable (stringGtZero : jsstring -> bool) (x : jsval) : bool :=
  let rb := prop x "reportsBureaus" in
  negb (truthy rb && gtZero stringGtZero (prop rb "length")) || isArray rb.

Definition vendorRenderable (stringGtZero : jsstring -> bool) (v : jsval) : bool :=
  negb (isNullish v) && oddsRenderable v && bureausRenderable stringGtZero v.

Definition cardRenderable (c : jsval) : bool :=
  negb (isNullish c) && oddsRenderable c.

(** Every element of a list passes [ok]; a value that is not an array
    has no elements. *)
Definition everyItem (ok : jsval -> bool) (v : jsval) : bool :=
  match v with JArr items => forallb ok items | _ => true end.

Definition isSome {A} (o : option A) : bool :=
  match o with Some _ => true | None => false end.

(* ================================================================== *)
(** ** POST /api/explain, part_000:552 *)
(* ================================================================== *)

(** sanitizeForPrompt, part_000:568: on a string every double quote,
    line feed and carriage return becomes a space and the result is
    trimmed; anything else goes through [String(str || '')]. *)
Definition promptBreaking (c : Z) : bool := (c =? 34) || (c =? 10) || (c =? 13).

Definition sanitizeForPrompt (str : jsval) : jsstring :=
  match str with
  | JStr s => trim (map (fun c => if promptBreaking c then 32 else c) s)
  | _ => toStr (jsOr str (JStr []))
  end.

(** The [catch] of the route. *)
Definition explainOnError (error : jsval) : response :=
  if strictEqStr (prop error "code") (js "insufficient_quota") then
    {| status := 503;
       body := errorBody "Service temporarily unavailable. Please try again later." |}
  else if strictEqNum (prop error "status") 429 then
    {| status := 429;
       body := errorBody "Too many requests. Please wait a moment and try again." |}
  else
    {| status := 500;
       body := errorBody "Failed to generate explanation. Please try again." |}.

(** Whether [sanitizeForPrompt(str)] returns: it converts what is not a
    string with [String(str || '')]. *)
Definition sanitizeForPromptReturns (str : jsval) : bool :=
  isString str || stringable (jsOr str (JStr [])).

(** Whether the template literal of the prompt, part_000:574, can be
    built from the form data: the business name, the funding goal, the
    target limit and the timeframe go through sanitizeForPrompt, the
    utilization, the trade lines, the FICO score and, further down, the
    timeframe and the target limit are converted as they are.  (The
    roadmap goes through [JSON.stringify], which takes every JSON
    value.) *)
Definition explainPromptBuilds (formData : jsval) : bool :=
  sanitizeForPromptReturns (prop formData "businessName")
  && stringable (prop formData "utilization")
  && stringable (prop formData "tradeLines")
  && stringable (prop formData "ownerFico")
  && sanitizeForPromptReturns (prop formData "fundingGoal")
  && sanitizeForPromptReturns (prop formData "targetLimit")
  && sanitizeForPromptReturns (prop formData "timeframe")
  && stringable (prop formData "timeframe")
  && stringable (prop formData "targetLimit").

(** The route; [gen] is what the generator does with the prompt and
    [explanation] is its parsed answer. *)
Definition explainRoute {Key} (req : request) (gen : gen_outcome)
  (meanwhile : list (usage_row Key) -> list (usage_row Key)) : UDB Key response :=
  if isNullish (reqBody req) then throw typeError else
  let roadmap := prop (reqBody req) "roadmap" in
  let formData := prop (reqBody req) "formData" in
  tryCatch
    (if negb (truthy roadmap) || negb (truthy formData) then
       ret {| status := 400; body := errorBody "Roadmap and form data are required." |}
     else if negb (explainPromptBuilds formData) then throw typeError
     else
       (explanation <- awaitGenerator gen meanwhile ;;
        ret {| status := 200;
               body := JObj [ (js "success", JBool true);
                              (js "explanation", explanation) ] |})%store)
    (fun error => ret (explainOnError error)).

(** A request for an explanation by the client of [sampleRequest], and a
    usage table in which that client has used up its 30 reports. *)
Definition explainRequest : request :=
  {| xForwardedFor := HOne (js "203.0.113.7");
     xRealIp := HAbsent;
     remoteAddress := None;
     xClientId := Some (js "client-b");
     reqMethod := js "POST";
     reqParamId := [];
     reqQueryToolkit := None;
     reqBody := JObj [ (js "roadmap", sampleAnswer); (js "formData", sampleFormData) ] |}.

Definition expressDb30 : usage_db ip_tool :=
  {| table := [{| row_key := raceKey; reportCount := 30 |}]; queries := 0 |}.

(* ================================================================== *)
(** ** setCORS, api/generate.ts:127 *)
(* ================================================================== *)

(** LineTerminator code units: what [.] does not match. *)
Definition isLineTerminator (c : Z) : bool :=
  (c =? 10) || (c =? 13) || (c =? 8232) || (c =? 8233).

(** [.*SUFFIX$] matched at the start of [s], for a literal SUFFIX. *)
Fixpoint dotStarThenEnd (suffix s : jsstring) : bool :=
  jsstring_eqb s suffix
  || match s with
     | [] => false
     | c :: t => negb (isLineTerminator c) && dotStarThenEnd suffix t
     end.

(** [/https:\/\/.*SUFFIX$/.test(s)]: the pattern is not anchored at the
    start, so that a match may begin anywhere in [s]. *)
Fixpoint testHttpsSuffix (suffix s : jsstring) : bool :=
  (isPrefixOf (js "https://") s && dotStarThenEnd suffix (skipn 8 s))
  || match s with
     | [] => false
     | _ :: t => testHttpsSuffix suffix t
     end.

Definition primaryOrigin : jsstring := js "https://credit.yourbizguru.com".

(** [allowedOrigins.some(...)]. *)
Definition originAllowed (origin : jsstring) : bool :=
  jsstring_eqb primaryOrigin origin
  || testHttpsSuffix (js ".vercel.app") origin
  || testHttpsSuffix (js ".replit.dev") origin.

(** The four headers that either branch sets, in order. *)
Definition corsHeaders (allowOrigin : jsstring) : list (jsstring * jsstring) :=
  [ (js "Access-Control-Allow-Origin", allowOrigin);
    (js "Access-Control-Allow-Methods", js "POST, OPTIONS");
    (js "Access-Control-Allow-Headers", js "Content-Type, Authorization");
    (js "Access-Control-Allow-Credentials", js "true") ].

(** setCORS: the headers it sets on the response; [origin] is
    [req.headers.origin]. *)
Definition setCORS (production : bool) (origin : option jsstring)
  : list (jsstring * jsstring) :=
  let isDevelopment := negb production in
  match origin with
  | Some o =>
      if isDevelopment && isPrefixOf (js "http://localhost") o then corsHeaders o
      else
        let allowOrigin := match o with [] => false | _ => originAllowed o end in
        corsHeaders (if allowOrigin && match o with [] => false | _ => true end
                     then o else primaryOrigin)
  | None => corsHeaders primaryOrigin
  end.

(** The value that a list of headers gives to a name. *)
Definition headerValue (name : string) (headers : list (jsstring * jsstring))
  : option jsstring :=
  match filter (fun h => jsstring_eqb (fst h) (js name)) headers with
  | [] => None
  | h :: _ => Some (snd h)
  end.

(** An origin that one of the two patterns of [allowedOrigins] matches:
    anything, then [https://], then a run without line terminator, then
    the suffix at the very end. *)
Definition matchesPattern (suffix origin : jsstring) : Prop :=
  exists before host,
    origin = before ++ js "https://" ++ host ++ suffix
    /\ Forall (fun c => isLineTerminator c = false) host.

(* ================================================================== *)
(** ** getOrCreateOwnerId, api/generate.ts:471 *)
(* ================================================================== *)

Definition uuidTemplate : jsstring := js "xxxxxxxx-xxxx-4xxx-yxxx-xxxxxxxxxxxx".

(** The replacement function: [r] is [Math.random() * 16 | 0]. *)
Definition uuidDigit (c r : Z) : jsstring :=
  let v := if c =? 120 then r else Z.lor (Z.land r 3) 8 in
  toString16 v.

(** [template.replace(/[xy]/g, f)]; the [i]-th call of [Math.random]
    gives [rnd i]. *)
Fixpoint fillUuid (rnd : nat -> Z) (i : nat) (template : jsstring) : jsstring :=
  match template with
  | [] => []
  | c :: rest =>
      if (c =? 120) || (c =? 121) then uuidDigit c (rnd i) ++ fillUuid rnd (S i) rest
      else c :: fillUuid rnd i rest
  end.

(** The id returned and the item 'ybg_owner_id' of localStorage after the
    call; [stored] is the item before it ([None] for [null]). *)
Definition getOrCreateOwnerId (rnd : nat -> Z) (stored : option jsstring)
  : jsstring * option jsstring :=
  match stored with
  | Some (c :: s) => (c :: s, stored)
  | _ => let ownerId := fillUuid rnd 0 uuidTemplate in (ownerId, Some ownerId)
  end.

(** The shape of a version-4 UUID, read off a template: a hexadecimal
    digit for x, one of 8, 9, a, b for y, the template's character
    elsewhere. *)
Definition isLowerHexDigitb (c : Z) : bool :=
  ((48 <=? c) && (c <=? 57)) || ((97 <=? c) && (c <=? 102)).

Fixpoint hasShape (template id : jsstring) : bool :=
  match template, id with
  | [], [] => true
  | c :: t, d :: rest =>
      (if c =? 120 then isLowerHexDigitb d
       else if c =? 121 then (d =? 56) || (d =? 57) || (d =? 97) || (d =? 98)
       else d =? c)
      && hasShape t rest
  | _, _ => false
  end.

(* ================================================================== *)
(** ** buildFileName, api/generate.ts:1796 *)
(* ================================================================== *)

(** The characters that [/[^a-z0-9-_]+/gi] leaves alone. *)
Definition fileSafe (c : Z) : bool :=
  ((97 <=? c) && (c <=? 122)) || ((65 <=? c) && (c <=? 90))
  || ((48 <=? c) && (c <=? 57)) || (c =? 45) || (c =? 95).

(** [s.replace(/[^a-z0-9-_]+/gi, '_')]: every maximal run of other
    characters becomes one underscore. *)
Fixpoint replaceUnsafeRuns (s : jsstring) : jsstring :=
  match s with
  | [] => []
  | c :: t =>
      if fileSafe c then c :: replaceUnsafeRuns t
      else
        match t with
        | c' :: _ => if fileSafe c' then 95 :: replaceUnsafeRuns t else replaceUnsafeRuns t
        | [] => [95]
        end
  end.

(** [safe] of buildFileName. *)
Definition safeName (s : jsval) : jsstring :=
  replaceUnsafeRuns (toStr (jsOr s (JStr []))).

(** [s.padStart(2, '0')]. *)
Definition padStart2 (s : jsstring) : jsstring :=
  repeat 48 (2 - List.length s) ++ s.

(** A date as its local getters show it: [getFullYear()], [getMonth()]
    and [getDate()]; [None] is the invalid date, whose getters give NaN. *)
Definition local_date : Type := option (Z * Z * Z).

Definition yearText (d : local_date) : jsstring :=
  match d with Some (y, _, _) => decimal y | None => js "NaN" end.

Definition monthText (d : local_date) : jsstring :=
  padStart2 (match d with Some (_, m, _) => decimal (m + 1) | None => js "NaN" end).

Definition dayText (d : local_date) : jsstring :=
  padStart2 (match d with Some (_, _, day) => decimal day | None => js "NaN" end).

(** buildFileName; [businessName] is [r?.payload?.businessName] and
    [date] is [new Date(r.createdAt || Date.now())]. *)
Definition buildFileName (businessName : jsval) (date : local_date) : jsstring :=
  let dateStr := yearText date ++ js "-" ++ monthText date ++ js "-" ++ dayText date in
  js "CreditCommander_" ++ safeName businessName ++ js "_" ++ dateStr ++ js ".pdf".

Definition allFileSafe (s : jsstring) : Prop := Forall (fun c => fileSafe c = true) s.

(* ================================================================== *)
(** ** Credit score tracker and funding simulator, api/generate.ts:1188-1329 *)
(* ================================================================== *)

(** The numbers of these functions are the whole numbers that the form
    gives ([parseInt(...) || 0]).  The values that arise from them are
    whole numbers and halves, which the engine's doubles hold and add
    exactly below 2^52: the definitions compute them exactly, and are
    the source's arithmetic for inputs of at most 2^50 in absolute
    value ([moderate]). *)
Definition moderate (n : Z) : Prop := Z.abs n <= 2 ^ 50.


(** [Math.round]: to the nearest integer, halves upwards. *)
Definition mathRound (x : Q) : Z := Qfloor (x + (1 # 2))%Q.

(** [a > b], [a < b] and [a >= b] on numbers. *)
Definition gtb (a b : Z) : bool := b <? a.
Definition geb (a b : Z) : bool := b <=? a.

(** calculateProjectedScore, line 1307. *)
Definition calculateProjectedScore (current utilization tradeLines latePayments days : Z) : Z :=
  let projected := inject_Z current in
  let projected :=
    if gtb utilization 30 && geb days 30
    then (projected + Qmin (inject_Z 15) (inject_Z (utilization - 30) / inject_Z 2))%Q
    else projected in
  let projected :=
    if (tradeLines <? 5) && geb days 60
    then (projected + Qmin (inject_Z 10) (inject_Z ((5 - tradeLines) * 2)))%Q
    else projected in
  let projected :=
    if gtb latePayments 0 && geb days 90
    then (projected + Qmin (inject_Z 15) (inject_Z (latePayments * 5)))%Q
    else projected in
  let projected := (projected + inject_Z days / inject_Z 30)%Q in
  Z.min (mathRound projected) 850.

(** The milestones of generateScoreProjection, line 1290: day and score. *)
Definition scoreMilestones (ownerFico utilization tradeLines latePayments : Z)
  : list (Z * Z) :=
  let currentScore := if ownerFico =? 0 then 650 else ownerFico in
  [ (0, currentScore);
    (30, calculateProjectedScore currentScore utilization tradeLines latePayments 30);
    (60, calculateProjectedScore currentScore utilization tradeLines latePayments 60);
    (90, calculateProjectedScore currentScore utilization tradeLines latePayments 90) ].

(** The projected score before rounding, in sixtieths, on integers. *)
Definition projectedSixtieths (current utilization tradeLines latePayments days : Z) : Z :=
  60 * current
  + (if gtb utilization 30 && geb days 30 then 30 * Z.min 30 (utilization - 30) else 0)
  + (if (tradeLines <? 5) && geb days 60 then 60 * Z.min 10 ((5 - tradeLines) * 2) else 0)
  + (if gtb latePayments 0 && geb days 90 then 60 * Z.min 15 (latePayments * 5) else 0)
  + 2 * days.

(** *** Funding simulator: the qualification of updateFundingEstimate,
    lines 1188-1247 (what precedes the payment estimate) *)

(** [s.replace(/[^0-9]/g, '')]. *)
Definition digitsOnly (s : jsstring) : jsstring :=
  filter (fun c => (48 <=? c) && (c <=? 57)) s.

(** [parseInt] of a string of digits. *)
Definition digitsValue (s : jsstring) : Z :=
  fold_left (fun v c => 10 * v + (c - 48)) s 0.

(** [parseInt(annualRevenue?.replace(/[^0-9]/g, '') || '0')]; [None] is
    the TypeError of calling [replace] on a value that has none. *)
Definition revenueNum (annualRevenue : jsval) : option Z :=
  match annualRevenue with
  | JUndefined | JNull => Some 0
  | JStr s => Some (digitsValue (digitsOnly s))
  | _ => None
  end.

Record qualification : Type := {
  q_score : Z;
  q_factors : list jsstring;
  q_level : jsstring;
  q_levelClass : jsstring;
  q_estRate : jsstring;
  q_estTerm : jsstring;
  q_message : jsstring
}.

Definition fundingQualification (ownerFico utilization tradeLines latePayments : Z)
  (annualRevenue : jsval) : option qualification :=
  let ficoPart :=
    if geb ownerFico 720 then (40, js "Excellent credit score")
    else if geb ownerFico 680 then (30, js "Good credit score")
    else if geb ownerFico 640 then (20, js "Fair credit score")
    else (10, js "Credit score needs improvement") in
  let utilizationPart :=
    if utilization <=? 10 then (20, js "Excellent utilization")
    else if utilization <=? 30 then (15, js "Good utilization")
    else if utilization <=? 50 then (10, js "High utilization")
    else (5, js "Very high utilization") in
  let tradeLinesPart :=
    if geb tradeLines 10 then (20, js "Strong tradeline history")
    else if geb tradeLines 5 then (15, js "Good tradeline mix")
    else if geb tradeLines 3 then (10, js "Building tradelines")
    else (5, js "Limited tradelines") in
  let latePart :=
    if latePayments =? 0 then (10, js "Perfect payment history")
    else if latePayments <=? 2 then (5, js "Recent late payments")
    else (0, js "Multiple late payments") in
  match revenueNum annualRevenue with
  | None => None
  | Some revenue =>
      let revenuePart :=
        if geb revenue 500000 then (10, js "Strong revenue")
        else if geb revenue 250000 then (7, js "Good revenue")
        else if geb revenue 100000 then (5, js "Moderate revenue")
        else (3, js "Limited revenue") in
      let score := fst ficoPart + fst utilizationPart + fst tradeLinesPart
                   + fst latePart + fst revenuePart in
      let factors := [snd ficoPart; snd utilizationPart; snd tradeLinesPart;
                      snd latePart; snd revenuePart] in
      Some (if geb score 75 then
              {| q_score := score; q_factors := factors;
                 q_level := js "High"; q_levelClass := js "success";
                 q_estRate := js "6-9%"; q_estTerm := js "5-7 years";
                 q_message := js "Strong qualification for traditional SBA or bank loans" |}
            else if geb score 50 then
              {| q_score := score; q_factors := factors;
                 q_level := js "Medium"; q_levelClass := js "warning";
                 q_estRate := js "10-15%"; q_estTerm := js "3-5 years";
                 q_message := js "Likely to qualify for alternative lenders or smaller amounts" |}
            else
              {| q_score := score; q_factors := factors;
                 q_level := js "Low"; q_levelClass := js "danger";
                 q_estRate := js "18-30%"; q_estTerm := js "1-3 years";
                 q_message := js "May need collateral, co-signer, or credit improvement first" |})
  end.

(* ================================================================== *)
(** ** Smart alerts and signal badges, api/generate.ts:1411 and 2132 *)
(* ================================================================== *)

Record alert : Type := {
  a_type : jsstring;
  a_icon : jsstring;
  a_title : jsstring;
  a_message : jsstring;
  a_testId : jsstring
}.

(** [if (cond) alerts.push(a)]. *)
Definition pushIf (cond : bool) (a : alert) (alerts : list alert) : list alert :=
  if cond then alerts ++ [a] else alerts.

Section SmartAlerts.

Variable toLowerCase : jsstring -> jsstring.

(** The test on [derogatories] of generateSmartAlerts; [None] is the
    TypeError of calling [toLowerCase] on a value that has none. *)
Definition derogatoriesFound (derogatories : jsval) : option bool :=
  if negb (truthy derogatories) then Some false
  else match derogatories with
       | JStr s =>
           Some (negb (jsstring_eqb (toLowerCase s) (js "none"))
                 && negb (jsstring_eqb (toLowerCase s) (js "none reported")))
       | _ => None
       end.

(** generateSmartAlerts, line 1411: the alerts handed to displayAlerts,
    for the whole numbers of a payload and its [derogatories]. *)
Definition generateSmartAlerts (ownerFico utilization tradeLines latePayments : Z)
  (derogatories : jsval) : option (list alert) :=
  let alerts := [] in
  let alerts :=
    pushIf (gtb latePayments 0)
      {| a_type := js "danger"; a_icon := [9888; 65039];
         a_title := js "Action Required: Late Payments Detected";
         a_message := js "You have " ++ decimal latePayments
                      ++ js " late payment(s). Contact creditors immediately to negotiate payment plans.";
         a_testId := js "alert-late-payments" |} alerts in
  match derogatoriesFound derogatories with
  | None => None
  | Some found =>
      let alerts :=
        pushIf found
          {| a_type := js "danger"; a_icon := [9888; 65039];
             a_title := js "Derogatory Marks Found";
             a_message := js "Derogatories detected: " ++ toStr derogatories
                          ++ js ". Review your credit report and consider disputing inaccuracies.";
             a_testId := js "alert-derogatories" |} alerts in
      let alerts :=
        pushIf (gtb utilization 30)
          {| a_type := js "warning"; a_icon := [9889];
             a_title := js "High Credit Utilization";
             a_message := js "Your " ++ decimal utilization
                          ++ js "% utilization is above the recommended 30%. Pay down balances to improve your score quickly.";
             a_testId := js "alert-utilization" |} alerts in
      let alerts :=
        pushIf (tradeLines <? 5)
          {| a_type := js "warning"; a_icon := [55357; 56522];
             a_title := js "Limited Trade Line Mix";
             a_message := js "You have " ++ decimal tradeLines
                          ++ js " trade lines. Aim for 5+ to build stronger business credit profiles.";
             a_testId := js "alert-tradelines" |} alerts in
      let alerts :=
        pushIf (geb ownerFico 720)
          {| a_type := js "success"; a_icon := [10003];
             a_title := js "Excellent Credit Score";
             a_message := js "Your " ++ decimal ownerFico
                          ++ js " FICO score qualifies you for premium funding options with favorable terms.";
             a_testId := js "alert-excellent-fico" |} alerts in
      let alerts :=
        pushIf ((utilization <=? 10) && geb tradeLines 5 && (latePayments =? 0))
          {| a_type := js "success"; a_icon := [55356; 57263];
             a_title := js "Credit Health Milestone Achieved";
             a_message := js "Excellent profile! You're in the top tier for business credit qualification.";
             a_testId := js "alert-milestone" |} alerts in
      Some alerts
  end.

(** The derogatories badge of updateSignalsBadges, lines 2167-2177: its
    text and its class. *)
Definition derogatoriesBadge (derogatories : jsval) : jsstring * jsstring :=
  let deroRaw := toLowerCase (trim (toStr (jsOr derogatories (JStr [])))) in
  let isClean :=
    match deroRaw with [] => true | _ => false end
    || jsstring_eqb deroRaw (js "none") || jsstring_eqb deroRaw (js "n/a")
    || jsstring_eqb deroRaw (js "na") in
  (if isClean then js "Derogatories: None" else js "Derogatories: Yes",
   if isClean then js "cc-badge--ok" else js "cc-badge--warn").

End SmartAlerts.

(** The test ids of a list of alerts, and whether one of them is shown. *)
Definition shows (alerts : list alert) (testId : string) : Prop :=
  In (js testId) (map a_testId alerts).

(** The types of the alerts come in the order danger, warning, success. *)
Definition inSeverityOrder (alerts : list alert) : Prop :=
  exists d w s, map a_type alerts
                = repeat (js "danger") d ++ repeat (js "warning") w ++ repeat (js "success") s.

(* ================================================================== *)
(** ** The current result in the browser: cache, explain, exports *)
(* ================================================================== *)

(** [v?.name]. *)
Definition optProp (v : jsval) (name : string) : jsval :=
  if isNullish v then JUndefined else prop v name.

(** [JSON.parse(JSON.stringify(v))] on a value that is not [undefined]:
    a property whose value is [undefined] is left out and an element
    that is [undefined] becomes [null]. *)
Fixpoint jsonRoundTrip (v : jsval) : jsval :=
  match v with
  | JArr items =>
      JArr ((fix elems (l : list jsval) : list jsval :=
               match l with
               | [] => []
               | x :: t => (if isUndefined x then JNull else jsonRoundTrip x) :: elems t
               end) items)
  | JObj fields =>
      JObj ((fix props (l : list (jsstring * jsval)) : list (jsstring * jsval) :=
               match l with
               | [] => []
               | (k, x) :: t =>
                   if isUndefined x then props t else (k, jsonRoundTrip x) :: props t
               end) fields)
  | _ => v
  end.

(** The item 'currentResult' of localStorage: absent, a text that is not
    JSON, or the JSON value it parses to. *)
Inductive stored_item : Type :=
| NoItem
| Unparsable
| Parsed (v : jsval).

(** [this.currentResult] as handleGenerate builds it, line 1574; [text]
    is [this.stripHTML(html)]. *)
Definition generatedObject (r : current_result) (text : jsstring) : jsval :=
  JObj [ (js "id", JStr (cr_id r));
         (js "version", JStr (cr_version r));
         (js "payload", cr_payload r);
         (js "roadmap", cr_roadmap r);
         (js "structured", JObj [ (js "html", JStr (cr_html r)); (js "text", JStr text) ]);
         (js "createdAt", JStr (cr_createdAt r));
         (js "checksum", JStr (cr_checksum r)) ].

(** [this.currentResult] as loadReportFromDatabase builds it, line 2667,
    from the report that the server answered; [metadata] is the parsed
    [report.metadata] (the empty object when that fails) and [text] is
    [this.stripHTML(report.htmlContent)]. *)
Definition loadedObject (report metadata : jsval) (text : jsstring) : jsval :=
  JObj [ (js "id", prop report "id");
         (js "payload", metadata);
         (js "structured", JObj [ (js "html", prop report "htmlContent");
                                  (js "text", JStr text) ]);
         (js "createdAt", prop report "createdAt");
         (js "checksum", prop report "checksum") ].

(** saveCurrentResult, line 1631 (the storage takes the write). *)
Definition saveCurrentResult (currentResult : jsval) : stored_item :=
  match currentResult with
  | JUndefined => Unparsable
  | _ => Parsed (jsonRoundTrip currentResult)
  end.

Record restored : Type := {
  rs_current : jsval;
  rs_storage : stored_item;
  rs_panel : option jsval
}.

(** loadCurrentResult, line 1639: [this.currentResult] and the item
    afterwards, and what is put into the results panel if anything;
    [before] is [this.currentResult] before the call. *)
Definition loadCurrentResult (before : jsval) (stored : stored_item) : restored :=
  match stored with
  | NoItem => {| rs_current := before; rs_storage := NoItem; rs_panel := None |}
  | Unparsable => {| rs_current := before; rs_storage := Unparsable; rs_panel := None |}
  | Parsed v =>
      if isNullish v then
        {| rs_current := v; rs_storage := stored; rs_panel := None |}
      else if negb (truthy (prop v "version"))
              || negb (strictEqStr (prop v "version") (js "20241111")) then
        {| rs_current := JNull; rs_storage := NoItem; rs_panel := None |}
      else
        let html := optProp (optProp v "structured") "html" in
        {| rs_current := v; rs_storage := stored;
           rs_panel := if truthy html then Some html else None |}
  end.

(** handleExplainReport, line 680, up to its request. *)
Inductive explain_action : Type :=
| ExplainNothing
| ExplainCached (explanation : jsval)
| ExplainRequest (body : jsval).

Definition handleExplainReport (explanationBodyPresent : bool) (currentResult : jsval)
  : explain_action :=
  if isNullish currentResult || negb (truthy (prop currentResult "roadmap")) then
    ExplainNothing
  else if negb explanationBodyPresent then ExplainNothing
  else if truthy (prop currentResult "explanation") then
    ExplainCached (prop currentResult "explanation")
  else
    ExplainRequest
      (jsonRoundTrip (JObj [ (js "roadmap", prop currentResult "roadmap");
                             (js "formData", prop currentResult "payload") ])).

(** The guards of handleExport (line 1758), handleCopy (2248) and
    handleExportCSV (1913): whether the export goes ahead. *)
Definition pdfExportRuns (currentResult : jsval) : bool :=
  truthy (optProp (optProp currentResult "structured") "html").

Definition copyRuns (currentResult : jsval) : bool :=
  truthy (optProp (optProp currentResult "structured") "text").

Definition csvExportRuns (currentResult : jsval) : bool :=
  truthy (optProp currentResult "response").

(* ================================================================== *)
(** ** CSV export, api/generate.ts:1912-2030 *)
(* ================================================================== *)

(** [s.replace(/P+/g, r)] for a class [P] of code units: every maximal
    run of [P] becomes one [r]. *)
Fixpoint replaceRuns (p : Z -> bool) (r : Z) (s : jsstring) : jsstring :=
  match s with
  | [] => []
  | c :: t =>
      if p c then
        match t with
        | c' :: _ => if p c' then replaceRuns p r t else r :: replaceRuns p r t
        | [] => [r]
        end
      else c :: replaceRuns p r t
  end.

(** cleanTextForCSV, line 2004. *)
Definition cleanTextForCSV (text : jsstring) : jsstring :=
  trim (replaceRuns isWhiteSpace 32 (replaceRuns (fun c => c =? 10) 32 text)).

(** [text.split(/\n+/)]: the pieces between the runs of line feeds, an
    empty piece before a leading run and after a trailing one. *)
Fixpoint splitLinesGo (s : jsstring) (cur : jsstring) (inRun : bool) : list jsstring :=
  match s with
  | [] => [rev cur]
  | c :: t =>
      if c =? 10 then
        if inRun then splitLinesGo t [] true else rev cur :: splitLinesGo t [] true
      else splitLinesGo t (c :: cur) false
  end.

Definition splitLines (text : jsstring) : list jsstring := splitLinesGo text [] false.

(** The class [[\d\.\-\*•]]. *)
Definition bulletChar (c : Z) : bool :=
  ((48 <=? c) && (c <=? 57)) || (c =? 46) || (c =? 45) || (c =? 42) || (c =? 8226).

(** [/^[\d\.\-\*•]+\s*(.+)$/] on a string, as a backtracking matcher:
    [(.+)$], then [\s*(.+)$], then the rest of the class run. *)
Definition restMatches (s : jsstring) : bool :=
  match s with
  | [] => false
  | _ => forallb (fun c => negb (isLineTerminator c)) s
  end.

Fixpoint afterWhiteSpace (s : jsstring) : bool :=
  restMatches s
  || match s with
     | c :: t => isWhiteSpace c && afterWhiteSpace t
     | [] => false
     end.

Fixpoint afterBullets (s : jsstring) : bool :=
  afterWhiteSpace s
  || match s with
     | c :: t => bulletChar c && afterBullets t
     | [] => false
     end.

Definition bulletLine (s : jsstring) : bool :=
  match s with
  | c :: t => bulletChar c && afterBullets t
  | [] => false
  end.

(** [s.replace(/^[\d\.\-\*•]+\s*/, '')] on a string that starts with a
    character of the class. *)
Definition stripBullet (s : jsstring) : jsstring :=
  dropWhile isWhiteSpace (dropWhile bulletChar s).

(** [s.match(/[.!?]$/)]. *)
Definition sentenceEnd (c : Z) : bool := (c =? 46) || (c =? 33) || (c =? 63).

Definition endsSentence (s : jsstring) : bool :=
  match rev s with
  | c :: _ => sentenceEnd c
  | [] => false
  end.

(** [text.match(/[^.!?]+[.!?]+/g)]: the matches in order ([[]] for
    [null]).  [mode] tells whether the scan is before a match (0), in its
    run of other characters (1) or in its run of [.!?] (2). *)
Fixpoint sentencesGo (s : jsstring) (cur : jsstring) (mode : nat) : list jsstring :=
  match s with
  | [] => match mode with 2%nat => [rev cur] | _ => [] end
  | c :: t =>
      match mode with
      | 0%nat => if sentenceEnd c then sentencesGo t [] 0 else sentencesGo t [c] 1
      | 1%nat => if sentenceEnd c then sentencesGo t (c :: cur) 2
                 else sentencesGo t (c :: cur) 1
      | _ => if sentenceEnd c then sentencesGo t (c :: cur) 2
             else rev cur :: sentencesGo t [c] 1
      end
  end.

(** The loop of extractActions over the lines. *)
Fixpoint collectActions (lines : list jsstring) : list jsstring :=
  match lines with
  | [] => []
  | line :: rest =>
      let trimmed := trim line in
      if bulletLine trimmed then trim (stripBullet trimmed) :: collectActions rest
      else if (20 <? Z.of_nat (List.length trimmed)) && endsSentence trimmed
           then trimmed :: collectActions rest
           else collectActions rest
  end.

(** extractActions, line 2008. *)
Definition extractActions (text : jsstring) : list jsstring :=
  let actions := collectActions (splitLines text) in
  match actions, text with
  | [], _ :: _ =>
      let sentences := match sentencesGo text [] 0 with [] => [text] | l => l end in
      firstn 5 (filter (fun s => 10 <? Z.of_nat (List.length s)) (map trim sentences))
  | _, _ => firstn 10 actions
  end.

(** One cell and the whole content: every cell in double quotes with its
    double quotes doubled, cells joined by commas and rows by line
    feeds. *)
Definition quoteCell (cell : jsstring) : jsstring :=
  34 :: flat_map (fun c => if c =? 34 then [34; 34] else [c]) cell ++ [34].

Definition csvContent (rows : list (list jsstring)) : jsstring :=
  joinWith [10] (map (fun row => joinWith [44] (map quoteCell row)) rows).

(** The rows of one section of the report: [None] is the TypeError of
    calling [replace] or [split] on a value that is not a string. *)
Definition wholeSection (title : string) (v : jsval) (priority timeline notes : string)
  : option (list (list jsstring)) :=
  if negb (truthy v) then Some []
  else match v with
       | JStr s => Some [[js title; cleanTextForCSV s; js priority; js timeline; js notes]]
       | _ => None
       end.

Fixpoint numbered (title priority timeline note : string) (idx : Z) (actions : list jsstring)
  : list (list jsstring) :=
  match actions with
  | [] => []
  | action :: rest =>
      [js title; action; js priority; js timeline; js note ++ js " " ++ decimal (idx + 1)]
        :: numbered title priority timeline note (idx + 1) rest
  end.

Definition actionSection (title : string) (v : jsval) (priority timeline note : string)
  : option (list (list jsstring)) :=
  if negb (truthy v) then Some []
  else match v with
       | JStr s => Some (numbered title priority timeline note 0 (extractActions s))
       | _ => None
       end.

Definition csvHeader : list jsstring :=
  [js "Section"; js "Recommendation"; js "Priority"; js "Timeline"; js "Notes"].

(** The rows that handleExportCSV builds from [data]. *)
Definition csvRows (data : jsval) : option (list (list jsstring)) :=
  match wholeSection "Profile Summary" (prop data "profileSummary") "Info" "N/A"
          "Current credit position analysis",
        actionSection "Banking & Data Signals" (prop data "bankingSignals") "High"
          "0-30 days" "Setup",
        actionSection "Quick Wins" (prop data "quickWins") "High" "0-30 days" "Action",
        actionSection "Trade Lines Plan" (prop data "tradeLinesPlan") "Medium"
          "30-60 days" "Vendor tier",
        actionSection "Card Strategy" (prop data "cardStrategy") "Medium" "60-90 days"
          "Card application",
        wholeSection "30/60/90 Action Plan" (prop data "actionPlan") "High" "0-90 days"
          "Complete timeline",
        actionSection "Risk Flags" (prop data "riskFlags") "Critical" "Immediate" "Risk"
  with
  | Some r1, Some r2, Some r3, Some r4, Some r5, Some r6, Some r7 =>
      Some ([csvHeader] ++ r1 ++ r2 ++ r3 ++ r4 ++ r5 ++ r6 ++ r7)
  | _, _, _, _, _, _, _ => None
  end.

Inductive csv_result : Type :=
| CsvError (message : jsstring)
| CsvDownload (content filename : jsstring).

(** handleExportCSV, line 1912; [today] is [new Date()] as its local
    getters show it: year, month index and day. *)
Definition handleExportCSV (today : Z * Z * Z) (currentResult : jsval) : csv_result :=
  if negb (csvExportRuns currentResult) then
    CsvError (js "Please generate a credit roadmap first before exporting CSV.")
  else
    let data := prop currentResult "response" in
    let formData := jsOr (prop currentResult "payload") (JObj []) in
    match csvRows data with
    | None => CsvError (js "Failed to export CSV. Please try again.")
    | Some rows =>
        let dateStr := yearText (Some today) ++ js "-" ++ monthText (Some today)
                       ++ js "-" ++ dayText (Some today) in
        CsvDownload (csvContent rows)
          (js "CreditCommander_" ++ toStr (jsOr (prop formData "businessName") (JStr (js "Roadmap")))
           ++ js "_" ++ dateStr ++ js ".csv")
    end.

(** Reading the content back, as a reader of comma-separated values
    does: a cell is quoted, a doubled quote inside it stands for one
    quote, a comma ends a cell and a line feed ends a row. *)
Inductive csv_state : Type :=
| BetweenCells
| InCell
| AfterQuote.

Fixpoint parseCsvGo (s : jsstring) (st : csv_state) (cell : jsstring)
  (row : list jsstring) (rows : list (list jsstring)) : option (list (list jsstring)) :=
  match s with
  | [] =>
      match st with
      | AfterQuote => Some (rev (rev (rev cell :: row) :: rows))
      | _ => None
      end
  | c :: t =>
      match st with
      | BetweenCells => if c =? 34 then parseCsvGo t InCell [] row rows else None
      | InCell =>
          if c =? 34 then parseCsvGo t AfterQuote cell row rows
          else parseCsvGo t InCell (c :: cell) row rows
      | AfterQuote =>
          if c =? 34 then parseCsvGo t InCell (34 :: cell) row rows
          else if c =? 44 then parseCsvGo t BetweenCells [] (rev cell :: row) rows
          else if c =? 10 then parseCsvGo t BetweenCells [] [] (rev (rev cell :: row) :: rows)
          else None
      end
  end.

Definition parseCsv (content : jsstring) : option (list (list jsstring)) :=
  parseCsvGo content BetweenCells [] [] [].

(** A current result with a response, as handleExportCSV expects it. *)
Definition csvSample : jsval :=
  JObj [ (js "payload", sampleFormData);
         (js "response",
          JObj [ (js "profileSummary", JStr (tpl "Lender said 'not yet', so: build first."));
                 (js "quickWins",
                  JStr (js "1. Pay down the two cards" ++ [10]
                        ++ js "2. Open a Uline account, net-30")) ]) ].

(** [n] concurrent calls in lockstep: every call sends its first
    statement, then every call its second, then every call its third. *)
Definition lockstep (n : nat) : list nat := seq 0 n ++ seq 0 n ++ seq 0 n.

Definition firstReport : increment_result :=
  {| success := true; incr_count := 1; limitReached := false |}.

(** The table holds no row for the key. *)
Definition noRow {Key} (key_eqb : Key -> Key -> bool) (k : Key) (db : usage_db Key) : Prop :=
  filter (matchesKey key_eqb k) (table db) = [].

(** The store after a query that changed no row, and after the insert
    of a first row for [k]. *)
Definition afterQuery {Key} (db : usage_db Key) : usage_db Key :=
  {| table := table db; queries := S (queries db) |}.

Definition afterInsert {Key} (k : Key) (db : usage_db Key) : usage_db Key :=
  {| table := table db ++ [{| row_key := k; reportCount := 1 |}];
     queries := S (queries db) |}.

(* ================================================================== *)
(** ** The rendered report in the page: generation, reload and export *)
(* ================================================================== *)

(** What the page holds of a report: [this.currentResult], the item
    'currentResult' of localStorage, and what was last assigned to the
    results panel. *)
Record page : Type := {
  pg_current : jsval;
  pg_storage : stored_item;
  pg_panel : option jsval
}.

Section Page.

Variable toLowerCase : jsstring -> jsstring.
Variable textToHtml : jsstring -> jsstring.
Variable stringGtZero : jsstring -> bool.

(** handleGenerate from the answer of the backend on, line 1561: the
    report is rendered, put into the panel, and kept with its checksum
    in [this.currentResult] and in localStorage (which takes the write).
    [now] is [Date.now()], [isoNow] is [new Date().toISOString()] and
    [stripHTML] is the text that the DOM gives for the HTML.  When the
    renderer throws, the [catch] shows an error and the page keeps what
    it held. *)
Definition showGenerated (now : Z) (isoNow : jsstring) (stripHTML : jsstring -> jsstring)
  (payload generated : jsval) (pg : page) : page :=
  match generateResult toLowerCase textToHtml stringGtZero now isoNow payload generated with
  | Some r =>
      let current := generatedObject r (stripHTML (cr_html r)) in
      {| pg_current := current;
         pg_storage := saveCurrentResult current;
         pg_panel := Some (JStr (cr_html r)) |}
  | None => pg
  end.

End Page.

(** The page loaded again: the constructor at line 448 starts with no
    current result and an empty panel, localStorage is what the last
    page left, and [init] calls loadCurrentResult. *)
Definition reloadPage (pg : page) : page :=
  let restored := loadCurrentResult JNull (pg_storage pg) in
  {| pg_current := rs_current restored;
     pg_storage := rs_storage restored;
     pg_panel := rs_panel restored |}.

(** handleExport, line 1757: the HTML that is handed to the PDF
    exporter, [None] when the export is refused; [stamp] is
    [new Date(r.createdAt).toLocaleString()]. *)
Definition exportedPdfHtml (stamp : jsstring) (pg : page) : option jsstring :=
  let html := optProp (optProp (pg_current pg) "structured") "html" in
  if truthy html then Some (wrapForPdf stamp (toStr html)) else None.

(** The request of [sampleRequest] with the tool spelt in another way. *)
Definition spelledToolRequest : request :=
  {| xForwardedFor := HOne (js "203.0.113.7");
     xRealIp := HAbsent;
     remoteAddress := None;
     xClientId := Some (js "client-b");
     reqMethod := js "POST";
     reqParamId := js "r1";
     reqQueryToolkit := Some (js "creditcommander");
     reqBody := JObj [ (js "tool", JStr (js " CreditCommander-Pro "));
                       (js "formData", sampleFormData) ] |}.

(* ================================================================== *)
(** * Properties *)
(* ================================================================== *)

Lemma jsstring_eqb_eq a b : jsstring_eqb a b = true <-> a = b.
Proof.
  unfold jsstring_eqb. destruct (list_eq_dec Z.eq_dec a b); split; congruence.
Qed.

(* ------------------------------------------------------------------ *)
(** ** Facts about the 32-bit operators *)
(* ------------------------------------------------------------------ *)

Lemma toInt32_range z : int32 (toInt32 z).
Proof.
  unfold int32, toInt32.
  pose proof (Z.mod_pos_bound (z + 2 ^ 31) (2 ^ 32) ltac:(lia)). lia.
Qed.

Lemma toInt32_id z : int32 z -> toInt32 z = z.
Proof.
  unfold int32, toInt32. intros H.
  rewrite Z.mod_small by lia. lia.
Qed.

Lemma toInt32_congr a b :
  toInt32 a = toInt32 b <-> a mod 2 ^ 32 = b mod 2 ^ 32.
Proof.
  unfold toInt32. split; intros H.
  - assert (E : (a + 2 ^ 31) mod 2 ^ 32 = (b + 2 ^ 31) mod 2 ^ 32) by lia.
    clear H.
    replace a with ((a + 2 ^ 31) + - 2 ^ 31) by lia.
    replace b with ((b + 2 ^ 31) + - 2 ^ 31) by lia.
    rewrite (Z.add_mod (a + 2 ^ 31)), (Z.add_mod (b + 2 ^ 31)) by lia.
    now rewrite E.
  - rewrite (Z.add_mod a), (Z.add_mod b) by lia. now rewrite H.
Qed.

Lemma toInt32_mod z : toInt32 z mod 2 ^ 32 = z mod 2 ^ 32.
Proof.
  apply toInt32_congr. apply toInt32_id, toInt32_range.
Qed.

Lemma int32_lxor a b : int32 a -> int32 b -> int32 (Z.lxor a b).
Proof.
  unfold int32. intros Ha Hb.
  assert (P : forall x y, 0 <= x < 2 ^ 31 -> 0 <= y < 2 ^ 31 ->
                          0 <= Z.lxor x y < 2 ^ 31).
  { intros x y Hx Hy. split; [apply Z.lxor_nonneg; lia|].
    destruct (Z.eq_dec (Z.lxor x y) 0) as [->|N]; [lia|].
    assert (0 < Z.lxor x y) by (assert (0 <= Z.lxor x y) by (apply Z.lxor_nonneg; lia); lia).
    apply Z.log2_lt_pow2; [lia|].
    pose proof (Z.log2_lxor x y ltac:(lia) ltac:(lia)) as L.
    assert (Z.log2 x < 31).
    { destruct (Z.eq_dec x 0) as [->|]; [simpl; lia|].
      apply Z.log2_lt_pow2; lia. }
    assert (Z.log2 y < 31).
    { destruct (Z.eq_dec y 0) as [->|]; [simpl; lia|].
      apply Z.log2_lt_pow2; lia. }
    lia. }
  assert (L : forall x, Z.lnot x = - x - 1) by (intros; unfold Z.lnot; lia).
  destruct (Z_lt_le_dec a 0) as [Na|Pa]; destruct (Z_lt_le_dec b 0) as [Nb|Pb].
  - rewrite <- (Z.lxor_lnot_lnot a b).
    pose proof (P (Z.lnot a) (Z.lnot b)) as Q. rewrite !L in *.
    specialize (Q ltac:(lia) ltac:(lia)). lia.
  - pose proof (P (Z.lnot a) b) as Q. rewrite <- Z.lnot_lxor_l in Q.
    rewrite !L in Q. specialize (Q ltac:(lia) ltac:(lia)). lia.
  - pose proof (P a (Z.lnot b)) as Q. rewrite <- Z.lnot_lxor_r in Q.
    rewrite !L in Q. specialize (Q ltac:(lia) ltac:(lia)). lia.
  - specialize (P a b ltac:(lia) ltac:(lia)). lia.
Qed.

(* ------------------------------------------------------------------ *)
(** ** checksum: the loop is injective in the hash and in the code unit *)
(* ------------------------------------------------------------------ *)

Lemma checksum_step_int32 h c : int32 (checksum_step h c).
Proof.
  unfold checksum_step, js_xor. apply int32_lxor; apply toInt32_range.
Qed.

Lemma checksum_step_mod h :
  (js_shl h 5 + h) mod 2 ^ 32 = (33 * h) mod 2 ^ 32.
Proof.
  unfold js_shl. change (5 mod 32) with 5.
  rewrite Z.add_mod by lia. rewrite toInt32_mod.
  rewrite Z.shiftl_mul_pow2 by lia.
  rewrite Z.mul_mod by lia. rewrite toInt32_mod.
  rewrite <- Z.mul_mod by lia. rewrite <- Z.add_mod by lia.
  f_equal. lia.
Qed.

Lemma mul33_inj_mod a b :
  (33 * a) mod 2 ^ 32 = (33 * b) mod 2 ^ 32 -> a mod 2 ^ 32 = b mod 2 ^ 32.
Proof.
  intros H.
  assert (E : forall x, x mod 2 ^ 32 = (1041204193 * ((33 * x) mod 2 ^ 32)) mod 2 ^ 32).
  { intros x. rewrite Z.mul_mod_idemp_r by lia.
    replace (1041204193 * (33 * x)) with (x + (8 * x) * 2 ^ 32) by lia.
    now rewrite Z.mod_add by lia. }
  rewrite (E a), (E b). now rewrite H.
Qed.

Lemma int32_mod_inj a b :
  int32 a -> int32 b -> a mod 2 ^ 32 = b mod 2 ^ 32 -> a = b.
Proof.
  intros Ha Hb H. apply toInt32_congr in H.
  now rewrite !toInt32_id in H.
Qed.

Lemma lxor_cancel_r a b c : Z.lxor a c = Z.lxor b c -> a = b.
Proof.
  intros H.
  assert (K : forall x, Z.lxor (Z.lxor x c) c = x).
  { intros x. now rewrite Z.lxor_assoc, Z.lxor_nilpotent, Z.lxor_0_r. }
  now rewrite <- (K a), H, K.
Qed.

Lemma lxor_cancel_l a b c : Z.lxor c a = Z.lxor c b -> a = b.
Proof.
  rewrite !(Z.lxor_comm c). apply lxor_cancel_r.
Qed.

Lemma checksum_step_inj_hash h1 h2 c :
  int32 h1 -> int32 h2 -> checksum_step h1 c = checksum_step h2 c -> h1 = h2.
Proof.
  unfold checksum_step, js_xor. intros H1 H2 E.
  apply lxor_cancel_r in E. apply toInt32_congr in E.
  rewrite !checksum_step_mod in E.
  apply int32_mod_inj; auto using mul33_inj_mod.
Qed.

Lemma code_unit_int32 c : is_code_unit c -> int32 c.
Proof. unfold is_code_unit, int32. lia. Qed.

Lemma checksum_step_inj_char h c1 c2 :
  is_code_unit c1 -> is_code_unit c2 ->
  checksum_step h c1 = checksum_step h c2 -> c1 = c2.
Proof.
  unfold checksum_step, js_xor. intros H1 H2 E.
  apply lxor_cancel_l in E.
  now rewrite !toInt32_id in E by now apply code_unit_int32.
Qed.

Lemma fold_checksum_int32 s h : int32 h -> int32 (fold_left checksum_step s h).
Proof.
  revert h. induction s as [|c s IH]; intros h Hh; simpl; auto.
  apply IH, checksum_step_int32.
Qed.

Lemma fold_checksum_inj s h1 h2 :
  int32 h1 -> int32 h2 ->
  fold_left checksum_step s h1 = fold_left checksum_step s h2 -> h1 = h2.
Proof.
  revert h1 h2. induction s as [|c s IH]; intros h1 h2 H1 H2 E; simpl in E; auto.
  apply IH in E; auto using checksum_step_int32.
  eapply checksum_step_inj_hash; eauto.
Qed.

Lemma checksum_hash_int32 s : int32 (checksum_hash s).
Proof. apply fold_checksum_int32. unfold int32. lia. Qed.

Lemma checksum_hash_replaceAt s i c h :
  int32 h -> (i < List.length s)%nat ->
  is_code_unit c -> is_code_unit (nth i s 0) -> c <> nth i s 0 ->
  fold_left checksum_step (replaceAt i c s) h <> fold_left checksum_step s h.
Proof.
  revert i h. induction s as [|x s IH]; intros i h Hh Hi Hc Hx Hne; simpl in Hi; [lia|].
  destruct i as [|i]; simpl in *.
  - intros E. apply fold_checksum_inj in E; auto using checksum_step_int32.
    apply checksum_step_inj_char in E; auto.
  - apply IH; auto using checksum_step_int32. lia.
Qed.

(* ------------------------------------------------------------------ *)
(** ** checksum: the eight hexadecimal digits determine the hash *)
(* ------------------------------------------------------------------ *)

Lemma hexValue_fold s v :
  fold_left (fun v c => 16 * v + hexDigitValue c) s v
  = v * 16 ^ Z.of_nat (List.length s) + hexValue s.
Proof.
  unfold hexValue. revert v. induction s as [|c s IH]; intros v.
  - simpl. lia.
  - cbn [fold_left List.length]. rewrite IH, (IH (16 * 0 + _)).
    rewrite Nat2Z.inj_succ, Z.pow_succ_r by lia. lia.
Qed.

Lemma hexValue_app a b :
  hexValue (a ++ b) = hexValue a * 16 ^ Z.of_nat (List.length b) + hexValue b.
Proof.
  unfold hexValue at 1. rewrite fold_left_app. fold (hexValue a).
  apply hexValue_fold.
Qed.

Lemma hexDigit_value d : 0 <= d < 16 -> hexDigitValue (hexDigit d) = d.
Proof.
  intros H. unfold hexDigit, hexDigitValue.
  destruct (Z.ltb_spec d 10).
  - destruct (Z.ltb_spec (48 + d) 58); lia.
  - destruct (Z.ltb_spec (87 + d) 58); lia.
Qed.

Lemma toHexAux_spec fuel : forall n acc,
  0 <= n < 16 ^ Z.of_nat fuel ->
  exists d, toHexAux fuel n acc = d ++ acc /\ hexValue d = n /\
            forall k, n < 16 ^ k -> 1 <= k -> Z.of_nat (List.length d) <= k.
Proof.
  induction fuel as [|f IH]; intros n acc Hn.
  - exists []. simpl in *. repeat split; try lia. unfold hexValue. simpl. lia.
  - cbn [toHexAux]. rewrite Nat2Z.inj_succ, Z.pow_succ_r in Hn by lia.
    pose proof (Z.mod_pos_bound n 16 ltac:(lia)) as Hm.
    pose proof (Z.div_mod n 16 ltac:(lia)) as Hd.
    destruct (Z.eqb_spec (n / 16) 0) as [E|E].
    + exists [hexDigit (n mod 16)]. repeat split.
      * unfold hexValue. simpl. rewrite hexDigit_value by lia. lia.
      * intros k _ Hk. simpl. lia.
    + assert (Hq : 0 <= n / 16 < 16 ^ Z.of_nat f).
      { split; [apply Z.div_pos; lia|]. apply Z.div_lt_upper_bound; lia. }
      destruct (IH (n / 16) (hexDigit (n mod 16) :: acc) Hq) as (d & Ed & Vd & Ld).
      exists (d ++ [hexDigit (n mod 16)]). repeat split.
      * rewrite Ed, <- app_assoc. reflexivity.
      * rewrite hexValue_app, Vd. unfold hexValue at 1. simpl.
        rewrite hexDigit_value by lia. lia.
      * intros k Hk Hk1. rewrite length_app. simpl.
        assert (0 < n / 16) by (destruct Hq; lia).
        assert (2 <= k).
        { destruct (Z.eq_dec k 1) as [->|]; [|lia]. simpl in Hk. lia. }
        specialize (Ld (k - 1)).
        replace k with (Z.succ (k - 1)) in Hk by lia.
        rewrite Z.pow_succ_r in Hk by lia.
        assert (n / 16 < 16 ^ (k - 1)) by (apply Z.div_lt_upper_bound; lia).
        lia.
Qed.

Lemma toString16_spec n :
  0 <= n ->
  exists d, toString16 n = d /\ hexValue d = n /\
            forall k, n < 16 ^ k -> 1 <= k -> Z.of_nat (List.length d) <= k.
Proof.
  intros Hn. unfold toString16.
  destruct (toHexAux_spec (S (Z.to_nat (Z.log2 n))) n []) as (d & E & V & L).
  - split; [lia|].
    destruct (Z.eq_dec n 0) as [->|N]; [simpl; lia|].
    pose proof (Z.log2_nonneg n).
    rewrite Nat2Z.inj_succ, Z2Nat.id by lia.
    pose proof (Z.log2_spec n ltac:(lia)) as [_ Hs].
    eapply Z.lt_le_trans; [exact Hs|].
    apply Z.pow_le_mono_l. lia.
  - exists d. rewrite app_nil_r in E. auto.
Qed.

Lemma hexValue_zeros s : Forall (eq 48) s -> hexValue s = 0.
Proof.
  induction 1 as [|c s <- _ IH].
  - reflexivity.
  - change (48 :: s) with ([48] ++ s). rewrite hexValue_app, IH.
    unfold hexValue. simpl. lia.
Qed.

Lemma checksum_format_value u :
  0 <= u < 2 ^ 32 ->
  hexValue (sliceLast 8 (js "00000000" ++ toString16 u)) = u.
Proof.
  intros Hu. destruct (toString16_spec u ltac:(lia)) as (d & -> & V & L).
  specialize (L 8 ltac:(simpl; lia) ltac:(lia)).
  unfold sliceLast. rewrite length_app, skipn_app.
  change (List.length (js "00000000")) with 8%nat.
  replace (8 + List.length d - 8 - 8)%nat with 0%nat by lia.
  replace (8 + List.length d - 8)%nat with (List.length d) by lia.
  cbn [skipn]. rewrite hexValue_app, V.
  rewrite hexValue_zeros; [lia|].
  assert (Z8 : Forall (eq 48) (js "00000000")) by (repeat constructor).
  rewrite <- (firstn_skipn (List.length d) (js "00000000")) in Z8.
  apply Forall_app in Z8. apply Z8.
Qed.

Lemma checksum_determines_hash s1 s2 :
  checksum s1 = checksum s2 -> checksum_hash s1 = checksum_hash s2.
Proof.
  unfold checksum, js_ushr0, toUint32. intros E.
  apply (f_equal hexValue) in E.
  rewrite !checksum_format_value in E by (apply Z.mod_pos_bound; lia).
  apply int32_mod_inj; auto using checksum_hash_int32.
Qed.

(** C5. Replacing the code unit at one position of a string by a different
    code unit changes the digest that [checksum] returns. *)
Theorem checksum_single_char_change (s : jsstring) (i : nat) (c : Z) :
  Forall is_code_unit s -> is_code_unit c ->
  (i < List.length s)%nat -> c <> nth i s 0 ->
  checksum (replaceAt i c s) <> checksum s.
Proof.
  intros Hs Hc Hi Hne E. apply checksum_determines_hash in E.
  revert E. apply checksum_hash_replaceAt; auto.
  - unfold int32. lia.
  - rewrite Forall_forall in Hs. apply Hs, nth_In, Hi.
Qed.

Lemma checksum_single_char_change_witness :
  checksum (replaceAt 1 (Z.of_nat 98) (js "<p>")) <> checksum (js "<p>").
Proof.
  apply checksum_single_char_change.
  - repeat constructor; unfold is_code_unit; simpl; lia.
  - unfold is_code_unit; simpl; lia.
  - simpl; lia.
  - simpl; lia.
Defined.

(* ------------------------------------------------------------------ *)
(** ** UsageGovernor *)
(* ------------------------------------------------------------------ *)

Lemma jsstring_eqb_refl a : jsstring_eqb a a = true.
Proof. now apply jsstring_eqb_eq. Qed.

Lemma ip_tool_eqb_eq a b : ip_tool_eqb a b = true <-> a = b.
Proof.
  unfold ip_tool_eqb. destruct a as [a1 a2], b as [b1 b2]. simpl.
  rewrite andb_true_iff, !jsstring_eqb_eq. split.
  - intros [-> ->]. reflexivity.
  - intros E. inversion E. auto.
Qed.

Section UsageGovernorFacts.

Variable Key : Type.
Variable key_eqb : Key -> Key -> bool.
Hypothesis key_eqb_eq : forall a b, key_eqb a b = true <-> a = b.
Variable unique_key : bool.
Variable outage : nat -> bool.

Abbreviation checkUsageLimit' := (checkUsageLimit key_eqb outage).
Abbreviation incrementUsage' := (incrementUsage key_eqb unique_key outage).
Abbreviation stepCall' := (stepCall key_eqb unique_key outage).

(** *** The calls in flight are the code of incrementUsage *)

Abbreviation stepsCall' := (stepsCall key_eqb unique_key outage).

Lemma stepsCall_Returned k n r db : stepsCall' k n (Returned r) db = (Returned r, db).
Proof. induction n; simpl; auto. Qed.

Lemma incrementUsage_steps ip k db :
  jsstring_eqb ip unknownIp = false ->
  exists r db', stepsCall' k 3 AtUpdate db = (Returned r, db') /\
                incrementUsage' ip k db = (Ok r, db').
Proof.
  intros Hip. unfold incrementUsage, tryCatch, bind. rewrite Hip.
  cbn [stepsCall stepCall].
  destruct (dbUpdate key_eqb outage k db) as [[[|r1 u]|e1] db1] eqn:E1;
    cbn [stepsCall stepCall];
    [| eexists _, _; split; reflexivity ..].
  destruct (dbSelect key_eqb outage k db1) as [[[|r2 u2]|e2] db2] eqn:E2;
    cbn [stepsCall stepCall];
    [| eexists _, _; split; reflexivity ..].
  destruct (dbInsert key_eqb unique_key outage k db2) as [[[|r3 u3]|e3] db3] eqn:E3;
    eexists _, _; split; reflexivity.
Qed.

(** *** The counts stay between 0 and 30 *)

Lemma sqlUpdate_range k t :
  countsInRange t -> countsInRange (snd (sqlUpdate key_eqb k t)).
Proof.
  unfold countsInRange, sqlUpdate. simpl. intros H.
  apply Forall_map. eapply Forall_impl; [|exact H].
  intros r Hr. simpl in Hr. unfold belowLimit.
  destruct (matchesKey key_eqb k r); simpl; [|lia].
  destruct (Z.ltb_spec (reportCount r) 30); simpl; lia.
Qed.

Lemma sqlInsert_range k t a t' :
  countsInRange t -> sqlInsert key_eqb unique_key k t = Ok (a, t') -> countsInRange t'.
Proof.
  unfold countsInRange, sqlInsert. intros H E.
  destruct (unique_key && existsb (matchesKey key_eqb k) t); [discriminate|].
  inversion E; subst. apply Forall_app. split; auto.
  constructor; [simpl; lia | constructor].
Qed.

Lemma query_range {A} (stmt : list (usage_row Key) -> outcome (A * list (usage_row Key))) db :
  (forall a t', stmt (table db) = Ok (a, t') -> countsInRange t') ->
  countsInRange (table db) ->
  countsInRange (table (snd (query outage stmt db))).
Proof.
  intros Hs H. unfold query.
  destruct (outage (queries db)); simpl; auto.
  destruct (stmt (table db)) as [[a t']|e] eqn:E; simpl; eauto.
Qed.

Lemma dbUpdate_range k db :
  countsInRange (table db) ->
  countsInRange (table (snd (dbUpdate key_eqb outage k db))).
Proof.
  intros H. apply query_range; auto.
  intros a t' E. inversion E. now apply sqlUpdate_range.
Qed.

Lemma dbSelect_range k db :
  countsInRange (table db) ->
  countsInRange (table (snd (dbSelect key_eqb outage k db))).
Proof.
  intros H. apply query_range; auto.
  intros a t' E. inversion E. now subst.
Qed.

Lemma dbInsert_range k db :
  countsInRange (table db) ->
  countsInRange (table (snd (dbInsert key_eqb unique_key outage k db))).
Proof.
  intros H. apply query_range; auto.
  intros a t'. now apply sqlInsert_range.
Qed.

Lemma stepCall_range k c db :
  countsInRange (table db) -> countsInRange (table (snd (stepCall' k c db))).
Proof.
  intros H. destruct c; cbn [stepCall]; auto.
  - pose proof (dbUpdate_range k db H) as R.
    destruct (dbUpdate key_eqb outage k db) as [[[|? ?]|?] ?]; exact R.
  - pose proof (dbSelect_range k db H) as R.
    destruct (dbSelect key_eqb outage k db) as [[[|? ?]|?] ?]; exact R.
  - pose proof (dbInsert_range k db H) as R.
    destruct (dbInsert key_eqb unique_key outage k db) as [[[|? ?]|?] ?]; exact R.
Qed.

Lemma stepNth_range k i cs db :
  countsInRange (table db) ->
  countsInRange (table (snd (stepNth key_eqb unique_key outage k i cs db))).
Proof.
  revert i. induction cs as [|c cs IH]; intros i H; simpl; auto.
  destruct i as [|i].
  - pose proof (stepCall_range k c db H).
    destruct (stepCall' k c db); auto.
  - specialize (IH i H).
    destruct (stepNth key_eqb unique_key outage k i cs db); auto.
Qed.

(** Every interleaving of the statements of any number of calls keeps
    every stored count between 0 and 30. *)
Lemma runSchedule_range k sched cf :
  countsInRange (table (snd cf)) ->
  countsInRange (table (snd (runSchedule key_eqb unique_key outage k sched cf))).
Proof.
  revert cf. induction sched as [|i sched IH]; intros cf H; simpl; auto.
  apply IH. now apply stepNth_range.
Qed.

Lemma stepsCall_range k n c db :
  countsInRange (table db) -> countsInRange (table (snd (stepsCall' k n c db))).
Proof.
  revert c db. induction n as [|n IH]; intros c db H; simpl; auto.
  pose proof (stepCall_range k c db H).
  destruct (stepCall' k c db). now apply IH.
Qed.

Lemma incrementUsage_range ip k db :
  countsInRange (table db) -> countsInRange (table (snd (incrementUsage' ip k db))).
Proof.
  intros H. destruct (jsstring_eqb ip unknownIp) eqn:Hip.
  - unfold incrementUsage, tryCatch. rewrite Hip. exact H.
  - destruct (incrementUsage_steps ip k db Hip) as (r & db' & E1 & E2).
    rewrite E2. pose proof (stepsCall_range k 3 AtUpdate db H) as R.
    now rewrite E1 in R.
Qed.

Lemma checkUsageLimit_table ip k db :
  table (snd (checkUsageLimit' ip k db)) = table db.
Proof.
  unfold checkUsageLimit, tryCatch, bind, dbSelect, query, ret.
  destruct (jsstring_eqb ip unknownIp); [reflexivity|].
  destruct (outage (queries db)); [reflexivity|]. simpl.
  destruct (match sqlSelect key_eqb k (table db) with
            | [] => 0 | r :: _ => reportCount r end >=? 30); reflexivity.
Qed.

End UsageGovernorFacts.

Lemma filter_andb {A} (m b : A -> bool) t :
  filter (fun r => m r && b r) t = filter b (filter m t).
Proof.
  induction t as [|x t IH]; simpl; auto.
  destruct (m x); simpl; [destruct (b x)|]; auto. now rewrite IH.
Qed.

Lemma filter_map_comm {A} (m : A -> bool) (f : A -> A) t :
  (forall x, m (f x) = m x) -> filter m (map f t) = map f (filter m t).
Proof.
  intros H. induction t as [|x t IH]; simpl; auto.
  rewrite H. destruct (m x); simpl; now rewrite IH.
Qed.

Lemma filter_nil_existsb {A} (m : A -> bool) t :
  filter m t = [] -> existsb m t = false.
Proof.
  induction t as [|x t IH]; simpl; auto.
  destruct (m x); [discriminate|]. auto.
Qed.

Lemma map_cond_id {A} (p : A -> bool) (f : A -> A) t :
  filter p t = [] -> map (fun r => if p r then f r else r) t = t.
Proof.
  induction t as [|x t IH]; simpl; auto.
  destruct (p x); [discriminate|]. intros H. now rewrite IH.
Qed.

Lemma expectedResults_successes n : forall c,
  0 <= c <= 30 ->
  Z.of_nat (List.length (filter success (expectedResults c n)))
  = Z.min (Z.of_nat n) (30 - c).
Proof.
  induction n as [|n IH]; intros c Hc.
  - cbn [expectedResults filter List.length]. lia.
  - cbn [expectedResults]. destruct (Z.ltb_spec c 30).
    + cbn [filter success List.length]. rewrite Nat2Z.inj_succ, IH by lia. lia.
    + cbn [filter success]. rewrite IH by lia. lia.
Qed.

Lemma expectedResults_others n : forall c,
  Forall (fun r => success r = false -> limitReached r = true) (expectedResults c n).
Proof.
  induction n as [|n IH]; intros c; cbn [expectedResults]; [constructor|].
  destruct (c <? 30); constructor; simpl; auto; discriminate.
Qed.

Section SequentialCalls.

Variable Key : Type.
Variable key_eqb : Key -> Key -> bool.
Hypothesis key_eqb_eq : forall a b, key_eqb a b = true <-> a = b.
Variable unique_key : bool.
Variable outage : nat -> bool.
Hypothesis store_up : forall n, outage n = false.

Lemma key_eqb_refl k : key_eqb k k = true.
Proof. now apply key_eqb_eq. Qed.

Lemma storedCount_holds k c t :
  holdsCount key_eqb k c t -> storedCount key_eqb k t = c.
Proof.
  unfold storedCount, sqlSelect.
  intros [[-> ->]|[_ (r & -> & <-)]]; reflexivity.
Qed.

Lemma dbUpdate_up k t q :
  dbUpdate key_eqb outage k {| table := t; queries := q |}
  = (Ok (fst (sqlUpdate key_eqb k t)),
     {| table := snd (sqlUpdate key_eqb k t); queries := S q |}).
Proof. unfold dbUpdate, query. cbn [queries table]. now rewrite store_up. Qed.

Lemma dbSelect_up k t q :
  dbSelect key_eqb outage k {| table := t; queries := q |}
  = (Ok (sqlSelect key_eqb k t), {| table := t; queries := S q |}).
Proof. unfold dbSelect, query. cbn [queries table]. now rewrite store_up. Qed.

Lemma dbInsert_up k t q :
  existsb (matchesKey key_eqb k) t = false ->
  dbInsert key_eqb unique_key outage k {| table := t; queries := q |}
  = (Ok [{| row_key := k; reportCount := 1 |}],
     {| table := t ++ [{| row_key := k; reportCount := 1 |}]; queries := S q |}).
Proof.
  intros H. unfold dbInsert, query, sqlInsert. cbn [queries table].
  now rewrite store_up, H, andb_false_r.
Qed.

Lemma sqlUpdate_none k t :
  filter (fun x => matchesKey key_eqb k x && belowLimit x) t = [] ->
  sqlUpdate key_eqb k t = ([], t).
Proof.
  intros F. unfold sqlUpdate. rewrite F. cbn [map].
  now rewrite map_cond_id.
Qed.

Lemma incrementUsage_first ip k t q :
  jsstring_eqb ip unknownIp = false ->
  filter (matchesKey key_eqb k) t = [] ->
  incrementUsage key_eqb unique_key outage ip k {| table := t; queries := q |}
  = (Ok {| success := true; incr_count := 1; limitReached := false |},
     {| table := t ++ [{| row_key := k; reportCount := 1 |}]; queries := S (S (S q)) |}).
Proof.
  intros Hip Hf.
  unfold incrementUsage, tryCatch, bind. rewrite Hip.
  rewrite dbUpdate_up, sqlUpdate_none by (now rewrite filter_andb, Hf).
  cbn [fst snd]. rewrite dbSelect_up. unfold sqlSelect. rewrite Hf. cbn [firstn].
  rewrite dbInsert_up by (now apply filter_nil_existsb). reflexivity.
Qed.

Lemma incrementUsage_below ip k t q r :
  jsstring_eqb ip unknownIp = false ->
  filter (matchesKey key_eqb k) t = [r] -> reportCount r < 30 ->
  exists t',
    incrementUsage key_eqb unique_key outage ip k {| table := t; queries := q |}
    = (Ok {| success := true; incr_count := reportCount r + 1; limitReached := false |},
       {| table := t'; queries := S q |})
    /\ filter (matchesKey key_eqb k) t' = [bump r].
Proof.
  intros Hip Hf Hlt.
  assert (B : belowLimit r = true) by (unfold belowLimit; apply Z.ltb_lt; lia).
  assert (M : matchesKey key_eqb k r = true).
  { assert (I : In r (filter (matchesKey key_eqb k) t)) by (rewrite Hf; now left).
    now apply filter_In in I. }
  unfold incrementUsage, tryCatch, bind. rewrite Hip, dbUpdate_up.
  unfold sqlUpdate. cbn [fst snd]. rewrite filter_andb, Hf. cbn [filter].
  rewrite B. cbn [map]. eexists. split; [reflexivity|].
  rewrite filter_map_comm.
  - rewrite Hf. cbn [map]. now rewrite M, B.
  - intros x. destruct (matchesKey key_eqb k x && belowLimit x); reflexivity.
Qed.

Lemma incrementUsage_at_limit ip k t q r :
  jsstring_eqb ip unknownIp = false ->
  filter (matchesKey key_eqb k) t = [r] -> 30 <= reportCount r ->
  incrementUsage key_eqb unique_key outage ip k {| table := t; queries := q |}
  = (Ok {| success := false; incr_count := reportCount r; limitReached := true |},
     {| table := t; queries := S (S q) |}).
Proof.
  intros Hip Hf Hge.
  assert (B : belowLimit r = false) by (unfold belowLimit; apply Z.ltb_ge; lia).
  unfold incrementUsage, tryCatch, bind. rewrite Hip, dbUpdate_up.
  rewrite sqlUpdate_none by (rewrite filter_andb, Hf; cbn [filter]; now rewrite B).
  cbn [fst snd]. rewrite dbSelect_up. unfold sqlSelect. rewrite Hf. reflexivity.
Qed.

(** [n] calls made one after the other from a stored count [c] give the
    expected results and leave the count at [min (c + n) 30]. *)
Lemma runSequential_from ip k n : forall c db,
  jsstring_eqb ip unknownIp = false ->
  holdsCount key_eqb k c (table db) ->
  fst (runSequential key_eqb unique_key outage ip k n db) = map Ok (expectedResults c n)
  /\ holdsCount key_eqb k (Z.min (c + Z.of_nat n) 30)
       (table (snd (runSequential key_eqb unique_key outage ip k n db))).
Proof.
  induction n as [|n IH]; intros c [t q] Hip Hc.
  - simpl. split; auto.
    replace (Z.min (c + 0) 30) with c; auto.
    destruct Hc as [[-> _]|[? _]]; lia.
  - cbn [runSequential expectedResults]. rewrite Nat2Z.inj_succ.
    cbn [table] in Hc. destruct Hc as [[-> Hf]|[Hr (r & Hf & Hcnt)]].
    + rewrite (incrementUsage_first ip k t q Hip Hf).
      change (0 <? 30) with true. cbn iota.
      specialize (IH (0 + 1) {| table := t ++ [{| row_key := k; reportCount := 1 |}];
                                queries := S (S (S q)) |} Hip).
      destruct (runSequential key_eqb unique_key outage ip k n _) as [rs db''].
      cbn [fst snd] in *.
      destruct IH as [E H].
      { right. split; [lia|]. exists {| row_key := k; reportCount := 1 |}.
        split; [|reflexivity].
        cbn [table]. rewrite filter_app, Hf. cbn [filter app].
        unfold matchesKey at 1. cbn [row_key]. now rewrite key_eqb_refl. }
      rewrite E. split; [reflexivity|].
      replace (0 + Z.succ (Z.of_nat n)) with (0 + 1 + Z.of_nat n) by lia. exact H.
    + destruct (Z.ltb_spec c 30) as [Hlt|Hge].
      * destruct (incrementUsage_below ip k t q r Hip Hf ltac:(lia)) as (t' & E1 & Hf').
        rewrite E1.
        specialize (IH (c + 1) {| table := t'; queries := S q |} Hip).
        destruct (runSequential key_eqb unique_key outage ip k n _) as [rs db''].
        cbn [fst snd] in *.
        destruct IH as [E H].
        { right. split; [lia|]. exists (bump r). split; [exact Hf'|]. simpl. lia. }
        rewrite E, Hcnt. split; [reflexivity|].
        replace (c + Z.succ (Z.of_nat n)) with (c + 1 + Z.of_nat n) by lia. exact H.
      * rewrite (incrementUsage_at_limit ip k t q r Hip Hf ltac:(lia)).
        specialize (IH c {| table := t; queries := S (S q) |} Hip).
        destruct (runSequential key_eqb unique_key outage ip k n _) as [rs db''].
        cbn [fst snd] in *.
        destruct IH as [E H].
        { right. split; [lia|]. exists r. auto. }
        rewrite E, Hcnt. split; [reflexivity|].
        replace (Z.min (c + Z.succ (Z.of_nat n)) 30) with (Z.min (c + Z.of_nat n) 30) by lia.
        exact H.
Qed.

(** Calls one after the other on a fresh counter: the stored count ends
    at [min n 30], [min n 30] calls report success and every other call
    reports [limitReached]. *)
Lemma sequential_increments ip k n db :
  jsstring_eqb ip unknownIp = false ->
  filter (matchesKey key_eqb k) (table db) = [] ->
  exists rs,
    fst (runSequential key_eqb unique_key outage ip k n db) = map Ok rs /\
    storedCount key_eqb k (table (snd (runSequential key_eqb unique_key outage ip k n db)))
    = Z.min (Z.of_nat n) 30 /\
    Z.of_nat (List.length (filter success rs)) = Z.min (Z.of_nat n) 30 /\
    Forall (fun r => success r = false -> limitReached r = true) rs.
Proof.
  intros Hip Hf.
  destruct (runSequential_from ip k n 0 db Hip) as [E H]; [left; auto|].
  exists (expectedResults 0 n). repeat split; auto.
  - apply storedCount_holds in H. rewrite H. lia.
  - rewrite expectedResults_successes by lia. lia.
  - apply expectedResults_others.
Qed.

End SequentialCalls.

(** C1. Two calls of incrementUsage on a fresh counter whose statements
    alternate (update, update, select, select, insert, insert) both run to
    their end and leave a stored count of 1, not min(2, 30) = 2; when the
    key is unique the second insert throws and only one call reports
    success. *)
Theorem increment_first_use_race (unique_key : bool) :
  let cf := runSchedule ip_tool_eqb unique_key (fun _ => false) raceKey raceSchedule raceStart in
  forallb isReturned (fst cf) = true /\
  storedCount ip_tool_eqb raceKey (table (snd cf)) = 1 /\
  Z.min 2 30 = 2 /\
  (unique_key = true ->
   fst cf = [Returned {| success := true; incr_count := 1; limitReached := false |};
             Returned failClosed]) /\
  (unique_key = false ->
   table (snd cf) = [{| row_key := raceKey; reportCount := 1 |};
                     {| row_key := raceKey; reportCount := 1 |}]).
Proof.
  destruct unique_key; vm_compute; repeat split; intros; try reflexivity; discriminate.
Qed.

Section StoreFailure.

Variable Key : Type.
Variable key_eqb : Key -> Key -> bool.
Variable unique_key : bool.
Variable outage : nat -> bool.

Ltac no_outage :=
  match goal with
  | H : exists j, _ |- _ =>
      let j := fresh "j" in
      let R := fresh "R" in
      let O := fresh "O" in
      destruct H as (j & R & O); cbn [snd queries] in R;
      repeat match goal with
        | E : outage ?q = false |- _ =>
            assert (j <> q) by (intros ->; congruence); clear E
        end; lia
  end.

(** C9. When a query of the call finds the store unreachable,
    checkUsageLimit answers allowed with count 0 and incrementUsage
    answers success=false with limitReached=true. *)
Theorem store_failure_policy (ip : jsstring) (k : Key) (db : usage_db Key) :
  (storeThrew outage (checkUsageLimit key_eqb outage ip k) db ->
   fst (checkUsageLimit key_eqb outage ip k db) = Ok failOpen) /\
  (storeThrew outage (incrementUsage key_eqb unique_key outage ip k) db ->
   fst (incrementUsage key_eqb unique_key outage ip k db) = Ok failClosed).
Proof.
  unfold storeThrew. split.
  - unfold checkUsageLimit, tryCatch, bind, dbSelect, query, ret.
    destruct (jsstring_eqb ip unknownIp); [intros H; no_outage|].
    destruct (outage (queries db)) eqn:O1; [reflexivity|].
    cbn [fst snd].
    destruct (_ >=? 30); intros H; no_outage.
  - unfold incrementUsage, tryCatch, bind, dbUpdate, dbSelect, dbInsert, query, ret, throw.
    destruct (jsstring_eqb ip unknownIp); [intros H; no_outage|].
    destruct (outage (queries db)) eqn:O1; [reflexivity|].
    destruct (sqlUpdate key_eqb k (table db)) as [[|r u] t1]; cbn [fst snd queries table];
      [|intros H; no_outage].
    destruct (outage (S (queries db))) eqn:O2; [reflexivity|].
    destruct (sqlSelect key_eqb k t1) as [|r2 u2]; cbn [fst snd queries table];
      [|intros H; no_outage].
    destruct (outage (S (S (queries db)))) eqn:O3; [reflexivity|].
    destruct (sqlInsert key_eqb unique_key k t1) as [[[|r3 u3] t3]|e3];
      cbn [fst snd queries table]; try reflexivity.
    intros H; no_outage.
Qed.

End StoreFailure.

Lemma store_failure_policy_witness :
  fst (checkUsageLimit ip_tool_eqb (fun _ => true) (js "203.0.113.7") raceKey
         {| table := []; queries := 0 |}) = Ok failOpen /\
  fst (incrementUsage ip_tool_eqb true (fun _ => true) (js "203.0.113.7") raceKey
         {| table := []; queries := 0 |}) = Ok failClosed.
Proof.
  destruct (store_failure_policy ip_tool ip_tool_eqb true (fun _ => true)
              (js "203.0.113.7") raceKey {| table := []; queries := 0 |}) as [C I].
  split; [apply C | apply I]; exists 0%nat; vm_compute; repeat split; auto.
Defined.

(* ------------------------------------------------------------------ *)
(** ** GenerationOrchestrator *)
(* ------------------------------------------------------------------ *)

Section CheckAndIncrement.

Variable Key : Type.
Variable key_eqb : Key -> Key -> bool.
Hypothesis key_eqb_eq : forall a b, key_eqb a b = true <-> a = b.
Variable unique_key : bool.
Variable outage : nat -> bool.

Lemma checkUsageLimit_returns ip k db :
  exists uc db', checkUsageLimit key_eqb outage ip k db = (Ok uc, db')
                 /\ table db' = table db
                 /\ (allowed uc = true -> queries db' = S (queries db)).
Proof.
  unfold checkUsageLimit, tryCatch, bind, dbSelect, query, ret.
  destruct (jsstring_eqb ip unknownIp).
  { eexists _, _. repeat split; simpl; discriminate. }
  destruct (outage (queries db)).
  { eexists _, _. repeat split. }
  destruct (_ >=? 30); eexists _, _; repeat split; simpl; discriminate.
Qed.

Lemma incrementUsage_returns ip k db :
  exists ir db', incrementUsage key_eqb unique_key outage ip k db = (Ok ir, db')
                 /\ success ir = negb (limitReached ir).
Proof.
  unfold incrementUsage, tryCatch, bind, ret, throw.
  destruct (jsstring_eqb ip unknownIp); [eexists _, _; split; reflexivity|].
  destruct (dbUpdate key_eqb outage k db) as [[[|r1 u]|e1] db1];
    [| eexists _, _; split; reflexivity ..].
  destruct (dbSelect key_eqb outage k db1) as [[[|r2 u2]|e2] db2];
    [| eexists _, _; split; reflexivity ..].
  destruct (dbInsert key_eqb unique_key outage k db2) as [[[|r3 u3]|e3] db3];
    eexists _, _; split; reflexivity.
Qed.

(** A row of the table after a statement of a call is a row of the
    table before it or a row of the key of the call. *)
Lemma dbUpdate_rows k db r :
  In r (table (snd (dbUpdate key_eqb outage k db))) -> In r (table db) \/ row_key r = k.
Proof.
  unfold dbUpdate, query, sqlUpdate. destruct (outage (queries db)); cbn [snd table]; auto.
  intros H. apply in_map_iff in H. destruct H as (r0 & <- & H).
  destruct (matchesKey key_eqb k r0) eqn:M; cbn [andb]; auto.
  destruct (belowLimit r0); auto. right. simpl. now apply key_eqb_eq.
Qed.

Lemma dbSelect_rows k db :
  table (snd (dbSelect key_eqb outage k db)) = table db.
Proof.
  unfold dbSelect, query. destruct (outage (queries db)); reflexivity.
Qed.

Lemma dbInsert_rows k db r :
  In r (table (snd (dbInsert key_eqb unique_key outage k db))) ->
  In r (table db) \/ row_key r = k.
Proof.
  unfold dbInsert, query, sqlInsert. destruct (outage (queries db)); cbn [snd table]; auto.
  destruct (unique_key && existsb (matchesKey key_eqb k) (table db)); cbn [snd table]; auto.
  intros H. apply in_app_iff in H. destruct H as [H|[<-|[]]]; auto.
Qed.

Lemma stepCall_rows k c db r :
  In r (table (snd (stepCall key_eqb unique_key outage k c db))) ->
  In r (table db) \/ row_key r = k.
Proof.
  destruct c; cbn [stepCall]; auto.
  - pose proof (dbUpdate_rows k db r) as R.
    destruct (dbUpdate key_eqb outage k db) as [[[|? ?]|?] ?]; exact R.
  - pose proof (dbSelect_rows k db) as R.
    destruct (dbSelect key_eqb outage k db) as [[[|? ?]|?] ?]; cbn [snd] in *;
      rewrite R; auto.
  - pose proof (dbInsert_rows k db r) as R.
    destruct (dbInsert key_eqb unique_key outage k db) as [[[|? ?]|?] ?]; exact R.
Qed.

Lemma incrementUsage_rows ip k db r :
  In r (table (snd (incrementUsage key_eqb unique_key outage ip k db))) ->
  In r (table db) \/ row_key r = k.
Proof.
  destruct (jsstring_eqb ip unknownIp) eqn:Hip.
  - unfold incrementUsage, tryCatch. rewrite Hip. auto.
  - destruct (incrementUsage_steps Key key_eqb unique_key outage ip k db Hip)
      as (ir & db' & E1 & E2).
    rewrite E2. cbn [snd]. cbn [stepsCall] in E1.
    destruct (stepCall key_eqb unique_key outage k AtUpdate db) as [c1 d1] eqn:S1.
    destruct (stepCall key_eqb unique_key outage k c1 d1) as [c2 d2] eqn:S2.
    destruct (stepCall key_eqb unique_key outage k c2 d2) as [c3 d3] eqn:S3.
    inversion E1; subst. intros H.
    pose proof (stepCall_rows k c2 d2 r) as R3. rewrite S3 in R3.
    pose proof (stepCall_rows k c1 d1 r) as R2. rewrite S2 in R2.
    pose proof (stepCall_rows k AtUpdate db r) as R1. rewrite S1 in R1.
    cbn [snd] in *. intuition.
Qed.

End CheckAndIncrement.

Section OrchestratorFacts.

Variable toLowerCase : jsstring -> jsstring.
Variable unique_key : bool.
Variable outage : nat -> bool.
Variable production : bool.
Variable openaiKeySet : bool.

Abbreviation expressGenerate' := (expressGenerate toLowerCase unique_key outage).
Abbreviation vercelGenerate' := (vercelGenerate unique_key outage production openaiKeySet).
Abbreviation expressCalls := (expressCallsGenerator toLowerCase outage).
Abbreviation vercelCalls := (vercelCallsGenerator outage openaiKeySet).
Abbreviation normalizeTool' := (normalizeTool toLowerCase).

Lemma expressOnError_status error :
  In (status (expressOnError error)) [500; 503; 429; 401].
Proof.
  unfold expressOnError.
  destruct (strictEqStr _ _); [simpl; auto|].
  destruct (strictEqNum _ 429); [simpl; auto|].
  destruct (strictEqNum _ 401); simpl; auto.
Qed.

(** What [expressCallsGenerator] says, spelled out. *)
Lemma expressCalls_inv req db :
  expressCalls req db = true ->
  exists uc db1,
    checkUsageLimit ip_tool_eqb outage (getClientIp req)
      (getClientIp req, normalizeTool' (prop (reqBody req) "tool")) db = (Ok uc, db1)
    /\ table db1 = table db /\ queries db1 = S (queries db)
    /\ isNullish (reqBody req) = false /\ allowed uc = true
    /\ truthy (prop (reqBody req) "formData") = true
    /\ expressInvalid (prop (reqBody req) "formData") = false.
Proof.
  unfold expressCallsGenerator. intros H.
  destruct (checkUsageLimit_returns ip_tool ip_tool_eqb outage (getClientIp req)
              (getClientIp req, normalizeTool' (prop (reqBody req) "tool")) db)
    as (uc & db1 & E & T & Q).
  rewrite E in H. cbn [fst] in H.
  rewrite !andb_true_iff, !negb_true_iff in H.
  destruct H as [[[N A] F] V].
  exists uc, db1. repeat split; auto.
Qed.

Lemma vercelCalls_inv req db :
  vercelCalls req db = true ->
  exists uc db1,
    checkUsageLimit jsstring_eqb outage (getClientIp req) (getClientIp req) db = (Ok uc, db1)
    /\ table db1 = table db /\ queries db1 = S (queries db)
    /\ jsstring_eqb (reqMethod req) (js "POST") = true
    /\ jsstring_eqb (reqMethod req) (js "OPTIONS") = false
    /\ isNullish (reqBody req) = false /\ allowed uc = true
    /\ truthy (prop (reqBody req) "formData") = true
    /\ vercelInvalid (prop (reqBody req) "formData") = false
    /\ openaiKeySet = true.
Proof.
  unfold vercelCallsGenerator. intros H.
  destruct (checkUsageLimit_returns jsstring jsstring_eqb outage (getClientIp req)
              (getClientIp req) db) as (uc & db1 & E & T & Q).
  rewrite E in H. cbn [fst] in H.
  rewrite !andb_true_iff, !negb_true_iff in H.
  destruct H as [P [[[[A N] F] V] K]].
  exists uc, db1. repeat split; auto.
  apply jsstring_eqb_eq in P. rewrite P. reflexivity.
Qed.

(** C3. When the generator is called and fails, the request writes
    nothing to the usage table (after it the table holds what other
    requests wrote meanwhile), only the query of the check was sent, and
    the handler answers with an error status among 500, 503, 429, 401. *)
Theorem failed_generation_no_charge (req : request) (e : list (jsstring * jsval))
  (mE : list (usage_row ip_tool) -> list (usage_row ip_tool))
  (mV : list (usage_row jsstring) -> list (usage_row jsstring))
  (dbE : usage_db ip_tool) (dbV : usage_db jsstring) :
  (expressCalls req dbE = true ->
   exists r db',
     expressGenerate' req (GenThrows e) mE dbE = (Ok r, db')
     /\ table db' = mE (table dbE) /\ queries db' = S (queries dbE)
     /\ r = expressOnError (JObj e) /\ In (status r) [500; 503; 429; 401])
  /\
  (vercelCalls req dbV = true ->
   exists r db',
     vercelGenerate' req (GenThrows e) mV dbV = (Ok r, db')
     /\ table db' = mV (table dbV) /\ queries db' = S (queries dbV)
     /\ r = vercelInnerError production (JObj e) /\ In (status r) [500; 503; 429; 401]).
Proof.
  split; intros H.
  - destruct (expressCalls_inv req dbE H) as (uc & db1 & E & T & Q & N & A & F & V).
    unfold expressGenerate, bind, tryCatch, awaitGenerator, ret.
    rewrite N, E, A, F, V. cbn [negb].
    eexists _, _. split; [reflexivity|]. cbn [table queries].
    rewrite T, Q. repeat split. apply expressOnError_status.
  - destruct (vercelCalls_inv req dbV H)
      as (uc & db1 & E & T & Q & P & O & N & A & F & V & K).
    unfold vercelGenerate. rewrite O, P. cbn [negb].
    unfold bind, tryCatch, awaitGenerator, ret.
    rewrite E, A, N, F, V, K. cbn [negb].
    eexists _, _. split; [reflexivity|]. cbn [table queries].
    rewrite T, Q. repeat split. simpl. auto.
Qed.

Lemma expressQuotaBody_shape toolName count tool :
  keysOf (expressQuotaBody toolName count tool)
  = [js "error"; js "limitReached"; js "count"; js "limit"; js "tool"]
  /\ prop (expressQuotaBody toolName count tool) "limitReached" = JBool true
  /\ prop (expressQuotaBody toolName count tool) "count" = JNum count
  /\ prop (expressQuotaBody toolName count tool) "limit" = JNum 30
  /\ prop (expressQuotaBody toolName count tool) "tool" = JStr tool.
Proof. repeat split. Qed.

Lemma vercelQuotaBody_shape count :
  keysOf (vercelQuotaBody count)
  = [js "error"; js "limitReached"; js "count"; js "limit"]
  /\ prop (vercelQuotaBody count) "limitReached" = JBool true
  /\ prop (vercelQuotaBody count) "count" = JNum count
  /\ prop (vercelQuotaBody count) "limit" = JNum 30.
Proof. repeat split. Qed.

(** C4, amended. When the generator answers and the increment that
    follows reports limitReached, each handler drops the roadmap and
    answers 429 with the body it also uses when the check blocks the
    request before generation: error, limitReached: true, count,
    limit: 30 and, in the Express route only, tool. *)
Theorem lost_race_quota_response (req : request) (ai : jsval)
  (mE : list (usage_row ip_tool) -> list (usage_row ip_tool))
  (mV : list (usage_row jsstring) -> list (usage_row jsstring))
  (dbE : usage_db ip_tool) (dbV : usage_db jsstring) :
  let ip := getClientIp req in
  let tool := normalizeTool' (prop (reqBody req) "tool") in
  (forall ir,
      expressCalls req dbE = true -> isNullish ai = false ->
      fst (incrementUsage ip_tool_eqb unique_key outage ip (ip, tool)
             {| table := mE (table dbE); queries := S (queries dbE) |}) = Ok ir ->
      limitReached ir = true ->
      fst (expressGenerate' req (GenReturns ai) mE dbE)
      = Ok {| status := 429;
              body := expressQuotaBody (expressToolName tool) (incr_count ir) tool |})
  /\
  (forall uc gen,
      isNullish (reqBody req) = false ->
      fst (checkUsageLimit ip_tool_eqb outage ip (ip, tool) dbE) = Ok uc ->
      allowed uc = false ->
      fst (expressGenerate' req gen mE dbE)
      = Ok {| status := 429;
              body := expressQuotaBody (expressToolName tool) (check_count uc) tool |})
  /\
  (forall ir,
      vercelCalls req dbV = true -> isNullish ai = false ->
      fst (incrementUsage jsstring_eqb unique_key outage ip ip
             {| table := mV (table dbV); queries := S (queries dbV) |}) = Ok ir ->
      limitReached ir = true ->
      fst (vercelGenerate' req (GenReturns ai) mV dbV)
      = Ok {| status := 429; body := vercelQuotaBody (incr_count ir) |})
  /\
  (forall uc gen,
      jsstring_eqb (reqMethod req) (js "POST") = true ->
      fst (checkUsageLimit jsstring_eqb outage ip ip dbV) = Ok uc ->
      allowed uc = false ->
      fst (vercelGenerate' req gen mV dbV)
      = Ok {| status := 429; body := vercelQuotaBody (check_count uc) |})
  /\
  (forall toolName count,
      (keysOf (expressQuotaBody toolName count tool)
       = [js "error"; js "limitReached"; js "count"; js "limit"; js "tool"]
       /\ prop (expressQuotaBody toolName count tool) "limitReached" = JBool true
       /\ prop (expressQuotaBody toolName count tool) "count" = JNum count
       /\ prop (expressQuotaBody toolName count tool) "limit" = JNum 30
       /\ prop (expressQuotaBody toolName count tool) "tool" = JStr tool)
      /\
      (keysOf (vercelQuotaBody count)
       = [js "error"; js "limitReached"; js "count"; js "limit"]
       /\ prop (vercelQuotaBody count) "limitReached" = JBool true
       /\ prop (vercelQuotaBody count) "count" = JNum count
       /\ prop (vercelQuotaBody count) "limit" = JNum 30)).
Proof.
  intros ip tool. repeat apply conj.
  - intros ir H N I L.
    destruct (expressCalls_inv req dbE H) as (uc & db1 & E & T & Q & N' & A & F & V).
    unfold expressGenerate, bind, tryCatch, awaitGenerator, ret.
    rewrite N', E, A, F, V. cbn [negb]. rewrite N. rewrite T, Q.
    fold ip. fold tool.
    destruct (incrementUsage_returns ip_tool ip_tool_eqb unique_key outage ip (ip, tool)
                {| table := mE (table dbE); queries := S (queries dbE) |})
      as (ir' & db' & E' & S').
    rewrite E' in I |- *. cbn [fst] in I. inversion I; subst ir'.
    rewrite S', L. reflexivity.
  - intros uc gen N E A.
    unfold expressGenerate, bind. rewrite N. fold ip. fold tool.
    destruct (checkUsageLimit ip_tool_eqb outage ip (ip, tool) dbE) as [o db1].
    cbn [fst] in E. subst o. rewrite A. reflexivity.
  - intros ir H N I L.
    destruct (vercelCalls_inv req dbV H)
      as (uc & db1 & E & T & Q & P & O & N' & A & F & V & K).
    unfold vercelGenerate. rewrite O, P. cbn [negb].
    unfold bind, tryCatch, awaitGenerator, ret.
    rewrite E, A, N', F, V, K. cbn [negb]. rewrite N. rewrite T, Q. fold ip.
    destruct (incrementUsage_returns jsstring jsstring_eqb unique_key outage ip ip
                {| table := mV (table dbV); queries := S (queries dbV) |})
      as (ir' & db' & E' & S').
    rewrite E' in I |- *. cbn [fst] in I. inversion I; subst ir'.
    rewrite S', L. reflexivity.
  - intros uc gen P E A.
    assert (O : jsstring_eqb (reqMethod req) (js "OPTIONS") = false).
    { apply jsstring_eqb_eq in P. rewrite P. reflexivity. }
    unfold vercelGenerate. rewrite O, P. cbn [negb]. unfold bind. fold ip.
    destruct (checkUsageLimit jsstring_eqb outage ip ip dbV) as [o db1].
    cbn [fst] in E. subst o. rewrite A. reflexivity.
  - intros toolName count.
    split; [apply expressQuotaBody_shape | apply vercelQuotaBody_shape].
Qed.

Lemma normalizeTool_cases tool :
  normalizeTool' tool = creditcommander \/ normalizeTool' tool = complipilot.
Proof.
  unfold normalizeTool. destruct (jsstring_eqb _ complipilot); auto.
Qed.

End OrchestratorFacts.

Lemma failed_generation_no_charge_witness :
  (exists r db',
      expressGenerate asciiLower true (fun _ => false) sampleRequest
        (GenThrows [(js "status", JNum 429)]) (fun t => t) expressDb29 = (Ok r, db')
      /\ table db' = table expressDb29 /\ queries db' = 1%nat
      /\ r = expressOnError (JObj [(js "status", JNum 429)])
      /\ In (status r) [500; 503; 429; 401])
  /\
  (exists r db',
      vercelGenerate true (fun _ => false) true true sampleRequest
        (GenThrows [(js "status", JNum 429)]) (fun t => t) vercelDb29 = (Ok r, db')
      /\ table db' = table vercelDb29 /\ queries db' = 1%nat
      /\ r = vercelInnerError true (JObj [(js "status", JNum 429)])
      /\ In (status r) [500; 503; 429; 401]).
Proof.
  destruct (failed_generation_no_charge asciiLower true (fun _ => false) true true
              sampleRequest [(js "status", JNum 429)] (fun t => t) (fun t => t)
              expressDb29 vercelDb29) as [E V].
  split; [apply E | apply V]; vm_compute; reflexivity.
Defined.

(** The serverless handler that loses the race answers 429 with a body
    that has no tool field. *)
Lemma quota_response_serverless_omits_tool :
  exists r,
    fst (vercelGenerate true (fun _ => false) true true sampleRequest
           (GenReturns sampleAnswer) otherRequestWins vercelDb29) = Ok r
    /\ status r = 429
    /\ keysOf (body r) = [js "error"; js "limitReached"; js "count"; js "limit"]
    /\ ~ In (js "tool") (keysOf (body r)).
Proof.
  eexists. split; [vm_compute; reflexivity|].
  repeat split. vm_compute. intuition discriminate.
Qed.

Lemma lost_race_quota_response_witness :
  fst (expressGenerate asciiLower true (fun _ => false) sampleRequest
         (GenReturns sampleAnswer) otherRequestWins expressDb29)
  = Ok {| status := 429;
          body := expressQuotaBody (js "Credit Commander") 30 (js "creditcommander") |}
  /\
  fst (vercelGenerate true (fun _ => false) true true sampleRequest
         (GenReturns sampleAnswer) otherRequestWins vercelDb29)
  = Ok {| status := 429; body := vercelQuotaBody 30 |}.
Proof.
  destruct (lost_race_quota_response asciiLower true (fun _ => false) true true
              sampleRequest sampleAnswer otherRequestWins otherRequestWins
              expressDb29 vercelDb29) as (E & _ & V & _ & _).
  split.
  - apply (E {| success := false; incr_count := 30; limitReached := true |});
      vm_compute; reflexivity.
  - apply (V {| success := false; incr_count := 30; limitReached := true |});
      vm_compute; reflexivity.
Defined.

(* ------------------------------------------------------------------ *)
(** ** ReportStore *)
(* ------------------------------------------------------------------ *)

Lemma insertByKey_In {A} (key : A -> Z) x y l :
  In y (insertByKey key x l) <-> y = x \/ In y l.
Proof.
  induction l as [|z l IH]; simpl.
  - intuition.
  - destruct (key x <=? key z); simpl; [intuition|]. rewrite IH. intuition.
Qed.

Lemma sortByKey_In {A} (key : A -> Z) y l : In y (sortByKey key l) <-> In y l.
Proof.
  induction l as [|x l IH]; simpl; [tauto|].
  rewrite insertByKey_In, IH. intuition.
Qed.

Lemma NoDup_map_eq {A B} (f : A -> B) l x y :
  NoDup (map f l) -> In x l -> In y l -> f x = f y -> x = y.
Proof.
  induction l as [|z l IH]; simpl; [tauto|].
  intros N Hx Hy E. inversion N as [|? ? Nz Nl]; subst.
  destruct Hx as [->|Hx], Hy as [->|Hy]; auto.
  - exfalso. apply Nz. rewrite E. now apply in_map.
  - exfalso. apply Nz. rewrite <- E. now apply in_map.
Qed.

Lemma filter_all {A} (p : A -> bool) l :
  (forall x, In x l -> p x = true) -> filter p l = l.
Proof.
  induction l as [|x l IH]; simpl; auto.
  intros H. rewrite (H x) by auto. f_equal. apply IH. auto.
Qed.

Lemma filter_none {A} (p : A -> bool) l :
  (forall x, In x l -> p x = false) -> filter p l = [].
Proof.
  induction l as [|x l IH]; simpl; auto.
  intros H. rewrite (H x) by auto. apply IH. auto.
Qed.

Lemma getAnonymousUserId_some req b :
  xClientId req = Some b -> b <> [] ->
  getAnonymousUserId req = Some (js "anon_" ++ b).
Proof.
  unfold getAnonymousUserId. intros -> H. destruct b; congruence.
Qed.

(** No row with the id of [r] belongs to another user. *)
Lemma not_owned_by_other st r id u :
  uniqueIds st -> In r st -> id = rep_id r -> u <> rep_userId r ->
  forall x, In x st -> ownedWithId id u x = false.
Proof.
  intros N Hr -> Hu x Hx. unfold ownedWithId.
  destruct (jsstring_eqb (rep_id x) (rep_id r)) eqn:E1; auto.
  destruct (jsstring_eqb (rep_userId x) u) eqn:E2; auto.
  apply jsstring_eqb_eq in E1, E2.
  assert (x = r) by (eapply NoDup_map_eq; eauto). subst. congruence.
Qed.

Lemma not_owned_absent st id u :
  ~ In id (map rep_id st) -> forall x, In x st -> ownedWithId id u x = false.
Proof.
  intros N x Hx. unfold ownedWithId.
  destruct (jsstring_eqb (rep_id x) id) eqn:E; auto.
  apply jsstring_eqb_eq in E. exfalso. apply N. rewrite <- E. now apply in_map.
Qed.

(** C7. A report of the store that belongs to identity A is not among
    the reports listed for another identity B, and B's get and delete of
    its id answer 404 and leave the store as it is, exactly as they do
    for an id that is in no row. *)
Theorem ownership_isolation (st : list report) (r : report) (reqB : request)
  (a b : jsstring) :
  uniqueIds st -> In r st -> rep_userId r = js "anon_" ++ a ->
  xClientId reqB = Some b -> b <> [] -> a <> b ->
  ~ In (JStr (rep_id r)) (listedIds (listReports st reqB))
  /\ getReport st (withParamId reqB (rep_id r))
     = {| status := 404; body := errorBody "Report not found." |}
  /\ deleteReport st (withParamId reqB (rep_id r))
     = ({| status := 404; body := errorBody "Report not found or access denied." |}, st)
  /\ forall id', ~ In id' (map rep_id st) ->
       getReport st (withParamId reqB id') = getReport st (withParamId reqB (rep_id r))
       /\ deleteReport st (withParamId reqB id')
          = deleteReport st (withParamId reqB (rep_id r)).
Proof.
  intros N Hr Ha Hb Hne Hab.
  assert (U : js "anon_" ++ b <> rep_userId r).
  { rewrite Ha. intros E. apply app_inv_head in E. congruence. }
  pose proof (not_owned_by_other st r (rep_id r) (js "anon_" ++ b) N Hr eq_refl U) as O.
  assert (G : forall id, (forall x, In x st -> ownedWithId id (js "anon_" ++ b) x = false) ->
                getReport st (withParamId reqB id)
                = {| status := 404; body := errorBody "Report not found." |}
                /\ deleteReport st (withParamId reqB id)
                   = ({| status := 404;
                         body := errorBody "Report not found or access denied." |}, st)).
  { intros id H. unfold getReport, deleteReport.
    rewrite (getAnonymousUserId_some (withParamId reqB id) b Hb Hne).
    cbn [reqParamId withParamId].
    rewrite (filter_none _ _ H). split; [reflexivity|].
    f_equal. apply filter_all. intros x Hx. now rewrite H. }
  split; [|split; [apply G, O | split; [apply G, O|]]].
  - unfold listReports, listedIds.
    rewrite (getAnonymousUserId_some reqB b Hb Hne).
    destruct (reqQueryToolkit reqB) as [[|c s]|]; cbn [body]; auto.
    rewrite map_map. intros H. apply in_map_iff in H.
    destruct H as (x & E & Hx). cbn in E. inversion E as [E1].
    apply sortByKey_In, filter_In in Hx. destruct Hx as [Hx F].
    apply andb_true_iff in F. destruct F as [_ F].
    specialize (O x Hx). unfold ownedWithId in O.
    rewrite E1, jsstring_eqb_refl, F in O. discriminate.
  - intros id' Hid. pose proof (not_owned_absent st id' (js "anon_" ++ b) Hid) as O'.
    destruct (G _ O') as [-> ->]. destruct (G _ O) as [-> ->]. auto.
Qed.

Lemma ownership_isolation_witness :
  let owned :=
    {| rep_id := js "r1"; rep_userId := js "anon_client-a"; rep_ownerId := [];
       rep_toolkitCode := js "creditcommander"; rep_name := js "Roadmap";
       rep_entityName := JNull; rep_entityType := JNull; rep_jurisdiction := JNull;
       rep_filingType := JNull; rep_deadline := JNull;
       rep_htmlContent := js "<p>plan</p>"; rep_checksum := checksum (js "<p>plan</p>");
       rep_metadata := JNull; rep_createdAt := 1 |} in
  ~ In (JStr (js "r1")) (listedIds (listReports [owned] sampleRequest))
  /\ getReport [owned] (withParamId sampleRequest (js "r1"))
     = {| status := 404; body := errorBody "Report not found." |}.
Proof.
  intros owned.
  destruct (ownership_isolation [owned] owned sampleRequest (js "client-a") (js "client-b"))
    as (L & G & _).
  - repeat constructor. simpl. tauto.
  - now left.
  - reflexivity.
  - reflexivity.
  - discriminate.
  - discriminate.
  - split; [exact L | exact G].
Defined.

(** The routes keep the ids of the table unique. *)
Lemma saveReport_uniqueIds parseInsert sanitize production newId now st req :
  uniqueIds st ->
  uniqueIds (snd (saveReport parseInsert sanitize production newId now st req)).
Proof.
  unfold saveReport, uniqueIds. intros N.
  destruct (getAnonymousUserId req); auto.
  destruct (parseInsert (reqBody req)); auto.
  destruct (existsb _ st) eqn:E; auto.
  cbn [snd]. rewrite map_app. cbn [map rep_id].
  apply NoDup_app; auto.
  - repeat constructor. simpl. tauto.
  - intros x Hx [E0|[]]. subst x. apply in_map_iff in Hx. destruct Hx as (y & Ey & Hy).
    assert (existsb (fun r => jsstring_eqb (rep_id r) newId) st = true).
    { apply existsb_exists. exists y. split; auto. apply jsstring_eqb_eq. auto. }
    congruence.
Qed.

(** A saved report belongs to the identity of the request, whatever the
    body says. *)
Lemma saveReport_owner parseInsert sanitize production newId now st req resp st' :
  saveReport parseInsert sanitize production newId now st req = (resp, st') ->
  status resp = 200 ->
  exists r, st' = st ++ [r] /\ rep_id r = newId
            /\ getAnonymousUserId req = Some (rep_userId r).
Proof.
  unfold saveReport. destruct (getAnonymousUserId req) as [u|].
  - destruct (parseInsert (reqBody req)) as [d|e].
    + destruct (existsb _ st).
      * intros E S. inversion E; subst. discriminate.
      * intros E _. inversion E; subst. eexists. repeat split.
    + intros E S. inversion E; subst. discriminate.
  - intros E S. inversion E; subst. discriminate.
Qed.

Lemma deleteReport_uniqueIds st req :
  uniqueIds st -> uniqueIds (snd (deleteReport st req)).
Proof.
  unfold deleteReport, uniqueIds. intros N.
  destruct (getAnonymousUserId req) as [u|]; auto.
  assert (F : forall p, NoDup (map rep_id (filter p st))).
  { intros p. induction st as [|x l IH]; simpl; [constructor|].
    inversion N as [|? ? Nx Nl]; subst.
    destruct (p x); simpl; auto. constructor; auto.
    intros H. apply Nx. apply in_map_iff in H. destruct H as (y & E & Hy).
    apply filter_In in Hy. rewrite <- E. apply in_map. tauto. }
  destruct (filter (ownedWithId (reqParamId req) u) st); cbn [snd]; apply F.
Qed.

(* ------------------------------------------------------------------ *)
(** ** RenderPipeline *)
(* ------------------------------------------------------------------ *)

Lemma insertByKey_comm {A} (key : A -> Z) x y l :
  key x <> key y ->
  insertByKey key x (insertByKey key y l) = insertByKey key y (insertByKey key x l).
Proof.
  intros Hne. induction l as [|z l IH]; cbn [insertByKey].
  - destruct (Z.leb_spec (key x) (key y)), (Z.leb_spec (key y) (key x));
      try reflexivity; lia.
  - destruct (Z.leb_spec (key y) (key z)), (Z.leb_spec (key x) (key z));
      cbn [insertByKey];
      repeat match goal with
        | |- context [?a <=? ?b] => destruct (Z.leb_spec a b)
        end; try reflexivity; try lia.
    now rewrite IH.
Qed.

Lemma sortByKey_permutation {A} (key : A -> Z) l1 l2 :
  Permutation l1 l2 -> NoDup (map key l1) -> sortByKey key l1 = sortByKey key l2.
Proof.
  induction 1 as [|x l l' P IH|x y l|l l' l'' P1 IH1 P2 IH2]; intros N; cbn [sortByKey].
  - reflexivity.
  - inversion N; subst. now rewrite IH.
  - inversion N as [|? ? Ny N']; subst. apply insertByKey_comm.
    intros E. apply Ny. rewrite E. now left.
  - rewrite IH1 by assumption. apply IH2.
    eapply Permutation_NoDup; [|exact N]. now apply Permutation_map.
Qed.

Lemma insertByKey_permutation {A} (key : A -> Z) x l :
  Permutation (x :: l) (insertByKey key x l).
Proof.
  induction l as [|y l IH]; cbn [insertByKey]; auto.
  destruct (key x <=? key y); auto.
  eapply perm_trans; [apply perm_swap|]. now apply perm_skip.
Qed.

Lemma sortByKey_is_permutation {A} (key : A -> Z) l :
  Permutation l (sortByKey key l).
Proof.
  induction l as [|x l IH]; cbn [sortByKey]; auto.
  eapply perm_trans; [|apply insertByKey_permutation]. now apply perm_skip.
Qed.

Lemma insertByKey_sorted {A} (key : A -> Z) x l :
  StronglySorted (fun a b => key a <= key b) l ->
  StronglySorted (fun a b => key a <= key b) (insertByKey key x l).
Proof.
  induction 1 as [|y l S IH F]; cbn [insertByKey].
  - repeat constructor.
  - destruct (Z.leb_spec (key x) (key y)).
    + constructor; [constructor; auto|]. constructor; auto.
      eapply Forall_impl; [|exact F]. simpl. intros. lia.
    + constructor; auto. apply Forall_forall. intros z Hz.
      apply insertByKey_In in Hz. destruct Hz as [->|Hz]; [lia|].
      rewrite Forall_forall in F. auto.
Qed.

Lemma sortByKey_sorted {A} (key : A -> Z) l :
  StronglySorted (fun a b => key a <= key b) (sortByKey key l).
Proof.
  induction l as [|x l IH]; cbn [sortByKey]; [constructor|].
  now apply insertByKey_sorted.
Qed.

Lemma existsb_permutation {A} (p : A -> bool) l1 l2 :
  Permutation l1 l2 -> existsb p l1 = existsb p l2.
Proof.
  induction 1; simpl; try congruence.
  - destruct (p x), (p y); reflexivity.
Qed.

Lemma insertByKey_withKey {A} (key : A -> Z) z x l :
  withKey key z (insertByKey key x l) = withKey key z (x :: l).
Proof.
  unfold withKey. induction l as [|y l IH]; [reflexivity|].
  cbn [insertByKey]. destruct (Z.leb_spec (key x) (key y)) as [L|L]; [reflexivity|].
  cbn [filter] in *. rewrite IH.
  destruct (Z.eqb_spec (key x) z) as [Ex|Ex], (Z.eqb_spec (key y) z) as [Ey|Ey];
    try reflexivity.
  lia.
Qed.

(** The sort is stable: elements with the same key keep the order in
    which they came. *)
Lemma sortByKey_stable {A} (key : A -> Z) z l :
  withKey key z (sortByKey key l) = withKey key z l.
Proof.
  induction l as [|x l IH]; [reflexivity|].
  cbn [sortByKey]. rewrite insertByKey_withKey. unfold withKey in *. cbn [filter].
  now rewrite IH.
Qed.

Section RenderFacts.

Variable toLowerCase : jsstring -> jsstring.
Variable textToHtml : jsstring -> jsstring.
Variable stringGtZero : jsstring -> bool.

Abbreviation render := (renderStructuredHTML toLowerCase textToHtml stringGtZero).
Abbreviation renderVendors := (renderVendorRecommendations toLowerCase textToHtml stringGtZero).
Abbreviation renderCards := (renderCardRecommendations toLowerCase textToHtml).
Abbreviation generate := (generateResult toLowerCase textToHtml stringGtZero).
Abbreviation showGenerated' := (showGenerated toLowerCase textToHtml stringGtZero).

Lemma render_nonempty payload generated html :
  render payload generated = Some html -> html <> [].
Proof.
  unfold renderStructuredHTML.
  destruct (isNullish payload); [discriminate|].
  destruct (renderVendorRecommendations _ _ _ _); [|discriminate].
  destruct (renderCardRecommendations _ _ _); [|discriminate].
  intros E. injection E as <-. discriminate.
Qed.

(** A page that has shown a generated report holds its HTML in the
    panel, keeps it with its checksum, and hands it to the export; the
    page loaded again restores the same from localStorage. *)
Lemma shown_and_restored now isoNow stripHTML payload generated html pg stamp :
  render payload generated = Some html ->
  let shown := showGenerated' now isoNow stripHTML payload generated pg in
  forall p, p = shown \/ p = reloadPage shown ->
    pg_panel p = Some (JStr html)
    /\ prop (prop (pg_current p) "structured") "html" = JStr html
    /\ prop (pg_current p) "checksum" = JStr (checksum html)
    /\ exportedPdfHtml stamp p = Some (wrapForPdf stamp html).
Proof.
  intros R shown p Hp.
  pose proof (render_nonempty _ _ _ R) as NE.
  destruct html as [|c html]; [congruence|].
  unfold shown, showGenerated, generateResult in Hp. rewrite R in Hp.
  unfold generatedObject in Hp.
  cbn [cr_id cr_version cr_payload cr_roadmap cr_html cr_createdAt cr_checksum] in Hp.
  destruct Hp as [-> | ->].
  - unfold exportedPdfHtml.
    split; [reflexivity|]. split; [reflexivity|]. split; reflexivity.
  - unfold reloadPage, saveCurrentResult, loadCurrentResult, exportedPdfHtml.
    cbn [pg_storage jsonRoundTrip isUndefined].
    destruct (isUndefined payload), (isUndefined generated);
      (split; [reflexivity|]); (split; [reflexivity|]); split; reflexivity.
Qed.

(** C2. For a payload and generated content that the renderer takes,
    live generation puts the same HTML into the panel and keeps the
    same HTML and checksum whatever the clock reads and whatever the
    page held before; the page loaded again restores exactly that HTML
    and its checksum from localStorage, and the export, before and
    after the reload, wraps exactly that HTML; a second generation after
    the reload gives the same HTML and checksum again.  When the
    renderer throws, it throws at every invocation and the page keeps
    what it held. *)
Theorem render_deterministic (payload generated : jsval)
  (now1 now2 : Z) (iso1 iso2 stamp : jsstring) (strip1 strip2 : jsstring -> jsstring)
  (pg1 pg2 : page) :
  let first := showGenerated' now1 iso1 strip1 payload generated pg1 in
  let second := showGenerated' now2 iso2 strip2 payload generated pg2 in
  let again := showGenerated' now2 iso2 strip2 payload generated (reloadPage first) in
  match render payload generated with
  | Some html =>
      Forall (fun p =>
                pg_panel p = Some (JStr html)
                /\ prop (prop (pg_current p) "structured") "html" = JStr html
                /\ prop (pg_current p) "checksum" = JStr (checksum html)
                /\ exportedPdfHtml stamp p = Some (wrapForPdf stamp html))
        [first; reloadPage first; second; reloadPage second; again]
  | None => first = pg1 /\ second = pg2 /\ again = reloadPage pg1
  end.
Proof.
  intros first second again.
  destruct (render payload generated) as [html|] eqn:R.
  - pose proof (shown_and_restored now1 iso1 strip1 payload generated html pg1 stamp R) as A1.
    pose proof (shown_and_restored now2 iso2 strip2 payload generated html pg2 stamp R) as A2.
    pose proof (shown_and_restored now2 iso2 strip2 payload generated html
                  (reloadPage first) stamp R) as A3.
    cbv zeta in A1, A2, A3.
    apply Forall_cons; [apply A1; left; reflexivity|].
    apply Forall_cons; [apply A1; right; reflexivity|].
    apply Forall_cons; [apply A2; left; reflexivity|].
    apply Forall_cons; [apply A2; right; reflexivity|].
    apply Forall_cons; [apply A3; left; reflexivity|].
    apply Forall_nil.
  - subst first second again. unfold showGenerated, generateResult. rewrite R.
    split; [reflexivity|]. split; reflexivity.
Qed.

(** C6, amended. The card recommendations are sorted by their
    applyOrder (99 when it is not a number) before they are rendered:
    the result is ascending and a permutation of the input, and the
    sort is a stable one (cards with the same order key stay in the
    order of the input), so that two orderings of cards whose order
    keys differ pairwise render to the same HTML.  The vendor
    recommendations have no order field and are rendered in the order
    of the input. *)
Theorem cards_sorted_vendors_in_input_order :
  (forall cards1 cards2,
      Permutation cards1 cards2 -> NoDup (map orderKey cards1) ->
      renderCards (JArr cards1) = renderCards (JArr cards2))
  /\
  (forall cards,
      StronglySorted (fun a b => orderKey a <= orderKey b) (sortByKey orderKey cards)
      /\ Permutation cards (sortByKey orderKey cards)
      /\ forall z, withKey orderKey z (sortByKey orderKey cards) = withKey orderKey z cards)
  /\
  (forall c cs,
      existsb isNullish (c :: cs) = false ->
      renderCards (JArr (c :: cs))
      = option_map (fun cardCards => cardBlock (List.concat cardCards))
          (traverse (renderCardCard toLowerCase textToHtml)
             (sortByKey orderKey (c :: cs))))
  /\
  (forall v vs,
      renderVendors (JArr (v :: vs))
      = option_map (fun vendorCards => vendorBlock (List.concat vendorCards))
          (traverse (renderVendorCard toLowerCase textToHtml stringGtZero) (v :: vs))).
Proof.
  repeat apply conj.
  - intros cards1 cards2 P N.
    destruct cards1 as [|c1 l1].
    { apply Permutation_nil in P. now subst. }
    destruct cards2 as [|c2 l2].
    { symmetry in P. apply Permutation_nil in P. discriminate. }
    unfold renderCardRecommendations.
    rewrite (existsb_permutation _ _ _ P).
    now rewrite (sortByKey_permutation orderKey _ _ P N).
  - intros cards. split; [apply sortByKey_sorted|].
    split; [apply sortByKey_is_permutation|]. intros z. apply sortByKey_stable.
  - intros c cs H. unfold renderCardRecommendations. rewrite H.
    destruct (traverse _ _); reflexivity.
  - intros v vs. unfold renderVendorRecommendations.
    destruct (traverse _ _); reflexivity.
Qed.





End RenderFacts.

Lemma optStringEqb_refl a : optStringEqb a a = true.
Proof. destruct a; simpl; auto using jsstring_eqb_refl. Qed.

(** Two orderings of the same vendors render differently, and so do two
    orderings of cards that have the same applyOrder. *)
Lemma recommendations_depend_on_input_order :
  (Permutation [vendorUline; vendorQuill] [vendorQuill; vendorUline]
   /\ renderVendorRecommendations asciiLower domTextToHtml (fun _ => false)
        (JArr [vendorUline; vendorQuill])
      <> renderVendorRecommendations asciiLower domTextToHtml (fun _ => false)
           (JArr [vendorQuill; vendorUline]))
  /\
  (Permutation [cardSpark; cardBrex] [cardBrex; cardSpark]
   /\ orderKey cardSpark = orderKey cardBrex
   /\ renderCardRecommendations asciiLower domTextToHtml (JArr [cardSpark; cardBrex])
      <> renderCardRecommendations asciiLower domTextToHtml (JArr [cardBrex; cardSpark])).
Proof.
  assert (V : optStringEqb
    (renderVendorRecommendations asciiLower domTextToHtml (fun _ => false)
       (JArr [vendorUline; vendorQuill]))
    (renderVendorRecommendations asciiLower domTextToHtml (fun _ => false)
       (JArr [vendorQuill; vendorUline])) = false) by (vm_compute; reflexivity).
  assert (C : optStringEqb
    (renderCardRecommendations asciiLower domTextToHtml (JArr [cardSpark; cardBrex]))
    (renderCardRecommendations asciiLower domTextToHtml (JArr [cardBrex; cardSpark]))
    = false) by (vm_compute; reflexivity).
  split; (split; [apply perm_swap|]).
  - intros H. rewrite H, optStringEqb_refl in V. discriminate.
  - split; [reflexivity|].
    intros H. rewrite H, optStringEqb_refl in C. discriminate.
Qed.

Lemma cards_sorted_vendors_in_input_order_witness :
  renderCardRecommendations asciiLower domTextToHtml (JArr [cardChase; cardAmex])
  = renderCardRecommendations asciiLower domTextToHtml (JArr [cardAmex; cardChase]).
Proof.
  destruct (cards_sorted_vendors_in_input_order asciiLower domTextToHtml (fun _ => false))
    as (P & _).
  apply P.
  - apply perm_swap.
  - repeat constructor; simpl; intuition discriminate.
Defined.


Lemma render_deterministic_witness :
  let first :=
    showGenerated asciiLower domTextToHtml (fun _ => false) 1700000000000
      (js "2023-11-14T22:13:20.000Z") (fun _ => js "Roadmap") sampleFormData sampleAnswer
      {| pg_current := JNull; pg_storage := NoItem; pg_panel := None |} in
  let second :=
    showGenerated asciiLower domTextToHtml (fun _ => false) 1700000600000
      (js "2023-11-14T22:23:20.000Z") (fun _ => js "Roadmap") sampleFormData sampleAnswer
      {| pg_current := JNull; pg_storage := Unparsable; pg_panel := None |} in
  exists html,
    renderStructuredHTML asciiLower domTextToHtml (fun _ => false) sampleFormData sampleAnswer
    = Some html
    /\ pg_panel (reloadPage first) = Some (JStr html)
    /\ pg_panel second = Some (JStr html)
    /\ prop (pg_current (reloadPage first)) "checksum" = JStr (checksum html).
Proof.
  intros first second.
  pose proof (render_deterministic asciiLower domTextToHtml (fun _ => false)
                sampleFormData sampleAnswer 1700000000000 1700000600000
                (js "2023-11-14T22:13:20.000Z") (js "2023-11-14T22:23:20.000Z")
                (js "11/14/2023") (fun _ => js "Roadmap") (fun _ => js "Roadmap")
                {| pg_current := JNull; pg_storage := NoItem; pg_panel := None |}
                {| pg_current := JNull; pg_storage := Unparsable; pg_panel := None |}) as H.
  cbv zeta in H. fold first second in H.
  destruct (renderStructuredHTML asciiLower domTextToHtml (fun _ => false)
              sampleFormData sampleAnswer) as [html|] eqn:R.
  - exists html. split; [reflexivity|].
    inversion H as [|? ? _ H1]; subst. inversion H1 as [|? ? (P1 & _ & C1 & _) H2]; subst.
    inversion H2 as [|? ? (P2 & _) _]; subst. auto.
  - vm_compute in R. discriminate R.
Defined.

(* ------------------------------------------------------------------ *)
(** ** The embedding on concrete inputs *)
(* ------------------------------------------------------------------ *)

Example checksum_of_empty : checksum [] = js "00001505".
Proof. reflexivity. Qed.

Example checksum_of_a : checksum (js "a") = js "0002b5c4".
Proof. vm_compute. reflexivity. Qed.

Example getClientIp_first_forwarded :
  getClientIp {| xForwardedFor := HOne (js " 198.51.100.4 , 10.0.0.1");
                 xRealIp := HOne (js "10.0.0.2"); remoteAddress := None;
                 xClientId := None; reqMethod := js "POST"; reqParamId := [];
                 reqQueryToolkit := None; reqBody := JObj [] |}
  = js "198.51.100.4".
Proof. vm_compute. reflexivity. Qed.

Example getClientIp_unknown :
  getClientIp {| xForwardedFor := HAbsent; xRealIp := HAbsent; remoteAddress := None;
                 xClientId := None; reqMethod := js "POST"; reqParamId := [];
                 reqQueryToolkit := None; reqBody := JObj [] |}
  = unknownIp.
Proof. reflexivity. Qed.

Example normalizeTool_upper :
  normalizeTool asciiLower (JStr (js "  COMPLIPILOT ")) = complipilot.
Proof. vm_compute. reflexivity. Qed.

Example normalizeTool_array :
  normalizeTool asciiLower (JArr [JStr (js "x")]) = creditcommander.
Proof. vm_compute. reflexivity. Qed.

(** Thirty-one calls one after the other: counts 1 to 30, then the limit. *)
Example thirty_one_calls :
  fst (runSequential ip_tool_eqb true (fun _ => false) (js "203.0.113.7") raceKey 31
         {| table := []; queries := 0 |})
  = map Ok (expectedResults 0 30
            ++ [{| success := false; incr_count := 30; limitReached := true |}]).
Proof. vm_compute. reflexivity. Qed.

Example sorted_cards_by_apply_order :
  sortByKey orderKey [cardChase; JObj []; cardAmex] = [cardAmex; cardChase; JObj []].
Proof. vm_compute. reflexivity. Qed.

Example safePlaceholder_zero :
  safePlaceholder domTextToHtml (JNum 0) = pendingInput.
Proof. reflexivity. Qed.

Example safePlaceholder_text :
  safePlaceholder domTextToHtml (JStr (js "a<b")) = js "a&lt;b".
Proof. vm_compute. reflexivity. Qed.

Example render_throws_on_null_vendor :
  renderVendorRecommendations asciiLower domTextToHtml (fun _ => false) (JArr [JNull]) = None.
Proof. reflexivity. Qed.

(* ================================================================== *)
(** * Further properties of the code *)
(* ================================================================== *)

(* ------------------------------------------------------------------ *)
(** ** UsageGovernor: every success is counted *)
(* ------------------------------------------------------------------ *)

Section CountedSuccesses.

Variable Key : Type.
Variable key_eqb : Key -> Key -> bool.
Hypothesis key_eqb_eq : forall a b, key_eqb a b = true <-> a = b.
Variable outage : nat -> bool.

Abbreviation counted' := (counted key_eqb).

Lemma storedCount_nil k t :
  filter (matchesKey key_eqb k) t = [] -> storedCount key_eqb k t = 0.
Proof. unfold storedCount, sqlSelect. now intros ->. Qed.

Lemma storedCount_one k t r :
  filter (matchesKey key_eqb k) t = [r] -> storedCount key_eqb k t = reportCount r.
Proof. unfold storedCount, sqlSelect. now intros ->. Qed.

Lemma matchesKey_bump k (x : usage_row Key) :
  matchesKey key_eqb k (if matchesKey key_eqb k x && belowLimit x then bump x else x)
  = matchesKey key_eqb k x.
Proof. destruct (matchesKey key_eqb k x && belowLimit x); reflexivity. Qed.

Lemma filter_new_row k t :
  filter (matchesKey key_eqb k) t = [] ->
  filter (matchesKey key_eqb k) (t ++ [{| row_key := k; reportCount := 1 |}])
  = [{| row_key := k; reportCount := 1 |}].
Proof.
  intros F. rewrite filter_app, F. cbn [filter app]. unfold matchesKey at 1.
  cbn [row_key]. now rewrite (proj2 (key_eqb_eq k k) eq_refl).
Qed.

Lemma stepCall_counted k c db c' db' :
  oneRowPerKey key_eqb k (table db) ->
  stepCall key_eqb true outage k c db = (c', db') ->
  oneRowPerKey key_eqb k (table db')
  /\ storedCount key_eqb k (table db') - successes [c']
     = storedCount key_eqb k (table db) - successes [c].
Proof.
  unfold oneRowPerKey. intros One E.
  destruct (filter (matchesKey key_eqb k) (table db)) as [|r [|r' l]] eqn:F;
    [| |simpl in One; lia].
  - (* no row yet *)
    assert (U : sqlUpdate key_eqb k (table db) = ([], table db)).
    { unfold sqlUpdate. rewrite filter_andb, F. cbn [filter map].
      now rewrite map_cond_id by (now rewrite filter_andb, F). }
    destruct c; cbn [stepCall] in E.
    + unfold dbUpdate, query in E. rewrite U in E.
      destruct (outage (queries db)); inversion E; subst; cbn [table]; rewrite F;
        split; auto.
    + unfold dbSelect, query, sqlSelect in E. rewrite F in E. cbn [firstn] in E.
      destruct (outage (queries db)); inversion E; subst; cbn [table]; rewrite F;
        split; auto.
    + unfold dbInsert, query, sqlInsert in E.
      rewrite (filter_nil_existsb _ _ F) in E. cbn [andb] in E.
      destruct (outage (queries db)); inversion E; subst; cbn [table].
      * rewrite F. split; auto.
      * rewrite (filter_new_row k _ F). split; [simpl; lia|].
        rewrite (storedCount_nil k (table db) F).
        now rewrite (storedCount_one _ _ _ (filter_new_row k _ F)).
    + inversion E; subst. rewrite F. split; auto.
  - (* one row *)
    assert (M : matchesKey key_eqb k r = true).
    { assert (I : In r (filter (matchesKey key_eqb k) (table db))) by (rewrite F; now left).
      now apply filter_In in I. }
    assert (X : existsb (matchesKey key_eqb k) (table db) = true).
    { apply existsb_exists. exists r. split; auto.
      assert (I : In r (filter (matchesKey key_eqb k) (table db))) by (rewrite F; now left).
      now apply filter_In in I. }
    assert (FU : filter (matchesKey key_eqb k) (snd (sqlUpdate key_eqb k (table db)))
                 = [if belowLimit r then bump r else r]).
    { unfold sqlUpdate. cbn [snd]. rewrite filter_map_comm by apply matchesKey_bump.
      rewrite F. cbn [map]. now rewrite M. }
    destruct c; cbn [stepCall] in E.
    + unfold dbUpdate, query in E. destruct (outage (queries db)).
      { inversion E; subst; cbn [table]. rewrite F. split; auto. }
      assert (FS : fst (sqlUpdate key_eqb k (table db))
                   = if belowLimit r then [bump r] else []).
      { unfold sqlUpdate. cbn [fst]. rewrite filter_andb, F. cbn [filter].
        destruct (belowLimit r); reflexivity. }
      destruct (sqlUpdate key_eqb k (table db)) as [u t'].
      cbn [fst snd] in FS, FU. subst u.
      destruct (belowLimit r) eqn:B; inversion E; subst; cbn [table];
        rewrite FU; (split; [simpl; lia|]);
        rewrite (storedCount_one _ _ _ FU), (storedCount_one _ _ _ F).
      * unfold successes. simpl. lia.
      * reflexivity.
    + unfold dbSelect, query, sqlSelect in E. rewrite F in E. cbn [firstn] in E.
      destruct (outage (queries db)); inversion E; subst; cbn [table]; rewrite F;
        split; auto.
    + unfold dbInsert, query, sqlInsert in E. rewrite X in E. cbn [andb] in E.
      destruct (outage (queries db)); inversion E; subst; cbn [table]; rewrite F;
        split; auto.
    + inversion E; subst. rewrite F. split; auto.
Qed.

Lemma successes_cons c cs : successes (c :: cs) = successes [c] + successes cs.
Proof.
  unfold successes. cbn [filter]. destruct (callSucceeded c); cbn [List.length]; lia.
Qed.

Lemma stepNth_counted k c0 i cs db :
  counted' k c0 (cs, db) ->
  counted' k c0 (stepNth key_eqb true outage k i cs db).
Proof.
  unfold counted. cbn [fst snd]. revert i c0.
  induction cs as [|c cs IH]; intros i c0 [One S]; cbn [stepNth]; auto.
  destruct i as [|i].
  - destruct (stepCall key_eqb true outage k c db) as [c' db'] eqn:E.
    destruct (stepCall_counted k c db c' db' One E) as [One' D]. cbn [fst snd].
    split; auto. rewrite (successes_cons c cs) in S. rewrite (successes_cons c' cs). lia.
  - specialize (IH i (c0 + successes [c])).
    destruct (stepNth key_eqb true outage k i cs db) as [cs' db'].
    cbn [fst snd] in *. rewrite (successes_cons c cs) in S.
    destruct IH as [One' S']; [split; auto; lia|]. split; auto.
    rewrite (successes_cons c cs'). lia.
Qed.

Lemma runSchedule_counted k c0 sched : forall cf,
  counted' k c0 cf -> counted' k c0 (runSchedule key_eqb true outage k sched cf).
Proof.
  induction sched as [|i sched IH]; intros [cs db] H; cbn [runSchedule]; auto.
  apply IH. cbn [fst snd]. now apply stepNth_counted.
Qed.

End CountedSuccesses.

(** X1. On a table whose key is unique, whatever the interleaving of the
    statements of concurrent incrementUsage calls and whatever the
    outages, the stored count at the end is the stored count at the start
    plus the number of calls that reported success, and it is at most 30:
    no report is delivered uncounted and no more than 30 are counted. *)
Theorem every_success_is_counted {Key} (key_eqb : Key -> Key -> bool)
  (outage : nat -> bool) (k : Key) (sched : list nat) (cs : list call)
  (db : usage_db Key) :
  (forall a b, key_eqb a b = true <-> a = b) ->
  oneRowPerKey key_eqb k (table db) -> countsInRange (table db) ->
  successes cs = 0 ->
  let cf := runSchedule key_eqb true outage k sched (cs, db) in
  storedCount key_eqb k (table (snd cf))
  = storedCount key_eqb k (table db) + successes (fst cf)
  /\ storedCount key_eqb k (table (snd cf)) <= 30
  /\ successes (fst cf) <= 30 - storedCount key_eqb k (table db).
Proof.
  intros Eq One R S0 cf.
  assert (C : counted key_eqb k (storedCount key_eqb k (table db)) (cs, db)).
  { split; auto. cbn [fst snd]. lia. }
  apply (runSchedule_counted Key key_eqb Eq outage k _ sched) in C.
  fold cf in C. destruct C as [One' S].
  pose proof (runSchedule_range Key key_eqb true outage k sched (cs, db) R) as R'.
  fold cf in R'.
  assert (B : storedCount key_eqb k (table (snd cf)) <= 30).
  { unfold storedCount, sqlSelect.
    destruct (filter (matchesKey key_eqb k) (table (snd cf))) as [|r l] eqn:F;
      cbn [firstn]; [lia|].
    assert (I : In r (table (snd cf))).
    { assert (I : In r (filter (matchesKey key_eqb k) (table (snd cf))))
        by (rewrite F; now left). now apply filter_In in I. }
    unfold countsInRange in R'. rewrite Forall_forall in R'. apply R' in I. lia. }
  repeat split; auto; lia.
Qed.

Lemma every_success_is_counted_witness :
  let cf := runSchedule ip_tool_eqb true (fun _ => false) raceKey raceSchedule raceStart in
  storedCount ip_tool_eqb raceKey (table (snd cf))
  = storedCount ip_tool_eqb raceKey [] + successes (fst cf)
  /\ storedCount ip_tool_eqb raceKey (table (snd cf)) <= 30
  /\ successes (fst cf) <= 30 - storedCount ip_tool_eqb raceKey [].
Proof.
  apply (every_success_is_counted ip_tool_eqb (fun _ => false) raceKey raceSchedule
           [AtUpdate; AtUpdate] {| table := []; queries := 0 |}).
  - apply ip_tool_eqb_eq.
  - unfold oneRowPerKey. simpl. lia.
  - constructor.
  - reflexivity.
Defined.

(* ------------------------------------------------------------------ *)
(** ** UsageGovernor and orchestrator: sequences of calls and single requests *)
(* ------------------------------------------------------------------ *)

(** X2. With the store reachable, [n] incrementUsage calls made one after
    the other on a key that has no row yet all return; the stored count
    ends at min(n, 30), exactly min(n, 30) of them report success and
    every other one reports limitReached. *)
Theorem sequential_calls_stop_at_the_limit {Key} (key_eqb : Key -> Key -> bool)
  (unique_key : bool) (outage : nat -> bool) (ip : jsstring) (k : Key) (n : nat)
  (db : usage_db Key) :
  (forall a b, key_eqb a b = true <-> a = b) ->
  (forall q, outage q = false) ->
  ip <> unknownIp ->
  filter (matchesKey key_eqb k) (table db) = [] ->
  exists rs,
    fst (runSequential key_eqb unique_key outage ip k n db) = map Ok rs
    /\ storedCount key_eqb k (table (snd (runSequential key_eqb unique_key outage ip k n db)))
       = Z.min (Z.of_nat n) 30
    /\ Z.of_nat (List.length (filter success rs)) = Z.min (Z.of_nat n) 30
    /\ Forall (fun r => success r = false -> limitReached r = true) rs.
Proof.
  intros Eq Up Hip F.
  apply sequential_increments; auto.
  destruct (jsstring_eqb ip unknownIp) eqn:E; auto.
  apply jsstring_eqb_eq in E. contradiction.
Qed.

Lemma sequential_calls_stop_at_the_limit_witness :
  exists rs,
    fst (runSequential ip_tool_eqb true (fun _ => false) (js "203.0.113.7") raceKey 31
           {| table := []; queries := 0 |}) = map Ok rs
    /\ storedCount ip_tool_eqb raceKey
         (table (snd (runSequential ip_tool_eqb true (fun _ => false) (js "203.0.113.7")
                        raceKey 31 {| table := []; queries := 0 |})))
       = Z.min (Z.of_nat 31) 30
    /\ Z.of_nat (List.length (filter success rs)) = Z.min (Z.of_nat 31) 30
    /\ Forall (fun r => success r = false -> limitReached r = true) rs.
Proof.
  apply (sequential_calls_stop_at_the_limit ip_tool_eqb true (fun _ => false)
           (js "203.0.113.7") raceKey 31 {| table := []; queries := 0 |}).
  - apply ip_tool_eqb_eq.
  - reflexivity.
  - vm_compute. discriminate.
  - reflexivity.
Defined.

Section SingleCall.

Variable Key : Type.
Variable key_eqb : Key -> Key -> bool.
Hypothesis key_eqb_eq : forall a b, key_eqb a b = true <-> a = b.
Variable unique_key : bool.
Variable outage : nat -> bool.

(** One call of incrementUsage on a table with at most one row for the
    key, whatever the outages: the stored count grows by one when the
    call reports success, which it does only from a count below 30, and
    stays as it is otherwise. *)
Lemma incrementUsage_counts ip k db ir db' :
  oneRowPerKey key_eqb k (table db) ->
  incrementUsage key_eqb unique_key outage ip k db = (Ok ir, db') ->
  oneRowPerKey key_eqb k (table db')
  /\ storedCount key_eqb k (table db')
     = storedCount key_eqb k (table db) + (if success ir then 1 else 0)
  /\ (success ir = true ->
      storedCount key_eqb k (table db) < 30
      /\ incr_count ir = storedCount key_eqb k (table db) + 1).
Proof.
  unfold oneRowPerKey. intros One E.
  unfold incrementUsage, tryCatch, bind, ret, throw in E.
  destruct (jsstring_eqb ip unknownIp).
  { inversion E; subst. cbn [success]. split; [assumption|]. split; [lia|discriminate]. }
  destruct (filter (matchesKey key_eqb k) (table db)) as [|r [|r' l]] eqn:F;
    [| |simpl in One; lia].
  - assert (U : sqlUpdate key_eqb k (table db) = ([], table db)).
    { unfold sqlUpdate. rewrite filter_andb, F. cbn [filter map].
      now rewrite map_cond_id by (now rewrite filter_andb, F). }
    unfold dbUpdate, query in E. rewrite U in E.
    destruct (outage (queries db)).
    { inversion E; subst. cbn [table success]. rewrite F. split; [simpl; lia|].
      split; [lia|discriminate]. }
    unfold dbSelect, query, sqlSelect in E. cbn [table queries] in E. rewrite F in E.
    cbn [firstn] in E.
    destruct (outage (S (queries db))).
    { inversion E; subst. cbn [table success]. rewrite F. split; [simpl; lia|].
      split; [lia|discriminate]. }
    unfold dbInsert, query, sqlInsert in E. cbn [table queries] in E.
    rewrite (filter_nil_existsb _ _ F), andb_false_r in E.
    destruct (outage (S (S (queries db)))).
    { inversion E; subst. cbn [table success]. rewrite F. split; [simpl; lia|].
      split; [lia|discriminate]. }
    inversion E; subst. cbn [table success incr_count reportCount].
    rewrite (filter_new_row Key key_eqb key_eqb_eq k _ F).
    rewrite (storedCount_nil Key key_eqb k (table db) F).
    rewrite (storedCount_one Key key_eqb k _ _ (filter_new_row Key key_eqb key_eqb_eq k _ F)).
    cbn [reportCount]. split; [simpl; lia|]. split; [lia|]. intros _. lia.
  - assert (M : matchesKey key_eqb k r = true).
    { assert (I : In r (filter (matchesKey key_eqb k) (table db))) by (rewrite F; now left).
      now apply filter_In in I. }
    assert (FU : filter (matchesKey key_eqb k) (snd (sqlUpdate key_eqb k (table db)))
                 = [if belowLimit r then bump r else r]).
    { unfold sqlUpdate. cbn [snd].
      rewrite filter_map_comm by apply (matchesKey_bump Key key_eqb).
      rewrite F. cbn [map]. now rewrite M. }
    assert (FS : fst (sqlUpdate key_eqb k (table db))
                 = if belowLimit r then [bump r] else []).
    { unfold sqlUpdate. cbn [fst]. rewrite filter_andb, F. cbn [filter].
      destruct (belowLimit r); reflexivity. }
    rewrite (storedCount_one Key key_eqb k _ _ F).
    unfold dbUpdate, query in E.
    destruct (outage (queries db)).
    { inversion E; subst. cbn [table success]. rewrite F.
      rewrite (storedCount_one Key key_eqb k _ _ F).
      split; [simpl; lia|]. split; [lia|discriminate]. }
    destruct (sqlUpdate key_eqb k (table db)) as [u t'].
    cbn [fst snd] in FS, FU. subst u.
    destruct (belowLimit r) eqn:B.
    + inversion E; subst. cbn [table success incr_count]. rewrite FU.
      rewrite (storedCount_one Key key_eqb k _ _ FU). cbn [bump reportCount].
      unfold belowLimit in B. apply Z.ltb_lt in B.
      split; [simpl; lia|]. split; [lia|]. intros _. lia.
    + cbn [table queries] in E.
      unfold dbSelect, query, sqlSelect in E. cbn [table queries] in E.
      rewrite FU in E. cbn [firstn] in E.
      destruct (outage (S (queries db))); inversion E; subst; cbn [table success];
        rewrite FU, (storedCount_one Key key_eqb k _ _ FU);
        (split; [simpl; lia|]); (split; [lia|discriminate]).
Qed.

End SingleCall.

Section OrchestratorPaths.

Variable toLowerCase : jsstring -> jsstring.
Variable unique_key : bool.
Variable outage : nat -> bool.
Variable production : bool.
Variable openaiKeySet : bool.

Abbreviation expressGenerate' := (expressGenerate toLowerCase unique_key outage).
Abbreviation vercelGenerate' := (vercelGenerate unique_key outage production openaiKeySet).
Abbreviation normalizeTool' := (normalizeTool toLowerCase).

(** X3. A request whose address cannot be determined is answered 429 with
    count 30, before any query is sent to the store and whatever the
    generator would have done: by the Express route when the request has
    a body whose tool value converts to a string (so that normalizeTool
    returns), by the serverless handler for every POST. *)
Theorem unknown_address_is_blocked (req : request) (gen : gen_outcome)
  (mE : list (usage_row ip_tool) -> list (usage_row ip_tool))
  (mV : list (usage_row jsstring) -> list (usage_row jsstring))
  (dbE : usage_db ip_tool) (dbV : usage_db jsstring) :
  getClientIp req = unknownIp ->
  (isNullish (reqBody req) = false ->
   stringable (jsOr (prop (reqBody req) "tool") (JStr creditcommander)) = true ->
   expressGenerate' req gen mE dbE
   = (Ok {| status := 429;
            body := expressQuotaBody
                      (expressToolName (normalizeTool' (prop (reqBody req) "tool")))
                      30 (normalizeTool' (prop (reqBody req) "tool")) |}, dbE))
  /\
  (reqMethod req = js "POST" ->
   vercelGenerate' req gen mV dbV
   = (Ok {| status := 429; body := vercelQuotaBody 30 |}, dbV)).
Proof.
  intros U. split.
  - intros N _. unfold expressGenerate, bind, checkUsageLimit, tryCatch, ret.
    rewrite N, U, jsstring_eqb_refl. reflexivity.
  - intros P. unfold vercelGenerate. rewrite P.
    change (jsstring_eqb (js "POST") (js "OPTIONS")) with false.
    rewrite jsstring_eqb_refl. cbn [negb].
    unfold bind, checkUsageLimit, tryCatch, ret.
    rewrite U, jsstring_eqb_refl. reflexivity.
Qed.

Lemma expressOnError_not_200 error : status (expressOnError error) <> 200.
Proof.
  unfold expressOnError.
  destruct (strictEqStr _ _); [discriminate|].
  destruct (strictEqNum _ 429); [discriminate|].
  destruct (strictEqNum _ 401); discriminate.
Qed.

(** A report is answered only after an increment that reported success. *)
Lemma expressGenerate_delivered req gen meanwhile db r db' :
  expressGenerate' req gen meanwhile db = (Ok r, db') -> status r = 200 ->
  exists ir,
    incrementUsage ip_tool_eqb unique_key outage (getClientIp req)
      (getClientIp req, normalizeTool' (prop (reqBody req) "tool"))
      {| table := meanwhile (table db); queries := S (queries db) |} = (Ok ir, db')
    /\ success ir = true.
Proof.
  intros E St. unfold expressGenerate in E.
  destruct (isNullish (reqBody req)); [discriminate E|].
  set (ip := getClientIp req) in *.
  set (tool := normalizeTool' (prop (reqBody req) "tool")) in *.
  destruct (checkUsageLimit_returns ip_tool ip_tool_eqb outage ip (ip, tool) db)
    as (uc & db1 & Ec & T & Q).
  unfold bind at 1 in E. rewrite Ec in E.
  destruct (allowed uc); cbn [negb] in E;
    [|inversion E; subst r; discriminate St].
  specialize (Q eq_refl). unfold tryCatch in E.
  destruct (truthy (prop (reqBody req) "formData")); cbn [negb] in E;
    [|inversion E; subst r; discriminate St].
  destruct (expressInvalid (prop (reqBody req) "formData"));
    [inversion E; subst r; discriminate St|].
  unfold bind at 1, awaitGenerator at 1 in E. rewrite T, Q in E.
  destruct gen as [e|ai].
  { inversion E; subst r. now apply expressOnError_not_200 in St. }
  destruct (isNullish ai).
  { inversion E; subst r. now apply expressOnError_not_200 in St. }
  unfold bind in E.
  destruct (incrementUsage_returns ip_tool ip_tool_eqb unique_key outage ip (ip, tool)
              {| table := meanwhile (table db); queries := S (queries db) |})
    as (ir & db2 & I & R).
  rewrite I in E. exists ir.
  destruct (success ir) eqn:Su; cbn [negb andb] in E.
  - inversion E; subst. split; [exact I|reflexivity].
  - symmetry in R. apply negb_false_iff in R. rewrite R in E.
    inversion E; subst r. discriminate St.
Qed.

(** The serverless handler answers a POST with 200 only after an
    increment that reported success. *)
Lemma vercelGenerate_delivered req gen meanwhile db r db' :
  vercelGenerate' req gen meanwhile db = (Ok r, db') ->
  reqMethod req = js "POST" -> status r = 200 ->
  exists ir,
    incrementUsage jsstring_eqb unique_key outage (getClientIp req) (getClientIp req)
      {| table := meanwhile (table db); queries := S (queries db) |} = (Ok ir, db')
    /\ success ir = true.
Proof.
  intros E P St. unfold vercelGenerate in E. rewrite P in E.
  change (jsstring_eqb (js "POST") (js "OPTIONS")) with false in E.
  rewrite jsstring_eqb_refl in E. cbn [negb] in E.
  set (ip := getClientIp req) in *.
  destruct (checkUsageLimit_returns jsstring jsstring_eqb outage ip ip db)
    as (uc & db1 & Ec & T & Q).
  unfold bind at 1 in E. rewrite Ec in E.
  destruct (allowed uc); cbn [negb] in E;
    [|inversion E; subst r; discriminate St].
  specialize (Q eq_refl). unfold tryCatch at 1 in E.
  destruct (isNullish (reqBody req));
    [inversion E; subst r; discriminate St|].
  destruct (truthy (prop (reqBody req) "formData")); cbn [negb] in E;
    [|inversion E; subst r; discriminate St].
  destruct (vercelInvalid (prop (reqBody req) "formData"));
    [inversion E; subst r; discriminate St|].
  destruct openaiKeySet; cbn [negb] in E;
    [|inversion E; subst r; discriminate St].
  unfold tryCatch, bind at 1, awaitGenerator at 1 in E. rewrite T, Q in E.
  destruct gen as [e|ai].
  { inversion E; subst r. discriminate St. }
  destruct (isNullish ai).
  { inversion E; subst r. discriminate St. }
  unfold bind in E.
  destruct (incrementUsage_returns jsstring jsstring_eqb unique_key outage ip ip
              {| table := meanwhile (table db); queries := S (queries db) |})
    as (ir & db2 & I & R).
  rewrite I in E. exists ir.
  destruct (success ir) eqn:Su; cbn [negb andb] in E.
  - inversion E; subst. split; [exact I|reflexivity].
  - symmetry in R. apply negb_false_iff in R. rewrite R in E.
    inversion E; subst r. discriminate St.
Qed.

(** X4. A report is delivered only when it has been charged: whenever
    /api/generate answers a POST with 200, the increment of the caller's
    counter reported success, and on a table with at most one row for
    that counter the count that the other requests left was below 30 and
    has grown by exactly one, whatever the outages of the store. *)
Theorem delivered_report_is_charged_once (req : request) (gen : gen_outcome)
  (mE : list (usage_row ip_tool) -> list (usage_row ip_tool))
  (mV : list (usage_row jsstring) -> list (usage_row jsstring))
  (dbE : usage_db ip_tool) (dbV : usage_db jsstring) :
  let ip := getClientIp req in
  let tool := normalizeTool' (prop (reqBody req) "tool") in
  (forall r db',
      expressGenerate' req gen mE dbE = (Ok r, db') -> status r = 200 ->
      oneRowPerKey ip_tool_eqb (ip, tool) (mE (table dbE)) ->
      storedCount ip_tool_eqb (ip, tool) (mE (table dbE)) < 30
      /\ storedCount ip_tool_eqb (ip, tool) (table db')
         = storedCount ip_tool_eqb (ip, tool) (mE (table dbE)) + 1
      /\ oneRowPerKey ip_tool_eqb (ip, tool) (table db'))
  /\
  (forall r db',
      vercelGenerate' req gen mV dbV = (Ok r, db') ->
      reqMethod req = js "POST" -> status r = 200 ->
      oneRowPerKey jsstring_eqb ip (mV (table dbV)) ->
      storedCount jsstring_eqb ip (mV (table dbV)) < 30
      /\ storedCount jsstring_eqb ip (table db')
         = storedCount jsstring_eqb ip (mV (table dbV)) + 1
      /\ oneRowPerKey jsstring_eqb ip (table db')).
Proof.
  intros ip tool. split.
  - intros r db' E St One.
    destruct (expressGenerate_delivered req gen mE dbE r db' E St)
      as (ir & I & Su).
    destruct (incrementUsage_counts ip_tool ip_tool_eqb ip_tool_eqb_eq unique_key outage
                ip (ip, tool) {| table := mE (table dbE); queries := S (queries dbE) |}
                ir db' One I) as (One' & C & L).
    cbn [table] in C, L. rewrite Su in C. destruct (L Su) as [L1 _]. auto.
  - intros r db' E P St One.
    destruct (vercelGenerate_delivered req gen mV dbV r db' E P St) as (ir & I & Su).
    destruct (incrementUsage_counts jsstring jsstring_eqb jsstring_eqb_eq unique_key outage
                ip ip {| table := mV (table dbV); queries := S (queries dbV) |}
                ir db' One I) as (One' & C & L).
    cbn [table] in C, L. rewrite Su in C. destruct (L Su) as [L1 _]. auto.
Qed.

End OrchestratorPaths.

Lemma unknown_address_is_blocked_witness :
  let req := {| xForwardedFor := HAbsent; xRealIp := HAbsent; remoteAddress := None;
                xClientId := None; reqMethod := js "POST"; reqParamId := [];
                reqQueryToolkit := None; reqBody := reqBody sampleRequest |} in
  expressGenerate asciiLower true (fun _ => false) req (GenReturns sampleAnswer)
    (fun t => t) expressDb29
  = (Ok {| status := 429;
           body := expressQuotaBody (js "Credit Commander") 30 (js "creditcommander") |},
     expressDb29)
  /\ vercelGenerate true (fun _ => false) true true req (GenReturns sampleAnswer)
       (fun t => t) vercelDb29
     = (Ok {| status := 429; body := vercelQuotaBody 30 |}, vercelDb29).
Proof.
  intros req.
  destruct (unknown_address_is_blocked asciiLower true (fun _ => false) true true
              req (GenReturns sampleAnswer) (fun t => t) (fun t => t)
              expressDb29 vercelDb29 eq_refl) as [E V].
  split; [apply E | apply V]; reflexivity.
Defined.

Lemma delivered_report_is_charged_once_witness :
  (exists r db',
     expressGenerate asciiLower true (fun _ => false) sampleRequest
       (GenReturns sampleAnswer) (fun t => t) expressDb29 = (Ok r, db')
     /\ status r = 200
     /\ storedCount ip_tool_eqb raceKey (table expressDb29) < 30
     /\ storedCount ip_tool_eqb raceKey (table db')
        = storedCount ip_tool_eqb raceKey (table expressDb29) + 1)
  /\
  (exists r db',
     vercelGenerate true (fun _ => false) true true sampleRequest
       (GenReturns sampleAnswer) (fun t => t) vercelDb29 = (Ok r, db')
     /\ status r = 200
     /\ storedCount jsstring_eqb (js "203.0.113.7") (table vercelDb29) < 30
     /\ storedCount jsstring_eqb (js "203.0.113.7") (table db')
        = storedCount jsstring_eqb (js "203.0.113.7") (table vercelDb29) + 1).
Proof.
  destruct (delivered_report_is_charged_once asciiLower true (fun _ => false) true true
              sampleRequest (GenReturns sampleAnswer) (fun t => t) (fun t => t)
              expressDb29 vercelDb29) as [E V].
  split.
  - eexists _, _. split; [vm_compute; reflexivity|]. split; [reflexivity|].
    eapply proj1, and_assoc, E; [vm_compute; reflexivity|reflexivity|vm_compute; lia].
  - eexists _, _. split; [vm_compute; reflexivity|]. split; [reflexivity|].
    eapply proj1, and_assoc, V; [vm_compute; reflexivity|reflexivity|reflexivity|vm_compute; lia].
Defined.

(* ------------------------------------------------------------------ *)
(** ** One counter per key *)
(* ------------------------------------------------------------------ *)

Section OtherKeys.

Variable Key : Type.
Variable key_eqb : Key -> Key -> bool.
Hypothesis key_eqb_eq : forall a b, key_eqb a b = true <-> a = b.
Variable unique_key : bool.
Variable outage : nat -> bool.

Lemma otherRows_update k t :
  otherRows key_eqb k (snd (sqlUpdate key_eqb k t)) = otherRows key_eqb k t.
Proof.
  unfold sqlUpdate, otherRows. cbn [snd].
  induction t as [|r t IH]; [reflexivity|]. cbn [map filter].
  destruct (matchesKey key_eqb k r) eqn:M; cbn [andb].
  - destruct (belowLimit r).
    + unfold matchesKey at 1. cbn [bump row_key]. fold (matchesKey key_eqb k r).
      rewrite M. exact IH.
    + rewrite M. exact IH.
  - rewrite M. cbn [negb]. now rewrite IH.
Qed.

Lemma otherRows_stepCall k c db :
  otherRows key_eqb k (table (snd (stepCall key_eqb unique_key outage k c db)))
  = otherRows key_eqb k (table db).
Proof.
  destruct c; cbn [stepCall]; [| | |reflexivity].
  - pose proof (otherRows_update k (table db)) as U.
    unfold dbUpdate, query. destruct (outage (queries db)); [reflexivity|].
    destruct (sqlUpdate key_eqb k (table db)) as [[|r u] t']; exact U.
  - unfold dbSelect, query. destruct (outage (queries db)); [reflexivity|].
    destruct (sqlSelect key_eqb k (table db)); reflexivity.
  - unfold dbInsert, query, sqlInsert. destruct (outage (queries db)); [reflexivity|].
    destruct (unique_key && existsb (matchesKey key_eqb k) (table db)); [reflexivity|].
    cbn [snd table]. unfold otherRows. rewrite filter_app. cbn [filter].
    unfold matchesKey at 2. cbn [row_key].
    rewrite (proj2 (key_eqb_eq k k) eq_refl). cbn [negb]. apply app_nil_r.
Qed.

Lemma otherRows_incrementUsage ip k db :
  otherRows key_eqb k (table (snd (incrementUsage key_eqb unique_key outage ip k db)))
  = otherRows key_eqb k (table db).
Proof.
  destruct (jsstring_eqb ip unknownIp) eqn:Hip.
  - unfold incrementUsage, tryCatch. now rewrite Hip.
  - destruct (incrementUsage_steps Key key_eqb unique_key outage ip k db Hip)
      as (ir & db' & E1 & E2).
    rewrite E2. cbn [snd]. cbn [stepsCall] in E1.
    destruct (stepCall key_eqb unique_key outage k AtUpdate db) as [c1 d1] eqn:S1.
    destruct (stepCall key_eqb unique_key outage k c1 d1) as [c2 d2] eqn:S2.
    destruct (stepCall key_eqb unique_key outage k c2 d2) as [c3 d3] eqn:S3.
    inversion E1; subst.
    pose proof (otherRows_stepCall k c2 d2) as R3. rewrite S3 in R3.
    pose proof (otherRows_stepCall k c1 d1) as R2. rewrite S2 in R2.
    pose proof (otherRows_stepCall k AtUpdate db) as R1. rewrite S1 in R1.
    cbn [snd] in *. congruence.
Qed.

Lemma filter_otherRows k k' t :
  k' <> k ->
  filter (matchesKey key_eqb k') (otherRows key_eqb k t)
  = filter (matchesKey key_eqb k') t.
Proof.
  intros N. unfold otherRows. induction t as [|r t IH]; [reflexivity|].
  cbn [filter]. destruct (matchesKey key_eqb k r) eqn:M; cbn [negb filter].
  - destruct (matchesKey key_eqb k' r) eqn:M'; [|exact IH].
    unfold matchesKey in M, M'. apply key_eqb_eq in M, M'. congruence.
  - now rewrite IH.
Qed.

End OtherKeys.

Section OrchestratorKeys.

Variable toLowerCase : jsstring -> jsstring.
Variable unique_key : bool.
Variable outage : nat -> bool.
Variable production : bool.
Variable openaiKeySet : bool.

Abbreviation expressGenerate' := (expressGenerate toLowerCase unique_key outage).
Abbreviation vercelGenerate' := (vercelGenerate unique_key outage production openaiKeySet).
Abbreviation expressCalls := (expressCallsGenerator toLowerCase outage).
Abbreviation vercelCalls := (vercelCallsGenerator outage openaiKeySet).
Abbreviation normalizeTool' := (normalizeTool toLowerCase).

Lemma expressGenerate_otherRows req gen m db :
  let k := (getClientIp req, normalizeTool' (prop (reqBody req) "tool")) in
  exists t,
    (t = table db \/ t = m (table db))
    /\ otherRows ip_tool_eqb k (table (snd (expressGenerate' req gen m db)))
       = otherRows ip_tool_eqb k t.
Proof.
  intros k.
  destruct (checkUsageLimit_returns ip_tool ip_tool_eqb outage (getClientIp req) k db)
    as (uc & db1 & E & T & _).
  pose proof (otherRows_incrementUsage ip_tool ip_tool_eqb ip_tool_eqb_eq unique_key outage
                (getClientIp req) k {| table := m (table db1); queries := queries db1 |}) as O.
  cbn [table] in O.
  unfold expressGenerate.
  destruct (isNullish (reqBody req)); [exists (table db); auto|].
  unfold bind at 1. fold k. rewrite E.
  destruct (allowed uc); cbn [negb];
    [|exists (table db); split; [auto|simpl; now rewrite T]].
  unfold tryCatch.
  destruct (negb (truthy (prop (reqBody req) "formData")));
    [exists (table db); split; [auto|simpl; now rewrite T]|].
  destruct (expressInvalid (prop (reqBody req) "formData"));
    [exists (table db); split; [auto|simpl; now rewrite T]|].
  unfold bind at 1, awaitGenerator.
  exists (m (table db)). split; [auto|].
  destruct gen as [e|ai]; [simpl; now rewrite T|].
  destruct (isNullish ai); [simpl; now rewrite T|].
  unfold bind.
  destruct (incrementUsage ip_tool_eqb unique_key outage (getClientIp req) k
              {| table := m (table db1); queries := queries db1 |}) as [[ir|e] db2].
  - cbn [snd] in O.
    destruct (negb (success ir) && limitReached ir); cbn [ret snd]; now rewrite O, T.
  - cbn [snd ret] in *. now rewrite O, T.
Qed.

Lemma vercelGenerate_otherRows req gen m db :
  let k := getClientIp req in
  exists t,
    (t = table db \/ t = m (table db))
    /\ otherRows jsstring_eqb k (table (snd (vercelGenerate' req gen m db)))
       = otherRows jsstring_eqb k t.
Proof.
  intros k.
  destruct (checkUsageLimit_returns jsstring jsstring_eqb outage k k db)
    as (uc & db1 & E & T & _).
  pose proof (otherRows_incrementUsage jsstring jsstring_eqb jsstring_eqb_eq unique_key outage
                k k {| table := m (table db1); queries := queries db1 |}) as O.
  cbn [table] in O.
  unfold vercelGenerate.
  destruct (jsstring_eqb (reqMethod req) (js "OPTIONS")); [exists (table db); auto|].
  destruct (negb (jsstring_eqb (reqMethod req) (js "POST"))); [exists (table db); auto|].
  unfold bind at 1. fold k. rewrite E.
  destruct (allowed uc); cbn [negb];
    [|exists (table db); split; [auto|simpl; now rewrite T]].
  unfold tryCatch at 1.
  destruct (isNullish (reqBody req));
    [exists (table db); split; [auto|simpl; now rewrite T]|].
  destruct (negb (truthy (prop (reqBody req) "formData")));
    [exists (table db); split; [auto|simpl; now rewrite T]|].
  destruct (vercelInvalid (prop (reqBody req) "formData"));
    [exists (table db); split; [auto|simpl; now rewrite T]|].
  destruct (negb openaiKeySet);
    [exists (table db); split; [auto|simpl; now rewrite T]|].
  unfold tryCatch, bind at 1, awaitGenerator.
  exists (m (table db)). split; [auto|].
  destruct gen as [e|ai]; [simpl; now rewrite T|].
  destruct (isNullish ai); [simpl; now rewrite T|].
  unfold bind.
  destruct (incrementUsage jsstring_eqb unique_key outage k k
              {| table := m (table db1); queries := queries db1 |}) as [[ir|e] db2].
  - cbn [snd] in O.
    destruct (negb (success ir) && limitReached ir); cbn [ret snd]; now rewrite O, T.
  - cbn [snd ret] in *. now rewrite O, T.
Qed.

(** X5. Whatever a request to /api/generate does (blocked, refused,
    failed or delivered, with or without store outages), the rows of
    every other key of the usage table are afterwards the same rows in
    the same order: the Express route can change the counter of its own
    (ip, tool) pair only, the serverless handler that of its own ip. *)
Theorem request_changes_only_its_own_counter (req : request) (gen : gen_outcome)
  (dbE : usage_db ip_tool) (dbV : usage_db jsstring) :
  (forall k',
      k' <> (getClientIp req, normalizeTool' (prop (reqBody req) "tool")) ->
      filter (matchesKey ip_tool_eqb k')
        (table (snd (expressGenerate' req gen (fun t => t) dbE)))
      = filter (matchesKey ip_tool_eqb k') (table dbE))
  /\
  (forall ip',
      ip' <> getClientIp req ->
      filter (matchesKey jsstring_eqb ip')
        (table (snd (vercelGenerate' req gen (fun t => t) dbV)))
      = filter (matchesKey jsstring_eqb ip') (table dbV)).
Proof.
  split.
  - intros k' N.
    rewrite <- (filter_otherRows ip_tool ip_tool_eqb ip_tool_eqb_eq _ k' _ N).
    rewrite <- (filter_otherRows ip_tool ip_tool_eqb ip_tool_eqb_eq _ k' (table dbE) N).
    destruct (expressGenerate_otherRows req gen (fun t => t) dbE) as (t & [-> | ->] & O);
      cbv zeta in O; now rewrite O.
  - intros ip' N.
    rewrite <- (filter_otherRows jsstring jsstring_eqb jsstring_eqb_eq _ ip' _ N).
    rewrite <- (filter_otherRows jsstring jsstring_eqb jsstring_eqb_eq _ ip' (table dbV) N).
    destruct (vercelGenerate_otherRows req gen (fun t => t) dbV) as (t & [-> | ->] & O);
      cbv zeta in O; now rewrite O.
Qed.


End OrchestratorKeys.

Lemma request_changes_only_its_own_counter_witness :
  filter (matchesKey ip_tool_eqb (js "203.0.113.7", js "complipilot"))
    (table (snd (expressGenerate asciiLower true (fun _ => false) sampleRequest
                   (GenReturns sampleAnswer) (fun t => t) expressDb29)))
  = filter (matchesKey ip_tool_eqb (js "203.0.113.7", js "complipilot")) (table expressDb29)
  /\ filter (matchesKey jsstring_eqb (js "198.51.100.2"))
       (table (snd (vercelGenerate true (fun _ => false) true true sampleRequest
                      (GenReturns sampleAnswer) (fun t => t) vercelDb29)))
     = filter (matchesKey jsstring_eqb (js "198.51.100.2")) (table vercelDb29).
Proof.
  destruct (request_changes_only_its_own_counter asciiLower true (fun _ => false) true true
              sampleRequest (GenReturns sampleAnswer) expressDb29 vercelDb29) as [E V].
  split; [apply E | apply V]; vm_compute; discriminate.
Defined.


Section RoadmapToRenderer.

Variable toLowerCase : jsstring -> jsstring.
Variable textToHtml : jsstring -> jsstring.
Variable stringGtZero : jsstring -> bool.

Abbreviation renderHTML := (renderStructuredHTML toLowerCase textToHtml stringGtZero).
Abbreviation renderVendors := (renderVendorRecommendations toLowerCase textToHtml stringGtZero).
Abbreviation renderCards := (renderCardRecommendations toLowerCase textToHtml).

(** X7. The roadmap that the serverless handler answers carries no
    recommendation lists, whatever the generator returned: the renderer
    leaves both recommendation blocks out, and for a payload and an
    answer of the generator in which no object has a property toString
    of its own (so that every conversion to a string returns) it
    returns a report; the Express route hands the generator's lists on
    to the renderer. *)
Theorem serverless_report_has_no_recommendations (payload ai fd : jsval) :
  renderVendors (fieldOr (vercelRoadmap ai) "vendorRecommendations" (JArr [])) = Some []
  /\ renderCards (fieldOr (vercelRoadmap ai) "cardRecommendations" (JArr [])) = Some []
  /\ (isNullish payload = false -> plain payload = true -> plain ai = true ->
      exists html, renderHTML payload (vercelRoadmap ai) = Some html)
  /\ fieldOr (expressRoadmap ai fd) "vendorRecommendations" (JArr [])
     = jsOr (prop ai "vendorRecommendations") (JArr [])
  /\ fieldOr (expressRoadmap ai fd) "cardRecommendations" (JArr [])
     = jsOr (prop ai "cardRecommendations") (JArr []).
Proof.
  assert (V : fieldOr (vercelRoadmap ai) "vendorRecommendations" (JArr []) = JArr [])
    by reflexivity.
  assert (C : fieldOr (vercelRoadmap ai) "cardRecommendations" (JArr []) = JArr [])
    by reflexivity.
  split; [now rewrite V|]. split; [now rewrite C|]. split.
  - intros N _ _. unfold renderStructuredHTML. rewrite N, V, C.
    cbn [renderVendorRecommendations renderCardRecommendations]. eexists. reflexivity.
  - assert (T : forall v, jsOr v (JArr []) <> JUndefined).
    { intros v. unfold jsOr. destruct v; cbn; try discriminate.
      - destruct b; discriminate.
      - destruct (negb (n =? 0)); discriminate.
      - destruct s; discriminate. }
    split.
    + change (fieldOr (expressRoadmap ai fd) "vendorRecommendations" (JArr []))
        with (match jsOr (prop ai "vendorRecommendations") (JArr []) with
              | JUndefined => JArr [] | v => v end).
      specialize (T (prop ai "vendorRecommendations")).
      destruct (jsOr (prop ai "vendorRecommendations") (JArr [])); congruence.
    + change (fieldOr (expressRoadmap ai fd) "cardRecommendations" (JArr []))
        with (match jsOr (prop ai "cardRecommendations") (JArr []) with
              | JUndefined => JArr [] | v => v end).
      specialize (T (prop ai "cardRecommendations")).
      destruct (jsOr (prop ai "cardRecommendations") (JArr [])); congruence.
Qed.

End RoadmapToRenderer.

Lemma serverless_report_has_no_recommendations_witness :
  let ai := JObj [ (js "profileSummary", JStr (js "Solid profile."));
                   (js "vendorRecommendations", JArr [vendorUline; JNull]);
                   (js "cardRecommendations", JArr [cardAmex]) ] in
  renderVendorRecommendations asciiLower domTextToHtml (fun _ => false)
    (fieldOr (vercelRoadmap ai) "vendorRecommendations" (JArr [])) = Some []
  /\ renderCardRecommendations asciiLower domTextToHtml
       (fieldOr (vercelRoadmap ai) "cardRecommendations" (JArr [])) = Some []
  /\ (exists html, renderStructuredHTML asciiLower domTextToHtml (fun _ => false)
                     sampleFormData (vercelRoadmap ai) = Some html)
  /\ fieldOr (expressRoadmap ai sampleFormData) "vendorRecommendations" (JArr [])
     = jsOr (prop ai "vendorRecommendations") (JArr [])
  /\ fieldOr (expressRoadmap ai sampleFormData) "cardRecommendations" (JArr [])
     = jsOr (prop ai "cardRecommendations") (JArr []).
Proof.
  intros ai.
  destruct (serverless_report_has_no_recommendations asciiLower domTextToHtml
              (fun _ => false) sampleFormData ai sampleFormData) as (V & C & H & EV & EC).
  split; [exact V|]. split; [exact C|]. split; [|split; [exact EV|exact EC]].
  apply H; reflexivity.
Defined.

(* ------------------------------------------------------------------ *)
(** ** ReportStore: save, get, list and delete for the owner *)
(* ------------------------------------------------------------------ *)

Lemma owned_new_row st newId u r :
  ~ In newId (map rep_id st) -> rep_id r = newId -> rep_userId r = u ->
  filter (ownedWithId newId u) (st ++ [r]) = [r]
  /\ filter (fun x => negb (ownedWithId newId u x)) (st ++ [r]) = st.
Proof.
  intros N I U.
  assert (O : ownedWithId newId u r = true).
  { unfold ownedWithId. now rewrite I, U, !jsstring_eqb_refl. }
  rewrite !filter_app. cbn [filter]. rewrite O. cbn [negb].
  rewrite (filter_none _ st (not_owned_absent st newId u N)).
  rewrite app_nil_r. split; [reflexivity|].
  apply filter_all. intros x Hx.
  now rewrite (not_owned_absent st newId u N x Hx).
Qed.

Lemma fresh_not_in st newId :
  existsb (fun r => jsstring_eqb (rep_id r) newId) st = false <-> ~ In newId (map rep_id st).
Proof.
  split.
  - intros E H. apply in_map_iff in H. destruct H as (x & I & Hx).
    assert (existsb (fun r => jsstring_eqb (rep_id r) newId) st = true); [|congruence].
    apply existsb_exists. exists x. split; auto. now apply jsstring_eqb_eq.
  - intros N. destruct (existsb _ st) eqn:E; auto.
    apply existsb_exists in E. destruct E as (x & Hx & I).
    apply jsstring_eqb_eq in I. exfalso. apply N. rewrite <- I. now apply in_map.
Qed.

(** X8. A save that the schema accepts appends one row and touches no
    other; the row belongs to the identity of the X-Client-Id header with
    the legacy owner cleared, holds the sanitized HTML but the checksum
    exactly as it was sent; the owner's get of the new id then answers
    with the body that the save answered, and the owner's delete of it
    gives back the store as it was before the save. *)
Theorem saved_report_round_trip (parseInsert : jsval -> report + jsval)
  (sanitize : jsstring -> jsstring) (production : bool) (newId : jsstring) (now : Z)
  (st : list report) (req : request) (b : jsstring) (d : report) :
  xClientId req = Some b -> b <> [] ->
  parseInsert (reqBody req) = inl d ->
  ~ In newId (map rep_id st) ->
  exists saved,
    saveReport parseInsert sanitize production newId now st req
    = ({| status := 200; body := reportJson saved |}, st ++ [saved])
    /\ rep_id saved = newId
    /\ rep_userId saved = js "anon_" ++ b
    /\ rep_ownerId saved = []
    /\ rep_htmlContent saved = sanitize (rep_htmlContent d)
    /\ rep_checksum saved = rep_checksum d
    /\ getReport (st ++ [saved]) (withParamId req newId)
       = {| status := 200; body := reportJson saved |}
    /\ deleteReport (st ++ [saved]) (withParamId req newId)
       = ({| status := 200; body := JObj [(js "success", JBool true)] |}, st).
Proof.
  intros Hb Hne Hp Hfresh.
  unfold saveReport. rewrite (getAnonymousUserId_some req b Hb Hne), Hp.
  rewrite (proj2 (fresh_not_in st newId) Hfresh).
  eexists. split; [reflexivity|]. cbn [rep_id rep_userId rep_ownerId rep_htmlContent rep_checksum].
  repeat (split; [reflexivity|]).
  unfold getReport, deleteReport.
  rewrite (getAnonymousUserId_some (withParamId req newId) b Hb Hne).
  cbn [reqParamId withParamId].
  match goal with
  | |- context [st ++ [?r]] =>
      destruct (owned_new_row st newId (js "anon_" ++ b) r Hfresh eq_refl eq_refl) as [F1 F2]
  end.
  rewrite F1, F2. split; reflexivity.
Qed.

Lemma StronglySorted_weaken {A} (R S : A -> A -> Prop) l :
  (forall x y, R x y -> S x y) -> StronglySorted R l -> StronglySorted S l.
Proof.
  intros H. induction 1 as [|x l _ IH F]; constructor; auto.
  eapply Forall_impl; [|exact F]. auto.
Qed.

Lemma NoDup_map_filter {A B} (f : A -> B) (p : A -> bool) l :
  NoDup (map f l) -> NoDup (map f (filter p l)).
Proof.
  induction l as [|x l IH]; simpl; [constructor|].
  intros N. inversion N as [|? ? Nx Nl]; subst.
  destruct (p x); simpl; auto. constructor; auto.
  intros H. apply Nx. apply in_map_iff in H. destruct H as (y & E & Hy).
  apply filter_In in Hy. rewrite <- E. apply in_map. tauto.
Qed.

Lemma toolkitFilter_listedFor u toolkit r :
  toolkitFilter toolkit r && jsstring_eqb (rep_userId r) u = true <-> listedFor u toolkit r.
Proof.
  unfold toolkitFilter, listedFor. rewrite andb_true_iff, (jsstring_eqb_eq (rep_userId r) u).
  destruct (jsstring_eqb toolkit (js "creditcommander")) eqn:T.
  - apply jsstring_eqb_eq in T. subst toolkit.
    rewrite orb_true_iff, !jsstring_eqb_eq. intuition.
  - rewrite jsstring_eqb_eq. split; [intuition|].
    intros [U [E|[E _]]]; [auto|]. subst toolkit. now rewrite jsstring_eqb_refl in T.
Qed.

(** X9. For a caller with an X-Client-Id and a toolkit, the list route
    answers 200 with the summaries of exactly the caller's rows of that
    toolkit (for 'creditcommander' also the rows of the legacy code
    'grantgenie'), newest first, and no id twice when the ids of the
    table are unique. *)
Theorem list_is_the_callers_newest_first (st : list report) (req : request)
  (b toolkit : jsstring) :
  xClientId req = Some b -> b <> [] ->
  reqQueryToolkit req = Some toolkit -> toolkit <> [] ->
  exists reports,
    listReports st req = {| status := 200; body := JArr (map reportSummary reports) |}
    /\ (forall r, In r reports <-> In r st /\ listedFor (js "anon_" ++ b) toolkit r)
    /\ StronglySorted (fun x y => rep_createdAt y <= rep_createdAt x) reports
    /\ (uniqueIds st -> NoDup (map rep_id reports)).
Proof.
  intros Hb Hne Ht Htne. unfold listReports.
  rewrite (getAnonymousUserId_some req b Hb Hne), Ht.
  destruct toolkit as [|c s]; [congruence|].
  eexists. split; [reflexivity|]. split; [|split].
  - intros r. rewrite sortByKey_In, filter_In, toolkitFilter_listedFor. reflexivity.
  - eapply StronglySorted_weaken; [|apply sortByKey_sorted]. cbv beta. intros; lia.
  - intros U. eapply Permutation_NoDup.
    + apply Permutation_map, sortByKey_is_permutation.
    + now apply NoDup_map_filter.
Qed.

(** X10. An owner's delete of one of their reports answers 200 and
    removes that row and no other (ids being unique); afterwards the
    owner's get of the id and a second delete both answer 404, the second
    delete leaving the store as it is. *)
Theorem delete_removes_only_the_named_report (st : list report) (r : report)
  (req : request) (b : jsstring) :
  uniqueIds st -> In r st ->
  xClientId req = Some b -> b <> [] -> rep_userId r = js "anon_" ++ b ->
  exists st',
    deleteReport st (withParamId req (rep_id r))
    = ({| status := 200; body := JObj [(js "success", JBool true)] |}, st')
    /\ (forall x, In x st' <-> In x st /\ x <> r)
    /\ getReport st' (withParamId req (rep_id r))
       = {| status := 404; body := errorBody "Report not found." |}
    /\ deleteReport st' (withParamId req (rep_id r))
       = ({| status := 404; body := errorBody "Report not found or access denied." |}, st').
Proof.
  intros U Hr Hb Hne Ho.
  assert (O : ownedWithId (rep_id r) (js "anon_" ++ b) r = true).
  { unfold ownedWithId. now rewrite Ho, !jsstring_eqb_refl. }
  assert (Q : forall x, In x st -> ownedWithId (rep_id r) (js "anon_" ++ b) x = true -> x = r).
  { intros x Hx H. unfold ownedWithId in H. apply andb_true_iff in H. destruct H as [H _].
    apply jsstring_eqb_eq in H. eapply NoDup_map_eq; eauto. }
  set (st' := filter (fun x => negb (ownedWithId (rep_id r) (js "anon_" ++ b) x)) st).
  assert (I : forall x, In x st' <-> In x st /\ x <> r).
  { intros x. unfold st'. rewrite filter_In, negb_true_iff. split.
    - intros [Hx N]. split; auto. intros ->. congruence.
    - intros [Hx N]. split; auto.
      destruct (ownedWithId (rep_id r) (js "anon_" ++ b) x) eqn:E; auto.
      exfalso. auto. }
  assert (Z0 : forall x, In x st' -> ownedWithId (rep_id r) (js "anon_" ++ b) x = false).
  { intros x Hx. unfold st' in Hx. apply filter_In in Hx. now apply negb_true_iff. }
  exists st'. unfold getReport, deleteReport.
  rewrite (getAnonymousUserId_some (withParamId req (rep_id r)) b Hb Hne).
  cbn [reqParamId withParamId]. fold st'.
  rewrite (filter_none _ st' Z0).
  rewrite (filter_all (fun x => negb (ownedWithId (rep_id r) (js "anon_" ++ b) x)) st')
    by (intros x Hx; now rewrite (Z0 x Hx)).
  destruct (filter (ownedWithId (rep_id r) (js "anon_" ++ b)) st) as [|y l] eqn:F.
  - exfalso. assert (H : In r (filter (ownedWithId (rep_id r) (js "anon_" ++ b)) st))
      by (apply filter_In; auto). now rewrite F in H.
  - split; [reflexivity|]. split; [exact I|]. split; reflexivity.
Qed.

(** X11. In guest mode (no auth object) the browser sends at most an
    X-Owner-Id header with its report requests, never the X-Client-Id
    that the server reads: save, list, get and delete all answer 400
    'X-Client-Id header is required' and the store stays as it is. *)
Theorem guest_mode_requests_are_refused (parseInsert : jsval -> report + jsval)
  (sanitize : jsstring -> jsstring) (production : bool) (newId : jsstring) (now : Z)
  (st : list report) (req : request) (ownerId : jsstring) :
  xClientId req = receivedHeader (js "x-client-id") (getAuthHeaders None ownerId) ->
  saveReport parseInsert sanitize production newId now st req = (clientIdRequired, st)
  /\ listReports st req = clientIdRequired
  /\ getReport st req = clientIdRequired
  /\ deleteReport st req = (clientIdRequired, st).
Proof.
  intros H.
  assert (N : getAnonymousUserId req = None).
  { unfold getAnonymousUserId. rewrite H.
    unfold getAuthHeaders, receivedHeader. destruct ownerId; reflexivity. }
  unfold saveReport, listReports, getReport, deleteReport. rewrite N. auto.
Qed.

Lemma saved_report_round_trip_witness :
  let d := {| rep_id := []; rep_userId := js "anon_someone-else"; rep_ownerId := js "o1";
              rep_toolkitCode := js "creditcommander"; rep_name := js "Acme LLC - LLC";
              rep_entityName := JStr (js "Acme LLC"); rep_entityType := JStr (js "LLC");
              rep_jurisdiction := JStr (js "TX"); rep_filingType := JStr (js "90 days");
              rep_deadline := JStr []; rep_htmlContent := js "<p>Roadmap</p><script>x</script>";
              rep_checksum := js "0002b5c4"; rep_metadata := JStr (js "{}");
              rep_createdAt := 0 |} in
  exists saved,
    saveReport (fun _ => inl d) (fun _ => js "<p>Roadmap</p>") true (js "r7") 1700000000000
      [] sampleRequest
    = ({| status := 200; body := reportJson saved |}, [] ++ [saved])
    /\ rep_id saved = js "r7"
    /\ rep_userId saved = js "anon_" ++ js "client-b"
    /\ rep_ownerId saved = []
    /\ rep_htmlContent saved = js "<p>Roadmap</p>"
    /\ rep_checksum saved = rep_checksum d
    /\ getReport ([] ++ [saved]) (withParamId sampleRequest (js "r7"))
       = {| status := 200; body := reportJson saved |}
    /\ deleteReport ([] ++ [saved]) (withParamId sampleRequest (js "r7"))
       = ({| status := 200; body := JObj [(js "success", JBool true)] |}, []).
Proof.
  intros d.
  apply (saved_report_round_trip (fun _ => inl d) (fun _ => js "<p>Roadmap</p>") true
           (js "r7") 1700000000000 [] sampleRequest (js "client-b") d).
  - reflexivity.
  - discriminate.
  - reflexivity.
  - simpl. tauto.
Defined.

Lemma list_is_the_callers_newest_first_witness :
  exists reports,
    listReports sampleStore sampleRequest
    = {| status := 200; body := JArr (map reportSummary reports) |}
    /\ (forall r, In r reports <->
                  In r sampleStore
                  /\ listedFor (js "anon_" ++ js "client-b") (js "creditcommander") r)
    /\ StronglySorted (fun x y => rep_createdAt y <= rep_createdAt x) reports
    /\ (uniqueIds sampleStore -> NoDup (map rep_id reports)).
Proof.
  apply (list_is_the_callers_newest_first sampleStore sampleRequest (js "client-b")
           (js "creditcommander")); [reflexivity | discriminate | reflexivity | discriminate].
Defined.

Lemma delete_removes_only_the_named_report_witness :
  exists st',
    deleteReport sampleStore
      (withParamId sampleRequest (rep_id (sampleReport "r3" "anon_client-b" "grantgenie" 3)))
    = ({| status := 200; body := JObj [(js "success", JBool true)] |}, st')
    /\ (forall x, In x st' <->
                  In x sampleStore /\ x <> sampleReport "r3" "anon_client-b" "grantgenie" 3)
    /\ getReport st'
         (withParamId sampleRequest (rep_id (sampleReport "r3" "anon_client-b" "grantgenie" 3)))
       = {| status := 404; body := errorBody "Report not found." |}
    /\ deleteReport st'
         (withParamId sampleRequest (rep_id (sampleReport "r3" "anon_client-b" "grantgenie" 3)))
       = ({| status := 404; body := errorBody "Report not found or access denied." |}, st').
Proof.
  apply (delete_removes_only_the_named_report sampleStore
           (sampleReport "r3" "anon_client-b" "grantgenie" 3) sampleRequest (js "client-b")).
  - unfold uniqueIds. vm_compute.
    repeat (constructor; [simpl; intuition discriminate|]). constructor.
  - simpl. auto.
  - reflexivity.
  - discriminate.
  - reflexivity.
Defined.

Lemma guest_mode_requests_are_refused_witness :
  let req := {| xForwardedFor := HAbsent; xRealIp := HAbsent; remoteAddress := None;
                xClientId := None; reqMethod := js "GET"; reqParamId := js "r1";
                reqQueryToolkit := Some (js "creditcommander"); reqBody := JUndefined |} in
  saveReport (fun _ => inr storeError) (fun s => s) true (js "r9") 5 sampleStore req
  = (clientIdRequired, sampleStore)
  /\ listReports sampleStore req = clientIdRequired
  /\ getReport sampleStore req = clientIdRequired
  /\ deleteReport sampleStore req = (clientIdRequired, sampleStore).
Proof.
  intros req.
  apply (guest_mode_requests_are_refused (fun _ => inr storeError) (fun s => s) true
           (js "r9") 5 sampleStore req (js "3f2504e0-4f89-41d3-9a0c-0305e82c3301")).
  reflexivity.
Defined.

(* ------------------------------------------------------------------ *)
(** ** checksum: the form of the digest, and what it does not tell apart *)
(* ------------------------------------------------------------------ *)

Lemma hexDigit_lower d : 0 <= d < 16 -> isLowerHexDigit (hexDigit d).
Proof.
  intros H. unfold hexDigit, isLowerHexDigit. destruct (Z.ltb_spec d 10); lia.
Qed.

Lemma toHexAux_digits fuel : forall n acc,
  Forall isLowerHexDigit acc -> Forall isLowerHexDigit (toHexAux fuel n acc).
Proof.
  induction fuel as [|f IH]; intros n acc H; cbn [toHexAux]; auto.
  assert (D : Forall isLowerHexDigit (hexDigit (n mod 16) :: acc)).
  { constructor; auto. apply hexDigit_lower. apply Z.mod_pos_bound. lia. }
  destruct (n / 16 =? 0); auto.
Qed.

Lemma sliceLast_length k (s : jsstring) :
  (k <= List.length s)%nat -> List.length (sliceLast k s) = k.
Proof. intros H. unfold sliceLast. rewrite length_skipn. lia. Qed.

Lemma Forall_skipn {A} (P : A -> Prop) n (l : list A) :
  Forall P l -> Forall P (skipn n l).
Proof.
  intros H. rewrite <- (firstn_skipn n l) in H. apply Forall_app in H. apply H.
Qed.

(** X12. Whatever the string, the digest is exactly eight characters, each
    a digit of lower-case hexadecimal, and read as a number it is the
    32-bit hash taken modulo 2^32. *)
Theorem checksum_is_eight_hex_digits (s : jsstring) :
  List.length (checksum s) = 8%nat
  /\ Forall isLowerHexDigit (checksum s)
  /\ hexValue (checksum s) = checksum_hash s mod 2 ^ 32.
Proof.
  unfold checksum, js_ushr0, toUint32. split; [|split].
  - apply sliceLast_length. rewrite length_app. simpl. lia.
  - apply Forall_skipn, Forall_app. split.
    + repeat constructor; unfold isLowerHexDigit; simpl; lia.
    + apply toHexAux_digits. constructor.
  - apply checksum_format_value. apply Z.mod_pos_bound. lia.
Qed.

Lemma checksum_hash_app s t :
  checksum_hash (s ++ t) = fold_left checksum_step t (checksum_hash s).
Proof. unfold checksum_hash. apply fold_left_app. Qed.

(** X13. The digest does not tell apart every pair of texts, and where it
    fails it keeps failing: two strings with the same digest still have
    the same digest after the same text is appended to both. *)
Theorem checksum_collision_extends (s1 s2 t : jsstring) :
  checksum s1 = checksum s2 -> checksum (s1 ++ t) = checksum (s2 ++ t).
Proof.
  intros E. apply checksum_determines_hash in E.
  unfold checksum. now rewrite !checksum_hash_app, E.
Qed.

Lemma checksum_collision_extends_witness :
  js "bC" <> js "cb"
  /\ checksum (js "bC" ++ js " is due.</p>") = checksum (js "cb" ++ js " is due.</p>").
Proof.
  split; [discriminate|].
  apply (checksum_collision_extends (js "bC") (js "cb") (js " is due.</p>")).
  vm_compute. reflexivity.
Defined.

(* ------------------------------------------------------------------ *)
(** ** RenderPipeline: when the renderer throws *)
(* ------------------------------------------------------------------ *)

Lemma traverse_isSome {A B} (f : A -> option B) l :
  isSome (traverse f l) = forallb (fun x => isSome (f x)) l.
Proof.
  induction l as [|x l IH]; [reflexivity|]. cbn [traverse forallb].
  destruct (f x); cbn [isSome andb]; [|reflexivity].
  rewrite <- IH. destruct (traverse f l); reflexivity.
Qed.

Lemma forallb_permutation {A} (p : A -> bool) l1 l2 :
  Permutation l1 l2 -> forallb p l1 = forallb p l2.
Proof.
  induction 1; simpl; try congruence.
  destruct (p x), (p y); reflexivity.
Qed.

Lemma forallb_ext_in {A} (p q : A -> bool) l :
  (forall x, In x l -> p x = q x) -> forallb p l = forallb q l.
Proof.
  induction l as [|x l IH]; intros H; [reflexivity|]. cbn [forallb].
  rewrite (H x) by (now left). f_equal. apply IH. intros y Hy. apply H. now right.
Qed.

Lemma isPrefixOf_app s b : isPrefixOf s (s ++ b) = true.
Proof.
  induction s as [|c s IH]; [reflexivity|]. cbn [isPrefixOf app].
  now rewrite Z.eqb_refl, IH.
Qed.

Lemma includes_here s b : includes (s ++ b) s = true.
Proof.
  destruct s as [|c s]; [destruct b; reflexivity|].
  cbn [app includes]. change (c :: s ++ b) with ((c :: s) ++ b).
  now rewrite isPrefixOf_app.
Qed.

Lemma includes_skip a t p : includes t p = true -> includes (a ++ t) p = true.
Proof.
  intros H. induction a as [|c a IH]; [exact H|].
  cbn [app includes]. rewrite IH. apply orb_true_r.
Qed.

Section Renderable.

Variable toLowerCase : jsstring -> jsstring.
Variable textToHtml : jsstring -> jsstring.
Variable stringGtZero : jsstring -> bool.

Abbreviation renderHTML' := (renderStructuredHTML toLowerCase textToHtml stringGtZero).
Abbreviation renderVendors' := (renderVendorRecommendations toLowerCase textToHtml stringGtZero).
Abbreviation renderCards' := (renderCardRecommendations toLowerCase textToHtml).
Abbreviation renderVendorCard' := (renderVendorCard toLowerCase textToHtml stringGtZero).
Abbreviation renderCardCard' := (renderCardCard toLowerCase textToHtml).

Lemma odds_isSome x :
  isSome (getApprovalClass toLowerCase (prop x "approvalOdds"))
  && isSome (approvalTestId toLowerCase (prop x "approvalOdds"))
  = oddsRenderable x.
Proof.
  unfold oddsRenderable, getApprovalClass, approvalTestId.
  destruct (prop x "approvalOdds") as [| |b|n|s|l|o]; cbn [truthy negb isSome andb];
    try reflexivity.
  - destruct b; reflexivity.
  - destruct (negb (n =? 0)); reflexivity.
  - destruct s; cbn [negb isSome]; [reflexivity|].
    destruct (includes _ (js "high")); [reflexivity|].
    destruct (includes _ (js "medium")); [reflexivity|].
    destruct (includes _ (js "low")); reflexivity.
Qed.

Lemma renderBureaus_isSome x :
  isSome (renderBureaus textToHtml stringGtZero (prop x "reportsBureaus"))
  = bureausRenderable stringGtZero x.
Proof.
  unfold bureausRenderable, renderBureaus.
  destruct (truthy (prop x "reportsBureaus")
            && gtZero stringGtZero (prop (prop x "reportsBureaus") "length"));
    cbn [negb orb]; [|reflexivity].
  destruct (prop x "reportsBureaus"); reflexivity.
Qed.

Lemma renderVendorCard_isSome v :
  isSome (renderVendorCard' v) = vendorRenderable stringGtZero v.
Proof.
  unfold vendorRenderable, renderVendorCard.
  rewrite <- odds_isSome, <- renderBureaus_isSome.
  destruct (isNullish v); cbn [negb andb]; [reflexivity|].
  destruct (getApprovalClass toLowerCase (prop v "approvalOdds")); [|reflexivity].
  destruct (approvalTestId toLowerCase (prop v "approvalOdds")); [|reflexivity].
  destruct (renderBureaus textToHtml stringGtZero (prop v "reportsBureaus")); reflexivity.
Qed.

Lemma renderCardCard_isSome c :
  isSome (renderCardCard' c) = cardRenderable c.
Proof.
  unfold cardRenderable, renderCardCard.
  rewrite <- odds_isSome.
  destruct (isNullish c); cbn [negb andb]; [reflexivity|].
  destruct (getApprovalClass toLowerCase (prop c "approvalOdds")); [|reflexivity].
  destruct (approvalTestId toLowerCase (prop c "approvalOdds")); reflexivity.
Qed.

Lemma renderVendors_isSome vendors :
  isSome (renderVendors' vendors) = everyItem (vendorRenderable stringGtZero) vendors.
Proof.
  unfold renderVendorRecommendations, everyItem.
  destruct vendors as [| | | | |[|v vs]|]; try reflexivity.
  rewrite <- (forallb_ext_in _ _ (v :: vs) (fun x _ => renderVendorCard_isSome x)).
  rewrite <- traverse_isSome.
  destruct (traverse renderVendorCard' (v :: vs)); reflexivity.
Qed.

Lemma renderCards_isSome cards :
  isSome (renderCards' cards) = everyItem cardRenderable cards.
Proof.
  unfold renderCardRecommendations, everyItem.
  destruct cards as [| | | | |[|c cs]|]; try reflexivity.
  rewrite (forallb_permutation cardRenderable _ _ (sortByKey_is_permutation orderKey (c :: cs))).
  rewrite <- (forallb_ext_in _ _ (sortByKey orderKey (c :: cs))
                (fun x _ => renderCardCard_isSome x)).
  rewrite <- traverse_isSome.
  destruct (existsb isNullish (c :: cs)) eqn:E.
  - cbn [isSome]. symmetry. apply not_true_is_false. intros H.
    apply existsb_exists in E. destruct E as (x & Hx & Nx).
    rewrite traverse_isSome, forallb_forall in H.
    specialize (H x (proj2 (sortByKey_In orderKey x (c :: cs)) Hx)).
    unfold renderCardCard in H. now rewrite Nx in H.
  - destruct (traverse renderCardCard' (sortByKey orderKey (c :: cs))); reflexivity.
Qed.

(** X14. renderStructuredHTML throws whenever the payload is null or
    undefined or some element of the vendor or card list is not one that
    its card template can take (not null, with an approvalOdds that is
    absent or a string, and for a vendor a reportsBureaus that is an
    array unless it is falsy or without a positive length): one
    malformed recommendation loses the whole report.  For a payload and
    content in which no object has a property toString of its own (so
    that every conversion to a string returns) these are the only
    cases: otherwise it returns a report. *)
Theorem render_returns_exactly_when (payload generated : jsval) :
  let takes :=
    negb (isNullish payload)
    && everyItem (vendorRenderable stringGtZero)
         (fieldOr generated "vendorRecommendations" (JArr []))
    && everyItem cardRenderable (fieldOr generated "cardRecommendations" (JArr [])) in
  (takes = false -> renderHTML' payload generated = None)
  /\
  (plain payload = true -> plain generated = true -> takes = true ->
   exists html, renderHTML' payload generated = Some html).
Proof.
  intros takes.
  assert (E : isSome (renderHTML' payload generated) = takes).
  { unfold takes. rewrite <- renderVendors_isSome, <- renderCards_isSome.
    unfold renderStructuredHTML.
    destruct (isNullish payload); cbn [negb andb]; [reflexivity|].
    destruct (renderVendors' (fieldOr generated "vendorRecommendations" (JArr [])));
      [|reflexivity].
    destruct (renderCards' (fieldOr generated "cardRecommendations" (JArr []))); reflexivity. }
  split.
  - intros T. rewrite T in E.
    destruct (renderHTML' payload generated); [discriminate E|reflexivity].
  - intros _ _ T. rewrite T in E.
    destruct (renderHTML' payload generated) as [html|]; [|discriminate E].
    now exists html.
Qed.

(** X15. The minFico of a recommendation is put into the card without
    escaping: when it is a non-empty string, the HTML of the vendor card
    and of the business card contain that string as it came from the
    generator, whatever it holds. *)
Theorem minFico_is_not_escaped (x : jsval) (s : jsstring) :
  prop x "minFico" = JStr s -> s <> [] ->
  (vendorRenderable stringGtZero x = true ->
   exists html, renderVendorCard' x = Some html /\ includes html s = true)
  /\
  (cardRenderable x = true ->
   exists html, renderCardCard' x = Some html /\ includes html s = true).
Proof.
  intros M N.
  assert (T : toStr (jsOr (prop x "minFico") (JStr (js "N/A"))) = s).
  { rewrite M. unfold jsOr. destruct s; [congruence|reflexivity]. }
  split; intros R.
  - rewrite <- renderVendorCard_isSome in R. unfold renderVendorCard in R |- *.
    destruct (isNullish x); [discriminate R|].
    destruct (getApprovalClass toLowerCase (prop x "approvalOdds")); [|discriminate R].
    destruct (approvalTestId toLowerCase (prop x "approvalOdds")); [|discriminate R].
    destruct (renderBureaus textToHtml stringGtZero (prop x "reportsBureaus"));
      [|discriminate R].
    eexists. split; [reflexivity|]. rewrite T.
    repeat first [apply includes_here | apply includes_skip].
  - rewrite <- renderCardCard_isSome in R. unfold renderCardCard in R |- *.
    destruct (isNullish x); [discriminate R|].
    destruct (getApprovalClass toLowerCase (prop x "approvalOdds")); [|discriminate R].
    destruct (approvalTestId toLowerCase (prop x "approvalOdds")); [|discriminate R].
    eexists. split; [reflexivity|]. cbv zeta. rewrite T.
    repeat first [apply includes_here | apply includes_skip].
Qed.

End Renderable.

Lemma minFico_is_not_escaped_witness :
  let x := JObj [ (js "name", JStr (js "Uline")); (js "approvalOdds", JStr (js "High"));
                  (js "minFico", JStr (js "<img src=x onerror=alert(1)>")) ] in
  (exists html, renderVendorCard asciiLower domTextToHtml (fun _ => false) x = Some html
                /\ includes html (js "<img src=x onerror=alert(1)>") = true)
  /\ (exists html, renderCardCard asciiLower domTextToHtml x = Some html
                   /\ includes html (js "<img src=x onerror=alert(1)>") = true).
Proof.
  intros x.
  destruct (minFico_is_not_escaped asciiLower domTextToHtml (fun _ => false) x
              (js "<img src=x onerror=alert(1)>") eq_refl ltac:(discriminate)) as [V C].
  split; [apply V | apply C]; reflexivity.
Defined.

Lemma render_returns_exactly_when_witness :
  renderStructuredHTML asciiLower domTextToHtml (fun _ => false) sampleFormData
    (JObj [ (js "vendorRecommendations", JArr [vendorUline; JNull]) ]) = None
  /\ exists html,
       renderStructuredHTML asciiLower domTextToHtml (fun _ => false) sampleFormData
         (JObj [ (js "vendorRecommendations", JArr [vendorUline; vendorQuill]);
                 (js "cardRecommendations", JArr [cardChase; cardAmex]) ]) = Some html.
Proof.
  split.
  - apply (render_returns_exactly_when asciiLower domTextToHtml (fun _ => false)
             sampleFormData (JObj [ (js "vendorRecommendations", JArr [vendorUline; JNull]) ])).
    reflexivity.
  - apply (render_returns_exactly_when asciiLower domTextToHtml (fun _ => false)
             sampleFormData
             (JObj [ (js "vendorRecommendations", JArr [vendorUline; vendorQuill]);
                     (js "cardRecommendations", JArr [cardChase; cardAmex]) ]));
      reflexivity.
Defined.

(* ------------------------------------------------------------------ *)
(** ** POST /api/explain *)
(* ------------------------------------------------------------------ *)

Lemma dropWhile_suffix {A} (p : A -> bool) l :
  exists pre, l = pre ++ dropWhile p l.
Proof.
  induction l as [|x l [pre IH]]; [exists []; reflexivity|].
  cbn [dropWhile]. destruct (p x).
  - exists (x :: pre). cbn [app]. now rewrite <- IH.
  - exists []. reflexivity.
Qed.

Lemma dropWhile_head {A} (p : A -> bool) l x t :
  dropWhile p l = x :: t -> p x = false.
Proof.
  induction l as [|y l IH]; cbn [dropWhile]; [discriminate|].
  destruct (p y) eqn:E; auto. intros H. inversion H; subst. exact E.
Qed.

Lemma dropWhile_fixed {A} (p : A -> bool) x t :
  p x = false -> dropWhile p (x :: t) = x :: t.
Proof. intros H. cbn [dropWhile]. now rewrite H. Qed.

Lemma Forall_dropWhile {A} (P : A -> Prop) (p : A -> bool) l :
  Forall P l -> Forall P (dropWhile p l).
Proof.
  intros H. destruct (dropWhile_suffix p l) as [pre E]. rewrite E in H.
  apply Forall_app in H. apply H.
Qed.

Lemma Forall_trim (P : Z -> Prop) s : Forall P s -> Forall P (trim s).
Proof.
  intros H. unfold trim. apply Forall_rev, Forall_dropWhile, Forall_rev, Forall_dropWhile, H.
Qed.

(** A trimmed string neither starts nor ends with white space, so that
    trimming it again changes nothing. *)
Lemma trim_idempotent s : trim (trim s) = trim s.
Proof.
  unfold trim. set (a := dropWhile isWhiteSpace s).
  set (b := dropWhile isWhiteSpace (rev a)).
  assert (Hb : dropWhile isWhiteSpace b = b).
  { unfold b. destruct (dropWhile isWhiteSpace (rev a)) as [|x t] eqn:E; [reflexivity|].
    apply dropWhile_fixed. eapply dropWhile_head. exact E. }
  assert (Hr : dropWhile isWhiteSpace (rev b) = rev b).
  { destruct (rev b) as [|x t] eqn:E; [reflexivity|].
    apply dropWhile_fixed.
    destruct (dropWhile_suffix isWhiteSpace (rev a)) as [pre P]. fold b in P.
    apply (f_equal (@rev Z)) in P. rewrite rev_involutive, rev_app_distr, E in P.
    unfold a in P. cbn [app] in P. eapply dropWhile_head. exact P. }
  now rewrite Hr, rev_involutive, Hb.
Qed.

Lemma map_id_on {A} (f : A -> A) l :
  Forall (fun x => f x = x) l -> map f l = l.
Proof. induction 1 as [|x l E _ IH]; cbn [map]; congruence. Qed.

(** X16. On a string sanitizeForPrompt returns a text without double
    quote, line feed or carriage return and without white space at
    either end, and sanitizing again changes nothing; but only strings
    are sanitized: a string wrapped in a one-element array comes back
    unchanged, quotes and line breaks included. *)
Theorem sanitizeForPrompt_strings_only (s : jsstring) :
  Forall (fun c => promptBreaking c = false) (sanitizeForPrompt (JStr s))
  /\ trim (sanitizeForPrompt (JStr s)) = sanitizeForPrompt (JStr s)
  /\ sanitizeForPrompt (JStr (sanitizeForPrompt (JStr s))) = sanitizeForPrompt (JStr s)
  /\ sanitizeForPrompt (JArr [JStr s]) = s.
Proof.
  assert (C : Forall (fun c => promptBreaking c = false) (sanitizeForPrompt (JStr s))).
  { cbn [sanitizeForPrompt]. apply Forall_trim, Forall_forall. intros c H.
    apply in_map_iff in H. destruct H as (x & <- & _).
    destruct (promptBreaking x) eqn:E; [reflexivity|exact E]. }
  split; [exact C|]. split; [apply trim_idempotent|]. split; [|reflexivity].
  cbn [sanitizeForPrompt] in *. rewrite map_id_on.
  - apply trim_idempotent.
  - eapply Forall_impl; [|exact C]. cbv beta. intros c ->. reflexivity.
Qed.

Lemma explainOnError_status error : In (status (explainOnError error)) [503; 429; 500].
Proof.
  unfold explainOnError.
  destruct (strictEqStr _ _); [simpl; auto|].
  destruct (strictEqNum _ 429); simpl; auto.
Qed.

(** X17. /api/explain is outside the 30-report cap: whatever the request
    and the generator, it sends no query to the usage store and writes
    nothing to it.  A request with a roadmap and form data from which
    the prompt can be built is answered 200 with the generator's
    explanation (503, 429 or 500 when the generator fails), and 500
    without a call of the generator when the prompt cannot be built;
    this also holds for a client whose only row holds 30 and whom
    /api/generate answers 429. *)
Theorem explain_is_not_metered (toLowerCase : jsstring -> jsstring)
  (unique_key : bool) (outage : nat -> bool) (req : request) (ai : jsval)
  (gen : gen_outcome)
  (m : list (usage_row ip_tool) -> list (usage_row ip_tool)) (db : usage_db ip_tool) :
  (queries (snd (explainRoute req gen m db)) = queries db
   /\ (table (snd (explainRoute req gen m db)) = table db
       \/ table (snd (explainRoute req gen m db)) = m (table db)))
  /\
  (isNullish (reqBody req) = false ->
   truthy (prop (reqBody req) "roadmap") = true ->
   truthy (prop (reqBody req) "formData") = true ->
   (explainPromptBuilds (prop (reqBody req) "formData") = true ->
    explainRoute req (GenReturns ai) m db
    = (Ok {| status := 200;
             body := JObj [ (js "success", JBool true); (js "explanation", ai) ] |},
       {| table := m (table db); queries := queries db |})
    /\ (forall e, exists r,
          explainRoute req (GenThrows e) m db
          = (Ok r, {| table := m (table db); queries := queries db |})
          /\ In (status r) [503; 429; 500]))
   /\
   (explainPromptBuilds (prop (reqBody req) "formData") = false ->
    explainRoute req gen m db
    = (Ok {| status := 500;
             body := errorBody "Failed to generate explanation. Please try again." |}, db))
   /\
   (stringable (jsOr (prop (reqBody req) "tool") (JStr creditcommander)) = true ->
    (exists row,
        filter (matchesKey ip_tool_eqb
                  (getClientIp req, normalizeTool toLowerCase (prop (reqBody req) "tool")))
          (table db) = [row]
        /\ 30 <= reportCount row) ->
    outage (queries db) = false -> getClientIp req <> unknownIp ->
    exists r db',
      expressGenerate toLowerCase unique_key outage req gen m db = (Ok r, db')
      /\ status r = 429)).
Proof.
  split.
  { unfold explainRoute, tryCatch, bind, awaitGenerator, ret, throw.
    destruct (isNullish (reqBody req)); [cbn; auto|].
    destruct (negb (truthy (prop (reqBody req) "roadmap"))
              || negb (truthy (prop (reqBody req) "formData"))); [cbn; auto|].
    destruct (negb (explainPromptBuilds (prop (reqBody req) "formData"))); [cbn; auto|].
    destruct gen; cbn; auto. }
  intros N R F. unfold explainRoute. rewrite N, R, F. cbn [negb orb].
  split; [|split].
  - intros B. rewrite B. cbn [negb]. split; [reflexivity|].
    intros e. unfold tryCatch, bind, awaitGenerator, ret. eexists. split; [reflexivity|].
    apply explainOnError_status.
  - intros B. rewrite B. reflexivity.
  - intros _ (row & Frow & C) O U. unfold expressGenerate. rewrite N.
    unfold bind at 1, checkUsageLimit, tryCatch, bind, dbSelect, query, ret.
    destruct (jsstring_eqb (getClientIp req) unknownIp) eqn:E;
      [apply jsstring_eqb_eq in E; contradiction|].
    rewrite O. unfold sqlSelect. rewrite Frow. cbn [firstn].
    destruct (Z.geb_spec (reportCount row) 30) as [G|G]; [|lia].
    cbn [allowed negb]. eexists _, _. split; reflexivity.
Qed.

Lemma explain_is_not_metered_witness :
  explainRoute explainRequest (GenReturns sampleAnswer) (fun t => t) expressDb30
  = (Ok {| status := 200;
           body := JObj [ (js "success", JBool true); (js "explanation", sampleAnswer) ] |},
     expressDb30)
  /\ exists r db',
       expressGenerate asciiLower true (fun _ => false) explainRequest
         (GenReturns sampleAnswer) (fun t => t) expressDb30 = (Ok r, db')
       /\ status r = 429.
Proof.
  destruct (explain_is_not_metered asciiLower true (fun _ => false) explainRequest
              sampleAnswer (GenReturns sampleAnswer) (fun t => t) expressDb30)
    as (_ & H).
  destruct (H eq_refl eq_refl eq_refl) as (A & _ & C).
  split; [apply A; reflexivity|].
  apply C; [reflexivity | | reflexivity | vm_compute; discriminate].
  eexists. split; [vm_compute; reflexivity|]. vm_compute. discriminate.
Defined.

(* ------------------------------------------------------------------ *)
(** ** setCORS *)
(* ------------------------------------------------------------------ *)

Lemma dotStarThenEnd_spec suffix s :
  dotStarThenEnd suffix s = true <->
  exists host, s = host ++ suffix /\ Forall (fun c => isLineTerminator c = false) host.
Proof.
  split.
  - induction s as [|c t IH]; cbn [dotStarThenEnd]; rewrite orb_true_iff.
    + intros [E|E]; [|discriminate]. apply jsstring_eqb_eq in E. exists []. split; auto.
    + intros [E|E].
      * apply jsstring_eqb_eq in E. exists []. split; auto.
      * apply andb_true_iff in E. destruct E as [L D]. apply negb_true_iff in L.
        destruct (IH D) as (h & -> & F). exists (c :: h). split; auto.
  - intros (h & -> & F). induction F as [|c h L _ IH].
    + destruct suffix; cbn [dotStarThenEnd app]; now rewrite jsstring_eqb_refl.
    + cbn [dotStarThenEnd app]. rewrite L, IH. apply orb_true_r.
Qed.

Lemma isPrefixOf_split p s :
  isPrefixOf p s = true -> s = p ++ skipn (List.length p) s.
Proof.
  revert s. induction p as [|a p IH]; intros s H; [reflexivity|].
  destruct s as [|b s]; [discriminate|]. cbn [isPrefixOf] in H.
  apply andb_true_iff in H. destruct H as [E H]. apply Z.eqb_eq in E. subst b.
  cbn [List.length skipn app]. f_equal. now apply IH.
Qed.

Lemma testHttpsSuffix_spec suffix s :
  testHttpsSuffix suffix s = true <-> matchesPattern suffix s.
Proof.
  unfold matchesPattern. split.
  - induction s as [|c t IH]; cbn [testHttpsSuffix]; rewrite orb_true_iff.
    + intros [E|E]; [|discriminate]. apply andb_true_iff in E. destruct E as [E _].
      discriminate E.
    + intros [E|E].
      * apply andb_true_iff in E. destruct E as [P D].
        apply dotStarThenEnd_spec in D. destruct D as (h & D & F).
        apply isPrefixOf_split in P. change (List.length (js "https://")) with 8%nat in P.
        exists [], h. split; auto. cbn [app]. rewrite <- D. exact P.
      * destruct (IH E) as (p & h & -> & F). exists (c :: p), h. auto.
  - intros (p & h & -> & F). induction p as [|c p IH].
    + assert (D : dotStarThenEnd suffix (h ++ suffix) = true)
        by (apply dotStarThenEnd_spec; eauto).
      cbn [app]. change (js "https://" ++ h ++ suffix)
        with (104 :: 116 :: 116 :: 112 :: 115 :: 58 :: 47 :: 47 :: h ++ suffix).
      cbn [testHttpsSuffix skipn].
      replace (isPrefixOf (js "https://")
                 (104 :: 116 :: 116 :: 112 :: 115 :: 58 :: 47 :: 47 :: h ++ suffix))
        with true by reflexivity.
      now rewrite D.
    + cbn [app testHttpsSuffix]. rewrite IH. apply orb_true_r.
Qed.

(** X18. setCORS always allows credentials and names one origin, the
    request's or the primary one.  In production it echoes the request's
    origin exactly when that is the primary origin or one that a pattern
    matches: any text, then https://, then anything without a line break,
    then .vercel.app or .replit.dev at the end, so every site hosted
    under those two domains is allowed; outside production it also
    echoes every origin that starts with http://localhost. *)
Theorem cors_origin_policy (production : bool) (o : jsstring) :
  o <> [] ->
  let allowed :=
    o = primaryOrigin \/ matchesPattern (js ".vercel.app") o
    \/ matchesPattern (js ".replit.dev") o in
  headerValue "Access-Control-Allow-Credentials" (setCORS production (Some o))
  = Some (js "true")
  /\ (allowed ->
      headerValue "Access-Control-Allow-Origin" (setCORS production (Some o)) = Some o)
  /\ (~ allowed -> production = true ->
      headerValue "Access-Control-Allow-Origin" (setCORS production (Some o))
      = Some primaryOrigin)
  /\ (production = false -> isPrefixOf (js "http://localhost") o = true ->
      headerValue "Access-Control-Allow-Origin" (setCORS production (Some o)) = Some o).
Proof.
  intros N allowed.
  assert (A : originAllowed o = true <-> allowed).
  { unfold originAllowed, allowed.
    rewrite !orb_true_iff, !testHttpsSuffix_spec, jsstring_eqb_eq.
    split; [intros [[E|E]|E]; auto|intros [E|[E|E]]; auto]. }
  unfold setCORS.
  destruct (negb production && isPrefixOf (js "http://localhost") o) eqn:D.
  - repeat split; try reflexivity.
    intros _ P. subst production. discriminate D.
  - destruct o as [|c s]; [congruence|]. rewrite andb_true_r.
    destruct (originAllowed (c :: s)) eqn:Al.
    + repeat split; try reflexivity. intros NA. exfalso. apply NA, A. reflexivity.
    + split; [reflexivity|]. split; [|split].
      * intros H. apply A in H. discriminate H.
      * reflexivity.
      * intros -> P. rewrite P in D. discriminate D.
Qed.

Lemma cors_origin_policy_witness :
  headerValue "Access-Control-Allow-Origin"
    (setCORS true (Some (js "http://evil.example/#https://x.vercel.app")))
  = Some (js "http://evil.example/#https://x.vercel.app")
  /\ headerValue "Access-Control-Allow-Origin"
       (setCORS true (Some (js "https://credit.yourbizguru.com.evil.example")))
     = Some primaryOrigin
  /\ headerValue "Access-Control-Allow-Origin"
       (setCORS false (Some (js "http://localhost.evil.example")))
     = Some (js "http://localhost.evil.example").
Proof.
  split; [|split].
  - destruct (cors_origin_policy true (js "http://evil.example/#https://x.vercel.app")
                ltac:(discriminate)) as (_ & A & _).
    apply A. right. left. exists (js "http://evil.example/#"), (js "x").
    split; [reflexivity|]. repeat constructor.
  - destruct (cors_origin_policy true (js "https://credit.yourbizguru.com.evil.example")
                ltac:(discriminate)) as (_ & _ & B & _).
    apply B; [|reflexivity].
    intros [E|[E|E]]; [discriminate E| |];
      apply testHttpsSuffix_spec in E; vm_compute in E; discriminate E.
  - destruct (cors_origin_policy false (js "http://localhost.evil.example")
                ltac:(discriminate)) as (_ & _ & _ & C).
    apply C; reflexivity.
Defined.

(* ------------------------------------------------------------------ *)
(** ** getOrCreateOwnerId *)
(* ------------------------------------------------------------------ *)

Lemma toString16_digit v : 0 <= v < 16 -> toString16 v = [hexDigit v].
Proof.
  intros H. unfold toString16. cbn [toHexAux].
  rewrite Z.mod_small, Z.div_small by lia. reflexivity.
Qed.

Lemma variant_digit r :
  0 <= r < 16 -> 8 <= Z.lor (Z.land r 3) 8 < 12.
Proof.
  intros H.
  assert (E : r = 0 \/ r = 1 \/ r = 2 \/ r = 3 \/ r = 4 \/ r = 5 \/ r = 6 \/ r = 7
              \/ r = 8 \/ r = 9 \/ r = 10 \/ r = 11 \/ r = 12 \/ r = 13 \/ r = 14
              \/ r = 15) by lia.
  repeat (destruct E as [->|E]; [simpl; lia|]). subst. simpl. lia.
Qed.

Lemma fillUuid_shape rnd template :
  (forall i, 0 <= rnd i < 16) ->
  forall i, hasShape template (fillUuid rnd i template) = true.
Proof.
  intros R. induction template as [|c t IH]; intros i; [reflexivity|].
  cbn [fillUuid]. unfold uuidDigit.
  destruct (Z.eqb_spec c 120) as [->|Nx].
  - cbn [orb]. rewrite toString16_digit by apply R. cbn [app hasShape].
    rewrite Z.eqb_refl, IH, andb_true_r.
    specialize (R i). unfold hexDigit, isLowerHexDigitb.
    destruct (Z.ltb_spec (rnd i) 10).
    + replace (48 <=? 48 + rnd i) with true by (symmetry; apply Z.leb_le; lia).
      replace (48 + rnd i <=? 57) with true by (symmetry; apply Z.leb_le; lia).
      reflexivity.
    + replace (97 <=? 87 + rnd i) with true by (symmetry; apply Z.leb_le; lia).
      replace (87 + rnd i <=? 102) with true by (symmetry; apply Z.leb_le; lia).
      apply orb_true_r.
  - cbn [orb]. destruct (Z.eqb_spec c 121) as [->|Ny].
    + pose proof (variant_digit (rnd i) (R i)) as V.
      rewrite toString16_digit by lia. cbn [app hasShape].
      change (121 =? 120) with false. rewrite Z.eqb_refl, IH, andb_true_r.
      unfold hexDigit.
      assert (E : Z.lor (Z.land (rnd i) 3) 8 = 8 \/ Z.lor (Z.land (rnd i) 3) 8 = 9
                  \/ Z.lor (Z.land (rnd i) 3) 8 = 10 \/ Z.lor (Z.land (rnd i) 3) 8 = 11)
        by lia.
      destruct E as [-> | [-> | [-> | ->]]]; reflexivity.
    + cbn [hasShape]. rewrite (proj2 (Z.eqb_neq c 120) Nx), (proj2 (Z.eqb_neq c 121) Ny).
      now rewrite Z.eqb_refl, IH.
Qed.

(** X19. getOrCreateOwnerId returns a non-empty id and leaves exactly that
    id in localStorage, so that every later call returns the same id
    whatever Math.random gives then; an id found in storage is returned
    as it is, and an id that had to be made has the shape of a version-4
    UUID: 36 characters, hyphens at the four places, 4 as the version
    digit, one of 8, 9, a, b as the variant digit and lower-case
    hexadecimal digits elsewhere. *)
Theorem owner_id_is_stable_uuid (rnd rnd' : nat -> Z) (stored : option jsstring) :
  (forall i, 0 <= rnd i < 16) ->
  let id := fst (getOrCreateOwnerId rnd stored) in
  let stored' := snd (getOrCreateOwnerId rnd stored) in
  id <> [] /\ stored' = Some id
  /\ getOrCreateOwnerId rnd' stored' = (id, stored')
  /\ (forall c s, stored = Some (c :: s) -> id = c :: s)
  /\ (stored = None \/ stored = Some [] ->
      hasShape uuidTemplate id = true /\ List.length id = 36%nat).
Proof.
  intros R id stored'.
  assert (S0 : hasShape uuidTemplate (fillUuid rnd 0 uuidTemplate) = true)
    by now apply fillUuid_shape.
  assert (L : forall t x, hasShape t x = true -> List.length x = List.length t).
  { induction t as [|c t IH]; intros [|d x] H; try discriminate; [reflexivity|].
    cbn [hasShape] in H. apply andb_true_iff in H. cbn [List.length]. f_equal.
    apply IH, H. }
  pose proof (L _ _ S0) as L0. change (List.length uuidTemplate) with 36%nat in L0.
  assert (N : fillUuid rnd 0 uuidTemplate <> []).
  { intros E. rewrite E in L0. discriminate L0. }
  unfold id, stored', getOrCreateOwnerId.
  destruct stored as [[|c s]|]; cbn [fst snd].
  - destruct (fillUuid rnd 0 uuidTemplate) as [|d x]; [congruence|].
    repeat split; try discriminate; auto.
  - split; [discriminate|]. split; [reflexivity|]. split; [reflexivity|].
    split; [intros ? ? E; now inversion E|].
    intros [E|E]; discriminate E.
  - destruct (fillUuid rnd 0 uuidTemplate) as [|d x]; [congruence|].
    repeat split; try discriminate; auto.
Qed.

Lemma owner_id_is_stable_uuid_witness :
  let rnd := fun i => Z.of_nat (i * 7 mod 16) in
  let id := fst (getOrCreateOwnerId rnd None) in
  id = js "07e5c3a1-8f6d-44b2-907e-5c3a18f6d4b2"
  /\ getOrCreateOwnerId (fun _ => 0) (snd (getOrCreateOwnerId rnd None))
     = (id, snd (getOrCreateOwnerId rnd None))
  /\ hasShape uuidTemplate id = true.
Proof.
  intros rnd id.
  assert (R : forall i, 0 <= rnd i < 16).
  { intros i. unfold rnd. pose proof (Nat.mod_upper_bound (i * 7) 16). lia. }
  destruct (owner_id_is_stable_uuid rnd (fun _ => 0) None R) as (_ & _ & S1 & _ & U).
  split; [|split].
  - vm_compute. reflexivity.
  - exact S1.
  - apply U. now left.
Defined.

(* ------------------------------------------------------------------ *)
(** ** buildFileName *)
(* ------------------------------------------------------------------ *)

Lemma replaceUnsafeRuns_safe s : allFileSafe (replaceUnsafeRuns s).
Proof.
  unfold allFileSafe. induction s as [|c t IH]; [constructor|].
  cbn [replaceUnsafeRuns]. destruct (fileSafe c) eqn:E; [constructor; auto|].
  destruct t as [|c' t']; [repeat constructor|].
  destruct (fileSafe c'); [constructor; auto|exact IH].
Qed.

Lemma uint_text_safe d : allFileSafe (js (NilEmpty.string_of_uint d)).
Proof.
  unfold allFileSafe.
  induction d; cbn [NilEmpty.string_of_uint]; try constructor; auto.
Qed.

Lemma decimal_safe n : allFileSafe (decimal n).
Proof.
  unfold decimal, NilZero.string_of_int, NilZero.string_of_uint.
  destruct (Z.to_int n) as [d|d].
  - destruct d; try apply uint_text_safe. repeat constructor.
  - change (js (String "-" ?s)) with (45 :: js s). constructor; [reflexivity|].
    destruct d; try apply uint_text_safe. repeat constructor.
Qed.

Lemma padStart2_safe s : allFileSafe s -> allFileSafe (padStart2 s).
Proof.
  intros H. unfold padStart2, allFileSafe. apply Forall_app. split; [|exact H].
  destruct (2 - List.length s)%nat as [|[|[|n]]]; repeat constructor.
  assert (forall k, Forall (fun c => fileSafe c = true) (repeat 48 k)) as R
    by (induction k; constructor; auto).
  apply R.
Qed.

(** X20. Whatever the business name and the date, the name that
    buildFileName gives the PDF is a stem of letters, digits, hyphens and
    underscores only (every run of other characters of the business name
    has become one underscore) followed by .pdf: it holds no path
    separator, no white space and no dot but the one of the extension. *)
Theorem pdf_file_name_is_safe (businessName : jsval) (date : local_date) :
  exists stem,
    buildFileName businessName date = stem ++ js ".pdf"
    /\ Forall (fun c => fileSafe c = true) stem
    /\ isPrefixOf (js "CreditCommander_") stem = true.
Proof.
  unfold buildFileName.
  exists (js "CreditCommander_" ++ safeName businessName ++ js "_"
          ++ yearText date ++ js "-" ++ monthText date ++ js "-" ++ dayText date).
  split; [now rewrite <- !app_assoc|]. split; [|apply isPrefixOf_app].
  assert (N : allFileSafe (js "NaN")) by (repeat constructor).
  assert (A : forall a b, allFileSafe a -> allFileSafe b -> allFileSafe (a ++ b)).
  { intros a b Ha Hb. apply Forall_app. now split. }
  assert (Y : allFileSafe (yearText date))
    by (destruct date as [[[y m] d]|]; [apply decimal_safe|exact N]).
  assert (M : allFileSafe (monthText date))
    by (apply padStart2_safe; destruct date as [[[y m] d]|]; [apply decimal_safe|exact N]).
  assert (D : allFileSafe (dayText date))
    by (apply padStart2_safe; destruct date as [[[y m] d]|]; [apply decimal_safe|exact N]).
  change (allFileSafe (js "CreditCommander_" ++ safeName businessName ++ js "_"
          ++ yearText date ++ js "-" ++ monthText date ++ js "-" ++ dayText date)).
  apply A; [repeat constructor|].
  apply A; [apply replaceUnsafeRuns_safe|].
  apply A; [repeat constructor|].
  apply A; [exact Y|].
  apply A; [repeat constructor|].
  apply A; [exact M|].
  apply A; [repeat constructor|exact D].
Qed.

(* ------------------------------------------------------------------ *)
(** ** Credit score tracker *)
(* ------------------------------------------------------------------ *)

Lemma Qmin_halves a b :
  (Qmin (inject_Z a) (inject_Z b / inject_Z 2) == inject_Z (30 * Z.min (2 * a) b) / inject_Z 60)%Q.
Proof.
  destruct (Q.min_spec (inject_Z a) (inject_Z b / inject_Z 2)) as [[L E]|[L E]]; rewrite E.
  - assert (H : 2 * a < b).
    { unfold Qlt, Qdiv, Qmult, Qinv, inject_Z in L. simpl in L. lia. }
    rewrite Z.min_l by lia. unfold Qeq, Qdiv, Qmult, Qinv, inject_Z. cbn -[Z.mul Z.add Z.min Z.sub]. lia.
  - assert (H : b <= 2 * a).
    { unfold Qle, Qdiv, Qmult, Qinv, inject_Z in L. simpl in L. lia. }
    rewrite Z.min_r by lia. unfold Qeq, Qdiv, Qmult, Qinv, inject_Z. cbn -[Z.mul Z.add Z.min Z.sub]. lia.
Qed.

Lemma Qmin_wholes a b :
  (Qmin (inject_Z a) (inject_Z b) == inject_Z (60 * Z.min a b) / inject_Z 60)%Q.
Proof.
  destruct (Q.min_spec (inject_Z a) (inject_Z b)) as [[L E]|[L E]]; rewrite E.
  - assert (H : a < b) by (rewrite Zlt_Qlt; exact L).
    rewrite Z.min_l by lia. unfold Qeq, Qdiv, Qmult, Qinv, inject_Z. cbn -[Z.mul Z.add Z.min Z.sub]. lia.
  - assert (H : b <= a) by (rewrite Zle_Qle; exact L).
    rewrite Z.min_r by lia. unfold Qeq, Qdiv, Qmult, Qinv, inject_Z. cbn -[Z.mul Z.add Z.min Z.sub]. lia.
Qed.

Lemma sixtieths_add a b :
  (inject_Z a / inject_Z 60 + inject_Z b / inject_Z 60 == inject_Z (a + b) / inject_Z 60)%Q.
Proof. unfold Qeq, Qdiv, Qplus, Qmult, Qinv, inject_Z. cbn -[Z.mul Z.add Z.min Z.sub]. lia. Qed.

Lemma mathRound_sixtieths n :
  mathRound (inject_Z n / inject_Z 60) = (n + 30) / 60.
Proof.
  unfold mathRound.
  assert (E : (inject_Z n / inject_Z 60 + (1 # 2) == inject_Z (n + 30) / inject_Z 60)%Q).
  { unfold Qeq, Qdiv, Qplus, Qmult, Qinv, inject_Z. cbn -[Z.mul Z.add Z.min Z.sub]. lia. }
  rewrite E. unfold Qdiv, Qmult, Qinv, inject_Z, Qfloor. cbn -[Z.mul Z.add Z.div]. now rewrite Z.mul_1_r.
Qed.

Lemma calculateProjectedScore_sixtieths c u t l d :
  calculateProjectedScore c u t l d
  = Z.min ((projectedSixtieths c u t l d + 30) / 60) 850.
Proof.
  unfold calculateProjectedScore, projectedSixtieths. f_equal.
  rewrite <- mathRound_sixtieths. unfold mathRound. apply Qfloor_comp.
  apply Qplus_comp; [|reflexivity]. cbv zeta.
  destruct (gtb u 30 && geb d 30), ((t <? 5) && geb d 60), (gtb l 0 && geb d 90);
    rewrite ?(Qmin_halves 15 (u - 30)), ?(Qmin_wholes 10 ((5 - t) * 2)),
      ?(Qmin_wholes 15 (l * 5));
    unfold Qeq, Qdiv, Qplus, Qmult, Qinv, inject_Z;
    cbn -[Z.mul Z.add Z.min Z.sub]; lia.
Qed.

(** X21. For whole-number inputs of moderate size (at most 2^50 in
    absolute value, where the engine's arithmetic is exact) the score
    milestones of generateScoreProjection start at the current score
    (650 when the FICO field is 0), never decrease from 30 to 60 to 90
    days and never exceed 850; the 90-day score is at most 43 points
    above the current one, and for a current score of at most 850 no
    projected score lies below it and the 90-day score is at least 3
    points higher or 850. *)
Theorem score_projection_is_monotone_and_capped (ownerFico utilization tradeLines latePayments : Z) :
  moderate ownerFico -> moderate utilization -> moderate tradeLines ->
  moderate latePayments ->
  exists s0 s30 s60 s90,
    scoreMilestones ownerFico utilization tradeLines latePayments
    = [(0, s0); (30, s30); (60, s60); (90, s90)]
    /\ s0 = (if ownerFico =? 0 then 650 else ownerFico)
    /\ s30 <= s60 <= s90 /\ s90 <= 850 /\ s90 <= s0 + 43
    /\ (s0 <= 850 -> s0 <= s30 /\ Z.min (s0 + 3) 850 <= s90).
Proof.
  intros _ _ _ _. unfold scoreMilestones.
  set (c := if ownerFico =? 0 then 650 else ownerFico).
  eexists _, _, _, _. split; [reflexivity|]. split; [reflexivity|].
  rewrite !calculateProjectedScore_sixtieths. unfold projectedSixtieths, gtb, geb.
  change (30 <=? 30) with true. change (60 <=? 30) with false.
  change (90 <=? 30) with false. change (30 <=? 60) with true.
  change (60 <=? 60) with true. change (90 <=? 60) with false.
  change (30 <=? 90) with true. change (60 <=? 90) with true.
  change (90 <=? 90) with true. rewrite !andb_true_r, !andb_false_r.
  destruct (Z.ltb_spec 30 utilization), (Z.ltb_spec tradeLines 5),
    (Z.ltb_spec 0 latePayments); Z.div_mod_to_equations; lia.
Qed.

Lemma score_projection_is_monotone_and_capped_witness :
  exists s0 s30 s60 s90,
    scoreMilestones 700 45 2 1 = [(0, s0); (30, s30); (60, s60); (90, s90)]
    /\ s0 = 700 /\ s30 <= s60 <= s90 /\ s90 <= 850 /\ s90 <= s0 + 43
    /\ s0 <= s30 /\ Z.min (s0 + 3) 850 <= s90.
Proof.
  destruct (score_projection_is_monotone_and_capped 700 45 2 1)
    as (s0 & s30 & s60 & s90 & E & E0 & M & C & U & L);
    try (unfold moderate; simpl; lia).
  exists s0, s30, s60, s90. repeat (split; [assumption || apply M|]).
  apply L. change (if 700 =? 0 then 650 else 700) with 700 in E0. lia.
Defined.

(* ------------------------------------------------------------------ *)
(** ** Funding simulator *)
(* ------------------------------------------------------------------ *)

(** X22. For whole-number inputs and a revenue that is a string or
    absent, the qualification score of the funding simulator lies
    between 23 and 100 and the level is High from 75, Medium from 50 and
    Low below; an owner FICO below 640 never gives High whatever the
    other inputs are, and a FICO of 720 or more never gives Low. *)
Theorem funding_qualification_bounds (ownerFico utilization tradeLines latePayments : Z)
  (annualRevenue : jsval) (q : qualification) :
  fundingQualification ownerFico utilization tradeLines latePayments annualRevenue = Some q ->
  23 <= q_score q <= 100
  /\ (q_level q = js "High" <-> 75 <= q_score q)
  /\ (q_level q = js "Low" <-> q_score q < 50)
  /\ (q_level q = js "High" \/ q_level q = js "Medium" \/ q_level q = js "Low")
  /\ (ownerFico < 640 -> q_level q <> js "High")
  /\ (720 <= ownerFico -> q_level q <> js "Low")
  /\ List.length (q_factors q) = 5%nat.
Proof.
  unfold fundingQualification, geb.
  destruct (revenueNum annualRevenue) as [revenue|]; [|discriminate].
  set (p1 := if 720 <=? ownerFico then _ else _).
  set (p2 := if utilization <=? 10 then _ else _).
  set (p3 := if 10 <=? tradeLines then _ else _).
  set (p4 := if latePayments =? 0 then _ else _).
  set (p5 := if 500000 <=? revenue then _ else _).
  assert (B1 : 10 <= fst p1 <= 40 /\ (ownerFico < 640 -> fst p1 = 10)
               /\ (720 <= ownerFico -> fst p1 = 40)).
  { unfold p1. destruct (Z.leb_spec 720 ownerFico), (Z.leb_spec 680 ownerFico),
      (Z.leb_spec 640 ownerFico); cbn [fst]; lia. }
  assert (B2 : 5 <= fst p2 <= 20).
  { unfold p2. destruct (utilization <=? 10), (utilization <=? 30), (utilization <=? 50);
      cbn [fst]; lia. }
  assert (B3 : 5 <= fst p3 <= 20).
  { unfold p3. destruct (10 <=? tradeLines), (5 <=? tradeLines), (3 <=? tradeLines);
      cbn [fst]; lia. }
  assert (B4 : 0 <= fst p4 <= 10).
  { unfold p4. destruct (latePayments =? 0), (latePayments <=? 2); cbn [fst]; lia. }
  assert (B5 : 3 <= fst p5 <= 10).
  { unfold p5. destruct (500000 <=? revenue), (250000 <=? revenue), (100000 <=? revenue);
      cbn [fst]; lia. }
  clearbody p1 p2 p3 p4 p5. cbv zeta.
  set (score := fst p1 + fst p2 + fst p3 + fst p4 + fst p5) in *.
  assert (BS : 23 <= score <= 100) by (unfold score; lia).
  assert (L1 : ownerFico < 640 -> score < 75) by (unfold score; lia).
  assert (L2 : 720 <= ownerFico -> 50 <= score) by (unfold score; lia).
  clearbody score.
  destruct (Z.leb_spec 75 score) as [H75|H75]; [|destruct (Z.leb_spec 50 score) as [H50|H50]];
    intros E; inversion E as [Q]; cbn [q_score q_level q_factors List.length];
    unfold not; repeat split; intros; try lia; try reflexivity; auto;
    match goal with D : js _ = js _ |- _ => discriminate D end.
Qed.

Lemma funding_qualification_bounds_witness :
  let q := {| q_score := 70;
              q_factors := [js "Credit score needs improvement"; js "Excellent utilization";
                            js "Strong tradeline history"; js "Perfect payment history";
                            js "Strong revenue"];
              q_level := js "Medium"; q_levelClass := js "warning";
              q_estRate := js "10-15%"; q_estTerm := js "3-5 years";
              q_message := js "Likely to qualify for alternative lenders or smaller amounts" |} in
  fundingQualification 639 0 12 0 (JStr (js "$2,500,000")) = Some q
  /\ q_level q <> js "High".
Proof.
  intros q.
  assert (E : fundingQualification 639 0 12 0 (JStr (js "$2,500,000")) = Some q)
    by reflexivity.
  split; [exact E|].
  destruct (funding_qualification_bounds 639 0 12 0 (JStr (js "$2,500,000")) q E)
    as (_ & _ & _ & _ & H & _).
  apply H. lia.
Defined.

(* ------------------------------------------------------------------ *)
(** ** Smart alerts and the derogatories badge *)
(* ------------------------------------------------------------------ *)

Lemma shows_pushIf cond a alerts id :
  shows (pushIf cond a alerts) id
  <-> shows alerts id \/ (cond = true /\ a_testId a = js id).
Proof.
  unfold shows, pushIf. destruct cond.
  - rewrite map_app, in_app_iff. cbn [map In]. intuition.
  - intuition. discriminate.
Qed.

Section SmartAlertFacts.

Variable toLowerCase : jsstring -> jsstring.

Abbreviation generateSmartAlerts' := (generateSmartAlerts toLowerCase).
Abbreviation derogatoriesBadge' := (derogatoriesBadge toLowerCase).

(** X23. For whole-number inputs the milestone alert ('Excellent
    profile!') is shown exactly when utilization is at most 10, there are
    at least 5 trade lines and no late payment, and then none of the
    late-payment, utilization and trade-line alerts is shown with it
    (the derogatories alert may be); the alerts always come in the order
    danger, warning, success. *)
Theorem milestone_alert_excludes_warnings
  (ownerFico utilization tradeLines latePayments : Z) (derogatories : jsval)
  (alerts : list alert) :
  generateSmartAlerts' ownerFico utilization tradeLines latePayments derogatories
  = Some alerts ->
  (shows alerts "alert-milestone"
   <-> utilization <= 10 /\ 5 <= tradeLines /\ latePayments = 0)
  /\ (shows alerts "alert-milestone" ->
      ~ shows alerts "alert-late-payments" /\ ~ shows alerts "alert-utilization"
      /\ ~ shows alerts "alert-tradelines")
  /\ inSeverityOrder alerts.
Proof.
  unfold generateSmartAlerts. destruct (derogatoriesFound toLowerCase derogatories) as [found|];
    [|discriminate].
  cbv zeta. intros E. injection E as <-.
  match goal with |- context [shows ?a "alert-milestone"] => set (al := a) end.
  assert (Sm : shows al "alert-milestone"
               <-> (utilization <=? 10) && geb tradeLines 5 && (latePayments =? 0) = true).
  { unfold al. rewrite !shows_pushIf. cbn [a_testId]. unfold shows. cbn [map In].
    split; [intuition discriminate | intuition]. }
  assert (Sl : shows al "alert-late-payments" <-> gtb latePayments 0 = true).
  { unfold al. rewrite !shows_pushIf. cbn [a_testId]. unfold shows. cbn [map In].
    split; [intuition discriminate | intuition]. }
  assert (Su : shows al "alert-utilization" <-> gtb utilization 30 = true).
  { unfold al. rewrite !shows_pushIf. cbn [a_testId]. unfold shows. cbn [map In].
    split; [intuition discriminate | intuition]. }
  assert (St : shows al "alert-tradelines" <-> (tradeLines <? 5) = true).
  { unfold al. rewrite !shows_pushIf. cbn [a_testId]. unfold shows. cbn [map In].
    split; [intuition discriminate | intuition]. }
  rewrite Sm, Sl, Su, St. unfold gtb, geb.
  rewrite !andb_true_iff, !Z.leb_le, !Z.ltb_lt, Z.eqb_eq.
  split; [tauto|]. split; [lia|]. unfold al.
  unfold inSeverityOrder, pushIf.
  exists (Nat.add (Nat.b2n (gtb latePayments 0)) (Nat.b2n found)),
         (Nat.add (Nat.b2n (gtb utilization 30)) (Nat.b2n (tradeLines <? 5))),
         (Nat.add (Nat.b2n (geb ownerFico 720))
            (Nat.b2n ((utilization <=? 10) && geb tradeLines 5 && (latePayments =? 0)))).
  destruct (gtb latePayments 0), found, (gtb utilization 30), (tradeLines <? 5),
    (geb ownerFico 720), ((utilization <=? 10) && geb tradeLines 5 && (latePayments =? 0));
    reflexivity.
Qed.

(** X24. The derogatories alert and the derogatories badge read the
    same field with different lists of words for 'nothing to report': for
    a non-empty entry that lower-cases to 'n/a' or 'na' the badge says
    'None' while the alert 'Derogatory Marks Found' is shown, and for
    'none reported' the badge says 'Yes' while no such alert is shown. *)
Theorem derogatories_badge_and_alert_disagree
  (ownerFico utilization tradeLines latePayments : Z) (s : jsstring) :
  trim s = s -> s <> [] ->
  exists alerts,
    generateSmartAlerts' ownerFico utilization tradeLines latePayments (JStr s)
    = Some alerts
    /\ (toLowerCase s = js "n/a" \/ toLowerCase s = js "na" ->
        derogatoriesBadge' (JStr s) = (js "Derogatories: None", js "cc-badge--ok")
        /\ shows alerts "alert-derogatories")
    /\ (toLowerCase s = js "none reported" ->
        derogatoriesBadge' (JStr s) = (js "Derogatories: Yes", js "cc-badge--warn")
        /\ ~ shows alerts "alert-derogatories").
Proof.
  intros T N.
  assert (F : derogatoriesFound toLowerCase (JStr s)
              = Some (negb (jsstring_eqb (toLowerCase s) (js "none"))
                      && negb (jsstring_eqb (toLowerCase s) (js "none reported")))).
  { unfold derogatoriesFound. destruct s; [congruence|reflexivity]. }
  assert (B : toStr (jsOr (JStr s) (JStr [])) = s).
  { unfold jsOr. destruct s; [congruence|reflexivity]. }
  unfold generateSmartAlerts. rewrite F. eexists. split; [reflexivity|]. split.
  - intros L. split.
    + unfold derogatoriesBadge. rewrite B, T. destruct L as [L|L]; rewrite L; reflexivity.
    + rewrite !shows_pushIf. do 4 left. right. split; [|reflexivity].
      destruct L as [L|L]; rewrite L; reflexivity.
  - intros L. split.
    + unfold derogatoriesBadge. rewrite B, T, L. reflexivity.
    + rewrite !shows_pushIf. cbn [a_testId]. unfold shows. cbn [map In].
      intros [[[[[[[]|[_ D]]|[Fd _]]|[_ D]]|[_ D]]|[_ D]]|[_ D]]; try discriminate D.
      rewrite L in Fd. discriminate Fd.
Qed.

End SmartAlertFacts.

Lemma milestone_alert_excludes_warnings_witness :
  exists alerts,
    generateSmartAlerts asciiLower 735 8 6 0 (JStr (js "Tax lien 2019")) = Some alerts
    /\ shows alerts "alert-milestone"
    /\ ~ shows alerts "alert-late-payments" /\ ~ shows alerts "alert-utilization"
    /\ ~ shows alerts "alert-tradelines".
Proof.
  eexists. split; [reflexivity|].
  match goal with
  | |- shows ?a _ /\ _ =>
      destruct (milestone_alert_excludes_warnings asciiLower 735 8 6 0
                  (JStr (js "Tax lien 2019")) a eq_refl) as (I & X & _)
  end.
  assert (S0 : 8 <= 10 /\ 5 <= 6 /\ 0 = 0) by lia.
  apply I in S0. split; [exact S0|]. apply X, S0.
Defined.

Lemma derogatories_badge_and_alert_disagree_witness :
  exists alerts,
    generateSmartAlerts asciiLower 700 20 4 0 (JStr (js "N/A")) = Some alerts
    /\ derogatoriesBadge asciiLower (JStr (js "N/A"))
       = (js "Derogatories: None", js "cc-badge--ok")
    /\ shows alerts "alert-derogatories".
Proof.
  destruct (derogatories_badge_and_alert_disagree asciiLower 700 20 4 0 (js "N/A")
              eq_refl ltac:(discriminate)) as (alerts & E & A & _).
  exists alerts. split; [exact E|]. apply A. left. reflexivity.
Defined.

(* ------------------------------------------------------------------ *)
(** ** The current result: reload, explain and exports *)
(* ------------------------------------------------------------------ *)

Lemma csvExportRuns_roundTrip_generated r text :
  csvExportRuns (generatedObject r text) = false
  /\ csvExportRuns (jsonRoundTrip (generatedObject r text)) = false.
Proof.
  split; [reflexivity|].
  unfold generatedObject. cbn [jsonRoundTrip isUndefined].
  destruct (isUndefined (cr_payload r)), (isUndefined (cr_roadmap r)); reflexivity.
Qed.

(** X25. A report opened from the database is cached without a version:
    after saveCurrentResult the next page load discards it, clearing the
    cache and showing nothing, whatever the report holds.  A result that
    handleGenerate built is restored by the next page load with the HTML
    it was rendered to. *)
Theorem database_report_is_lost_on_reload
  (report metadata : jsval) (text : jsstring)
  (now : Z) (isoNow : jsstring) (payload generated : jsval) (r : current_result)
  (toLowerCase textToHtml : jsstring -> jsstring) (stringGtZero : jsstring -> bool) :
  loadCurrentResult JNull (saveCurrentResult (loadedObject report metadata text))
  = {| rs_current := JNull; rs_storage := NoItem; rs_panel := None |}
  /\ (generateResult toLowerCase textToHtml stringGtZero now isoNow payload generated = Some r ->
      loadCurrentResult JNull (saveCurrentResult (generatedObject r text))
      = {| rs_current := jsonRoundTrip (generatedObject r text);
           rs_storage := Parsed (jsonRoundTrip (generatedObject r text));
           rs_panel := Some (JStr (cr_html r)) |}).
Proof.
  split.
  - unfold loadedObject, saveCurrentResult, loadCurrentResult.
    cbn [jsonRoundTrip isUndefined].
    destruct (isUndefined (prop report "id")), (isUndefined metadata),
      (isUndefined (prop report "htmlContent")), (isUndefined (prop report "createdAt")),
      (isUndefined (prop report "checksum")); reflexivity.
  - unfold generateResult. intros G.
    destruct (renderStructuredHTML toLowerCase textToHtml stringGtZero payload generated)
      as [html|] eqn:R; [|discriminate].
    pose proof (render_nonempty toLowerCase textToHtml stringGtZero payload generated html R)
      as NE.
    injection G as <-.
    unfold generatedObject, saveCurrentResult, loadCurrentResult.
    cbn [cr_id cr_version cr_payload cr_roadmap cr_html cr_createdAt cr_checksum
         jsonRoundTrip isUndefined].
    destruct html as [|c html]; [congruence|].
    destruct (isUndefined payload), (isUndefined generated); reflexivity.
Qed.

Lemma database_report_is_lost_on_reload_witness :
  exists r,
    generateResult asciiLower domTextToHtml (fun _ => false) 1700000000000
      (js "2023-11-14T22:13:20.000Z") sampleFormData sampleAnswer = Some r
    /\ loadCurrentResult JNull (saveCurrentResult (generatedObject r (js "Roadmap")))
       = {| rs_current := jsonRoundTrip (generatedObject r (js "Roadmap"));
            rs_storage := Parsed (jsonRoundTrip (generatedObject r (js "Roadmap")));
            rs_panel := Some (JStr (cr_html r)) |}.
Proof.
  eexists. split; [vm_compute; reflexivity|].
  eapply (database_report_is_lost_on_reload JNull JNull (js "Roadmap") 1700000000000
            (js "2023-11-14T22:13:20.000Z") sampleFormData sampleAnswer _
            asciiLower domTextToHtml (fun _ => false)).
  vm_compute. reflexivity.
Defined.

(** X26. handleExportCSV reads a field, response, that neither
    handleGenerate nor loadReportFromDatabase puts into the current
    result: for every result they build, as built or as restored from
    the cache, and when there is none, the CSV export stops with 'Please
    generate a credit roadmap first'; and for a report opened from the
    database the explanation is not available either, as it has no
    roadmap. *)
Theorem csv_export_never_runs (today : Z * Z * Z) (r : current_result)
  (report metadata : jsval) (text : jsstring) (explanationBodyPresent : bool) :
  let refused :=
    CsvError (js "Please generate a credit roadmap first before exporting CSV.") in
  handleExportCSV today (generatedObject r text) = refused
  /\ handleExportCSV today (jsonRoundTrip (generatedObject r text)) = refused
  /\ handleExportCSV today (loadedObject report metadata text) = refused
  /\ handleExportCSV today (jsonRoundTrip (loadedObject report metadata text)) = refused
  /\ handleExportCSV today JNull = refused
  /\ handleExplainReport explanationBodyPresent (loadedObject report metadata text)
     = ExplainNothing.
Proof.
  intros refused. unfold handleExportCSV.
  destruct (csvExportRuns_roundTrip_generated r text) as [G1 G2]. rewrite G1, G2.
  assert (L1 : csvExportRuns (loadedObject report metadata text) = false) by reflexivity.
  assert (L2 : csvExportRuns (jsonRoundTrip (loadedObject report metadata text)) = false).
  { unfold loadedObject. cbn [jsonRoundTrip isUndefined].
    destruct (isUndefined (prop report "id")), (isUndefined metadata),
      (isUndefined (prop report "htmlContent")), (isUndefined (prop report "createdAt")),
      (isUndefined (prop report "checksum")); reflexivity. }
  rewrite L1, L2. repeat split.
Qed.

(* ------------------------------------------------------------------ *)
(** ** CSV export: the content reads back *)
(* ------------------------------------------------------------------ *)

Lemma parse_cell_body cell : forall acc row rows rest,
  parseCsvGo (flat_map (fun c => if c =? 34 then [34; 34] else [c]) cell ++ 34 :: rest)
    InCell acc row rows
  = parseCsvGo rest AfterQuote (rev cell ++ acc) row rows.
Proof.
  induction cell as [|c cell IH]; intros acc row rows rest; [reflexivity|].
  cbn [flat_map rev]. rewrite <- !app_assoc. cbn [app].
  destruct (Z.eqb_spec c 34) as [->|N].
  - cbn [app parseCsvGo Z.eqb Pos.eqb]. apply IH.
  - cbn [app parseCsvGo]. rewrite (proj2 (Z.eqb_neq c 34) N). apply IH.
Qed.

Lemma parse_cell cell x row rows rest :
  parseCsvGo (quoteCell cell ++ rest) BetweenCells x row rows
  = parseCsvGo rest AfterQuote (rev cell) row rows.
Proof.
  unfold quoteCell. cbn [app parseCsvGo Z.eqb Pos.eqb].
  rewrite <- app_assoc. cbn [app]. rewrite parse_cell_body. now rewrite app_nil_r.
Qed.

Lemma joinWith_cons sep x y t :
  joinWith sep (x :: y :: t) = x ++ sep ++ joinWith sep (y :: t).
Proof. reflexivity. Qed.

Lemma parse_row init : forall lastc row rows rest,
  parseCsvGo (joinWith [44] (map quoteCell (init ++ [lastc])) ++ rest) BetweenCells [] row rows
  = parseCsvGo rest AfterQuote (rev lastc) (rev init ++ row) rows.
Proof.
  induction init as [|c init IH]; intros lastc row rows rest.
  - cbn [map joinWith rev app]. apply parse_cell.
  - cbn [app map]. destruct (map quoteCell (init ++ [lastc])) as [|y t] eqn:E.
    { destruct init; discriminate E. }
    rewrite joinWith_cons, <- !app_assoc, parse_cell.
    cbn [app parseCsvGo Z.eqb Pos.eqb]. rewrite rev_involutive, <- E, IH.
    cbn [rev]. now rewrite <- app_assoc.
Qed.

Lemma parse_rows rs : forall r rows,
  Forall (fun row => row <> []) (r :: rs) ->
  parseCsvGo (csvContent (r :: rs)) BetweenCells [] [] rows = Some (rev rows ++ r :: rs).
Proof.
  unfold csvContent.
  induction rs as [|r' rs IH]; intros r rows F; inversion F as [|? ? Nr F']; subst.
  - destruct (exists_last Nr) as (init & lastc & ->).
    cbn [map joinWith]. rewrite <- (app_nil_r (joinWith [44] _)), parse_row.
    cbn [parseCsvGo]. rewrite app_nil_r, rev_involutive. cbn [rev].
    now rewrite rev_involutive.
  - destruct (exists_last Nr) as (init & lastc & ->).
    cbn [map]. rewrite joinWith_cons, parse_row.
    cbn [app parseCsvGo Z.eqb Pos.eqb].
    change (joinWith [10]
              (joinWith [44] (map quoteCell r')
               :: map (fun row => joinWith [44] (map quoteCell row)) rs))
      with (joinWith [10] (map (fun row => joinWith [44] (map quoteCell row)) (r' :: rs))).
    rewrite IH by assumption.
    rewrite app_nil_r, rev_involutive. cbn [rev].
    now rewrite rev_involutive, <- app_assoc.
Qed.

Lemma numbered_cells title priority timeline note actions : forall idx,
  Forall (fun row => List.length row = 5%nat)
    (numbered title priority timeline note idx actions).
Proof.
  induction actions as [|a actions IH]; intros idx; cbn [numbered]; constructor; auto.
Qed.

Lemma wholeSection_cells title v priority timeline notes rows :
  wholeSection title v priority timeline notes = Some rows ->
  Forall (fun row => List.length row = 5%nat) rows.
Proof.
  unfold wholeSection. destruct (negb (truthy v)).
  - intros E. injection E as <-. constructor.
  - destruct v; try discriminate. intros E. injection E as <-. repeat constructor.
Qed.

Lemma actionSection_cells title v priority timeline note rows :
  actionSection title v priority timeline note = Some rows ->
  Forall (fun row => List.length row = 5%nat) rows.
Proof.
  unfold actionSection. destruct (negb (truthy v)).
  - intros E. injection E as <-. constructor.
  - destruct v; try discriminate. intros E. injection E as <-. apply numbered_cells.
Qed.

(** X27. When handleExportCSV produces a download, its content reads
    back, cell by cell, to exactly the rows it was built from, whatever
    quotes, commas and line breaks the cells hold; the first row is the
    header and every row has five cells. *)
Theorem csv_content_reads_back (today : Z * Z * Z) (currentResult : jsval)
  (content filename : jsstring) :
  handleExportCSV today currentResult = CsvDownload content filename ->
  exists rows,
    csvRows (prop currentResult "response") = Some (csvHeader :: rows)
    /\ parseCsv content = Some (csvHeader :: rows)
    /\ Forall (fun row => List.length row = 5%nat) (csvHeader :: rows).
Proof.
  unfold handleExportCSV. destruct (negb (csvExportRuns currentResult)); [discriminate|].
  destruct (csvRows (prop currentResult "response")) as [rows|] eqn:R; [|discriminate].
  intros E. injection E as <- _.
  unfold csvRows in R.
  destruct (wholeSection "Profile Summary" _ _ _ _) as [r1|] eqn:E1; [|discriminate].
  destruct (actionSection "Banking & Data Signals" _ _ _ _) as [r2|] eqn:E2; [|discriminate].
  destruct (actionSection "Quick Wins" _ _ _ _) as [r3|] eqn:E3; [|discriminate].
  destruct (actionSection "Trade Lines Plan" _ _ _ _) as [r4|] eqn:E4; [|discriminate].
  destruct (actionSection "Card Strategy" _ _ _ _) as [r5|] eqn:E5; [|discriminate].
  destruct (wholeSection "30/60/90 Action Plan" _ _ _ _) as [r6|] eqn:E6; [|discriminate].
  destruct (actionSection "Risk Flags" _ _ _ _) as [r7|] eqn:E7; [|discriminate].
  injection R as <-. cbn [app].
  exists (r1 ++ r2 ++ r3 ++ r4 ++ r5 ++ r6 ++ r7).
  assert (C : Forall (fun row => List.length row = 5%nat)
                (csvHeader :: r1 ++ r2 ++ r3 ++ r4 ++ r5 ++ r6 ++ r7)).
  { constructor; [reflexivity|].
    repeat (apply Forall_app; split);
      eauto using wholeSection_cells, actionSection_cells. }
  split; [reflexivity|]. split; [|exact C].
  unfold parseCsv. rewrite parse_rows; [reflexivity|].
  eapply Forall_impl; [|exact C]. cbv beta. intros row L N. subst row. discriminate L.
Qed.

Lemma csv_content_reads_back_witness :
  exists content filename rows,
    handleExportCSV (2025, 0, 5) csvSample = CsvDownload content filename
    /\ filename = js "CreditCommander_Acme LLC_2025-01-05.csv"
    /\ parseCsv content = Some (csvHeader :: rows)
    /\ map (fun row => nth 1 row []) rows
       = [tpl "Lender said 'not yet', so: build first.";
          js "Pay down the two cards"; js "Open a Uline account, net-30"].
Proof.
  destruct (handleExportCSV (2025, 0, 5) csvSample) as [m|content filename] eqn:E;
    [vm_compute in E; discriminate E|].
  destruct (csv_content_reads_back (2025, 0, 5) csvSample content filename E)
    as (rows & R & P & _).
  exists content, filename, rows. split; [reflexivity|].
  vm_compute in E. injection E as _ <-. split; [reflexivity|]. split; [exact P|].
  vm_compute in R. injection R as <-. reflexivity.
Defined.

Lemma replaceRuns_spaces s :
  Forall (fun c => isWhiteSpace c = true -> c = 32) (replaceRuns isWhiteSpace 32 s).
Proof.
  induction s as [|c t IH]; [constructor|]. cbn [replaceRuns].
  destruct (isWhiteSpace c) eqn:W.
  - destruct t as [|c' t']; [repeat constructor|].
    destruct (isWhiteSpace c'); [exact IH|constructor; auto].
  - constructor; [congruence|exact IH].
Qed.

Lemma collectActions_trimmed lines :
  Forall (fun a => trim a = a) (collectActions lines).
Proof.
  induction lines as [|line rest IH]; [constructor|]. cbn [collectActions].
  destruct (bulletLine (trim line)); [constructor; [apply trim_idempotent|exact IH]|].
  destruct ((20 <? Z.of_nat (List.length (trim line))) && endsSentence (trim line));
    [constructor; [apply trim_idempotent|exact IH]|exact IH].
Qed.

Lemma Forall_firstn {A} (P : A -> Prop) n l : Forall P l -> Forall P (firstn n l).
Proof.
  intros H. rewrite <- (firstn_skipn n l) in H. apply Forall_app in H. apply H.
Qed.

Lemma Forall_filter {A} (P : A -> Prop) (p : A -> bool) l :
  Forall P l -> Forall P (filter p l).
Proof.
  induction 1 as [|x l Hx _ IH]; cbn [filter]; [constructor|].
  destruct (p x); auto.
Qed.

(** X28. extractActions gives at most ten actions for a section, none
    with white space at either end and none at all for an empty text;
    cleanTextForCSV gives a text without white space at either end in
    which the only white space left is the plain space, so that no line
    break or tab of the section reaches its cell. *)
Theorem csv_cells_are_tidy (text : jsstring) :
  (List.length (extractActions text) <= 10)%nat
  /\ Forall (fun a => trim a = a) (extractActions text)
  /\ extractActions [] = []
  /\ trim (cleanTextForCSV text) = cleanTextForCSV text
  /\ Forall (fun c => isWhiteSpace c = true -> c = 32) (cleanTextForCSV text).
Proof.
  assert (T : Forall (fun a => trim a = a) (extractActions text)).
  { unfold extractActions.
    pose proof (collectActions_trimmed (splitLines text)) as C.
    destruct (collectActions (splitLines text)) as [|a l].
    - destruct text as [|c t]; [constructor|].
      apply Forall_firstn, Forall_filter, Forall_forall. intros x H.
      apply in_map_iff in H. destruct H as (y & <- & _). apply trim_idempotent.
    - now apply Forall_firstn. }
  split; [|split; [exact T|split; [reflexivity|split]]].
  - unfold extractActions.
    destruct (collectActions (splitLines text)) as [|a l].
    + destruct text as [|c t]; [simpl; lia|].
      etransitivity; [apply firstn_le_length|]. lia.
    + apply firstn_le_length.
  - apply trim_idempotent.
  - apply Forall_trim, replaceRuns_spaces.
Qed.

(* ------------------------------------------------------------------ *)
(** ** UsageGovernor: first use by many requests at once *)
(* ------------------------------------------------------------------ *)

Section FirstUseRace.

Variable Key : Type.
Variable key_eqb : Key -> Key -> bool.
Hypothesis key_eqb_eq : forall a b, key_eqb a b = true <-> a = b.
Variable outage : nat -> bool.
Hypothesis store_up : forall n, outage n = false.
Variable k : Key.

Abbreviation stepCall0 := (stepCall key_eqb false outage k).
Abbreviation stepNth0 := (stepNth key_eqb false outage k).
Abbreviation runSchedule0 := (runSchedule key_eqb false outage k).

Lemma stepNth_at pre c post db :
  stepNth0 (List.length pre) (pre ++ c :: post) db
  = (pre ++ fst (stepCall0 c db) :: post, snd (stepCall0 c db)).
Proof.
  induction pre as [|x pre IH]; cbn [List.length app stepNth].
  - destruct (stepCall0 c db); reflexivity.
  - rewrite IH. reflexivity.
Qed.

Lemma runSchedule_app s1 s2 cf :
  runSchedule0 (s1 ++ s2) cf = runSchedule0 s2 (runSchedule0 s1 cf).
Proof.
  revert cf. induction s1 as [|i s1 IH]; intros cf; [reflexivity|].
  cbn [app runSchedule]. apply IH.
Qed.

(** One round: every call that is at [c] takes the same step. *)
Lemma run_round (P : usage_db Key -> Prop) (c c' : call)
  (next : usage_db Key -> usage_db Key) :
  (forall db, P db -> stepCall0 c db = (c', next db) /\ P (next db)) ->
  forall n pre db, P db ->
    runSchedule0 (seq (List.length pre) n) (pre ++ repeat c n, db)
    = (pre ++ repeat c' n, Nat.iter n next db)
    /\ P (Nat.iter n next db).
Proof.
  intros Hstep. induction n as [|n IH]; intros pre db H.
  - cbn [seq repeat runSchedule Nat.iter]. auto.
  - cbn [seq repeat runSchedule fst snd]. rewrite stepNth_at.
    destruct (Hstep db H) as [E Hn]. rewrite E. cbn [fst snd].
    specialize (IH (pre ++ [c']) (next db) Hn).
    rewrite length_app, Nat.add_1_r, <- !app_assoc in IH. cbn [app] in IH.
    assert (I : forall m d, Nat.iter m next (next d) = Nat.iter (S m) next d).
    { induction m as [|m IHm]; intros d; simpl in *; [reflexivity|now rewrite IHm]. }
    rewrite <- I. exact IH.
Qed.

Abbreviation noRow0 := (noRow key_eqb k).

Lemma update_round db :
  noRow0 db ->
  stepCall0 AtUpdate db = (AtSelect, afterQuery db) /\ noRow0 (afterQuery db).
Proof.
  intros N. split; [|exact N]. cbn [stepCall].
  destruct db as [t q]. cbn [table queries] in *.
  rewrite (dbUpdate_up Key key_eqb outage store_up).
  rewrite (sqlUpdate_none Key key_eqb k t); [reflexivity|].
  unfold noRow in N. cbn [table] in N. now rewrite filter_andb, N.
Qed.

Lemma select_round db :
  noRow0 db ->
  stepCall0 AtSelect db = (AtInsert, afterQuery db) /\ noRow0 (afterQuery db).
Proof.
  intros N. split; [|exact N]. cbn [stepCall].
  destruct db as [t q]. cbn [table queries] in *.
  rewrite (dbSelect_up Key key_eqb outage store_up).
  unfold sqlSelect. unfold noRow in N. cbn [table] in N. rewrite N. reflexivity.
Qed.

Lemma insert_round db :
  True ->
  stepCall0 AtInsert db = (Returned firstReport, afterInsert k db) /\ True.
Proof.
  intros _. split; [|exact I]. cbn [stepCall].
  unfold dbInsert, query, sqlInsert. rewrite store_up. reflexivity.
Qed.

Lemma iter_queries n (db : usage_db Key) :
  table (Nat.iter n afterQuery db)
  = table db.
Proof. induction n as [|n IH]; [reflexivity|]. simpl. exact IH. Qed.

Lemma iter_inserts n (db : usage_db Key) :
  table (Nat.iter n (afterInsert k) db)
  = table db ++ repeat {| row_key := k; reportCount := 1 |} n.
Proof.
  induction n as [|n IH]; [simpl; now rewrite app_nil_r|].
  change (Nat.iter (S n) (afterInsert k) db)
    with (afterInsert k (Nat.iter n (afterInsert k) db)).
  unfold afterInsert at 1. cbn [table repeat].
  rewrite IH, <- app_assoc. f_equal.
  clear. induction n as [|n IH]; [reflexivity|]. cbn [repeat app]. now rewrite IH.
Qed.

Lemma successes_repeat n : successes (repeat (Returned firstReport) n) = Z.of_nat n.
Proof.
  unfold successes. f_equal.
  induction n as [|n IH]; [reflexivity|]. cbn [repeat filter callSucceeded firstReport success].
  cbn [List.length]. now rewrite IH.
Qed.

(** X29. Where the key of the usage table is not unique, the first use
    is open to any number of requests at once: when [n] calls of
    incrementUsage for a key without a row run in lockstep, every one of
    them inserts its own row and reports success with count 1, and the
    count that the check reads afterwards is 1, however large [n] is. *)
Theorem first_use_race_has_no_bound (n : nat) (db : usage_db Key) :
  (1 <= n)%nat ->
  filter (matchesKey key_eqb k) (table db) = [] ->
  let cf := runSchedule0 (lockstep n) (repeat AtUpdate n, db) in
  fst cf = repeat (Returned firstReport) n
  /\ successes (fst cf) = Z.of_nat n
  /\ table (snd cf) = table db ++ repeat {| row_key := k; reportCount := 1 |} n
  /\ storedCount key_eqb k (table (snd cf)) = 1.
Proof.
  intros Hn N cf.
  destruct (run_round noRow0 AtUpdate AtSelect _ update_round n [] db N) as [R1 P1].
  destruct (run_round noRow0 AtSelect AtInsert _ select_round n [] _ P1) as [R2 P2].
  destruct (run_round (fun _ => True) AtInsert (Returned firstReport) _ insert_round n []
              (Nat.iter n afterQuery
                 (Nat.iter n afterQuery db))
              I) as [R3 _].
  cbn [List.length app] in R1, R2, R3.
  assert (E : cf = (repeat (Returned firstReport) n,
                    Nat.iter n
                      (afterInsert k)
                      (Nat.iter n afterQuery
                         (Nat.iter n afterQuery
                            db)))).
  { unfold cf, lockstep. now rewrite !runSchedule_app, R1, R2, R3. }
  rewrite E. cbn [fst snd]. rewrite iter_inserts, !iter_queries.
  split; [reflexivity|]. split; [apply successes_repeat|]. split; [reflexivity|].
  unfold storedCount, sqlSelect. rewrite filter_app, N. cbn [app].
  destruct n as [|n]; [lia|]. cbn [repeat filter].
  unfold matchesKey at 1. cbn [row_key]. rewrite (proj2 (key_eqb_eq k k) eq_refl).
  reflexivity.
Qed.

End FirstUseRace.

Lemma first_use_race_has_no_bound_witness :
  let cf := runSchedule ip_tool_eqb false (fun _ => false) raceKey (lockstep 31)
              (repeat AtUpdate 31, {| table := []; queries := 0 |}) in
  fst cf = repeat (Returned firstReport) 31
  /\ successes (fst cf) = Z.of_nat 31
  /\ table (snd cf) = [] ++ repeat {| row_key := raceKey; reportCount := 1 |} 31
  /\ storedCount ip_tool_eqb raceKey (table (snd cf)) = 1.
Proof.
  apply (first_use_race_has_no_bound ip_tool ip_tool_eqb ip_tool_eqb_eq (fun _ => false)
           (fun _ => eq_refl) raceKey 31 {| table := []; queries := 0 |}).
  - lia.
  - reflexivity.
Defined.

(* ------------------------------------------------------------------ *)
(** ** GenerationOrchestrator: the tool parameter *)
(* ------------------------------------------------------------------ *)

Section ToolParameter.

Variable toLowerCase : jsstring -> jsstring.
Variable unique_key : bool.
Variable outage : nat -> bool.

Abbreviation expressGenerate' := (expressGenerate toLowerCase unique_key outage).
Abbreviation normalizeTool' := (normalizeTool toLowerCase).

(** C10. normalizeTool, where it returns, returns one of the two known
    tools, and 'creditcommander' for every input whose lowercased,
    trimmed string form is not 'complipilot'.  Hence a row that the
    route wrote is a row of the caller's ip and of one of the two tools;
    a report is answered only after an increment of one of these two
    counters that reported success, and with at most one row for the
    counter that is a count below 30 grown by one; and when the rows of
    the counter that the tool value normalizes to hold 30 or more, the
    request is answered 429 without a call of the generator, however the
    tool value is spelt. *)
Theorem normalizeTool_closes_tool_bypass
  (lower_ascii : forall s, isAscii s -> toLowerCase s = asciiLower s) :
  (forall tool,
      stringable (jsOr tool (JStr creditcommander)) = true ->
      normalizeTool' tool = creditcommander \/ normalizeTool' tool = complipilot)
  /\
  (forall tool,
      stringable (jsOr tool (JStr creditcommander)) = true ->
      trim (toLowerCase (toStr tool)) <> complipilot ->
      normalizeTool' tool = creditcommander)
  /\
  (forall tool,
      stringable (jsOr tool (JStr creditcommander)) = true ->
      truthy tool = true -> trim (toLowerCase (toStr tool)) = complipilot ->
      normalizeTool' tool = complipilot)
  /\
  (forall req gen meanwhile db r,
      In r (table (snd (expressGenerate' req gen meanwhile db))) ->
      In r (table db) \/ In r (meanwhile (table db))
      \/ row_key r = (getClientIp req, creditcommander)
      \/ row_key r = (getClientIp req, complipilot))
  /\
  (forall req gen meanwhile db r db',
      expressGenerate' req gen meanwhile db = (Ok r, db') -> status r = 200 ->
      exists tool ir,
        (tool = creditcommander \/ tool = complipilot)
        /\ incrementUsage ip_tool_eqb unique_key outage (getClientIp req)
             (getClientIp req, tool)
             {| table := meanwhile (table db); queries := S (queries db) |} = (Ok ir, db')
        /\ success ir = true
        /\ (oneRowPerKey ip_tool_eqb (getClientIp req, tool) (meanwhile (table db)) ->
            storedCount ip_tool_eqb (getClientIp req, tool) (meanwhile (table db)) < 30
            /\ storedCount ip_tool_eqb (getClientIp req, tool) (table db')
               = storedCount ip_tool_eqb (getClientIp req, tool) (meanwhile (table db)) + 1))
  /\
  (forall req gen meanwhile db,
      let ip := getClientIp req in
      let tool := normalizeTool' (prop (reqBody req) "tool") in
      isNullish (reqBody req) = false ->
      stringable (jsOr (prop (reqBody req) "tool") (JStr creditcommander)) = true ->
      ip <> unknownIp -> outage (queries db) = false ->
      filter (matchesKey ip_tool_eqb (ip, tool)) (table db) <> [] ->
      Forall (fun row => 30 <= reportCount row)
        (filter (matchesKey ip_tool_eqb (ip, tool)) (table db)) ->
      exists c,
        30 <= c
        /\ expressGenerate' req gen meanwhile db
           = (Ok {| status := 429; body := expressQuotaBody (expressToolName tool) c tool |},
              {| table := table db; queries := S (queries db) |})).
Proof.
  repeat apply conj.
  - intros tool _. apply normalizeTool_cases.
  - intros tool _ H. unfold normalizeTool, jsOr.
    destruct (truthy tool).
    + destruct (jsstring_eqb _ complipilot) eqn:E; auto.
      apply jsstring_eqb_eq in E. contradiction.
    + cbn [toStr]. rewrite lower_ascii.
      * reflexivity.
      * unfold isAscii, creditcommander. repeat constructor; simpl; lia.
  - intros tool _ T H. unfold normalizeTool, jsOr. rewrite T, H. reflexivity.
  - intros req gen meanwhile db r.
    unfold expressGenerate.
    destruct (isNullish (reqBody req)); [cbn; auto|].
    set (ip := getClientIp req). set (tool := normalizeTool' (prop (reqBody req) "tool")).
    destruct (checkUsageLimit_returns ip_tool ip_tool_eqb outage ip (ip, tool) db)
      as (uc & db1 & E & T & _).
    unfold bind at 1. rewrite E.
    destruct (allowed uc); cbn [negb]; [|cbn; rewrite T; auto].
    unfold tryCatch.
    destruct (truthy (prop (reqBody req) "formData")); cbn [negb];
      [|cbn; rewrite T; auto].
    destruct (expressInvalid (prop (reqBody req) "formData")); [cbn; rewrite T; auto|].
    unfold bind at 1. unfold awaitGenerator at 1. rewrite T.
    destruct gen as [e|ai]; [cbn; auto|].
    destruct (isNullish ai); [cbn; auto|].
    unfold bind.
    pose proof (incrementUsage_rows ip_tool ip_tool_eqb ip_tool_eqb_eq unique_key outage
                  ip (ip, tool) {| table := meanwhile (table db); queries := queries db1 |} r)
      as R.
    destruct (incrementUsage ip_tool_eqb unique_key outage ip (ip, tool) _) as [[ir|e] db2].
    + cbn [snd] in R.
      destruct (negb (success ir) && limitReached ir); cbn [ret snd]; intros H;
        apply R in H; cbn [table] in H;
        (destruct H as [H|H]; [auto|]);
        rewrite H;
        destruct (normalizeTool_cases toLowerCase (prop (reqBody req) "tool")) as [C|C];
        fold tool in C; rewrite C; auto.
    + cbn [snd ret] in *. intros H.
      apply R in H; cbn [table] in H;
        (destruct H as [H|H]; [auto|]);
        rewrite H;
        destruct (normalizeTool_cases toLowerCase (prop (reqBody req) "tool")) as [C|C];
        fold tool in C; rewrite C; auto.
  - intros req gen meanwhile db r db' E St.
    destruct (expressGenerate_delivered toLowerCase unique_key outage req gen meanwhile db r db'
                E St) as (ir & I & Su).
    exists (normalizeTool' (prop (reqBody req) "tool")), ir.
    split; [apply normalizeTool_cases|]. split; [exact I|]. split; [exact Su|].
    intros One.
    destruct (incrementUsage_counts ip_tool ip_tool_eqb ip_tool_eqb_eq unique_key outage
                (getClientIp req) (getClientIp req, normalizeTool' (prop (reqBody req) "tool"))
                {| table := meanwhile (table db); queries := S (queries db) |} ir db'
                One I) as (_ & C & L).
    cbn [table] in C, L. rewrite Su in C. destruct (L Su) as [L1 _]. split; assumption.
  - intros req gen meanwhile db ip tool N _ U O NE A.
    unfold expressGenerate. rewrite N. fold ip. fold tool.
    unfold bind at 1, checkUsageLimit, tryCatch, bind, dbSelect, query, ret.
    destruct (jsstring_eqb ip unknownIp) eqn:Eip;
      [apply jsstring_eqb_eq in Eip; contradiction|].
    rewrite O. unfold sqlSelect.
    destruct (filter (matchesKey ip_tool_eqb (ip, tool)) (table db)) as [|row rows];
      [contradiction|].
    inversion A as [|? ? Hrow _]; subst. cbn [firstn].
    exists (reportCount row). split; [exact Hrow|].
    destruct (Z.geb_spec (reportCount row) 30) as [G|G]; [|lia].
    reflexivity.
Qed.

End ToolParameter.

Lemma normalizeTool_closes_tool_bypass_witness :
  normalizeTool asciiLower (JStr (js "CompliPilot-2")) = creditcommander
  /\ normalizeTool asciiLower (JStr (js " CompliPilot ")) = complipilot
  /\ normalizeTool asciiLower JNull = creditcommander
  /\ exists c,
       30 <= c
       /\ expressGenerate asciiLower true (fun _ => false) spelledToolRequest
            (GenReturns sampleAnswer) (fun t => t) expressDb30
          = (Ok {| status := 429;
                   body := expressQuotaBody (js "Credit Commander") c creditcommander |},
             {| table := table expressDb30; queries := 1 |}).
Proof.
  destruct (normalizeTool_closes_tool_bypass asciiLower true (fun _ => false)
              (fun s _ => eq_refl)) as (_ & C & P & _ & _ & B).
  split; [|split; [|split]].
  - apply C; [reflexivity|]. vm_compute. discriminate.
  - apply P; vm_compute; reflexivity.
  - apply C; [reflexivity|]. vm_compute. discriminate.
  - apply (B spelledToolRequest (GenReturns sampleAnswer) (fun t => t) expressDb30).
    + reflexivity.
    + reflexivity.
    + vm_compute. discriminate.
    + reflexivity.
    + vm_compute. discriminate.
    + vm_compute. repeat constructor. discriminate.
Defined.
